(** * The Granola meeting-cache reader: model builder and query engine

    A shallow embedding of [skills/granola/scripts/granola.ts].

    Conventions of the embedding.
    - A JavaScript string is the list of its UTF-16 code units ([jsstring]).
    - A JavaScript number is an extended rational ([number]): NaN, the two
      infinities, or a finite value kept exact.
    - A value produced by [JSON.parse] is a [json] tree; the members of an
      object are kept as the text lists them and are read through
      [obj_entries] and [obj_get], which give the own properties in the
      order [Object.entries] enumerates them.
    - An object used as a dictionary ([Record<string, T>]) is a [dict]: its
      own properties in enumeration order.  Property reads are own-property
      reads: the members every object inherits from [Object.prototype]
      ([constructor], [__proto__], ...) are not part of the model.
    - A [Date] is its time value, the milliseconds since the epoch, as [Z];
      [new Date()] reads a [clock], one reading per call.
    - What a run writes to the standard output is one text, the
      concatenation of the strings passed to [process.stdout.write], with
      the way the printing ended ([written]); the formatting of dates and
      numbers by the host, [localeCompare] and [JSON.stringify] are the
      [Printer] interface.  The standard error is not part of the model.
    - What the host provides and the script only calls (Unicode case
      mapping, date and number parsing, [JSON.parse], the file system) is
      the [Host] interface. *)

From Stdlib Require Import String Ascii DecimalString DecimalZ.
From Stdlib Require Import ZArith NArith QArith Qround Bool Lia.
From Stdlib Require Import List Sorted Permutation.
Import ListNotations.

Set Implicit Arguments.

(** ** Strings *)

Definition jsstring := list N.

(** The code units of an ASCII literal of the script. *)
Definition lit (s : string) : jsstring :=
  map N_of_ascii (list_ascii_of_string s).
Arguments lit s%_string.

Fixpoint str_eqb (a b : jsstring) : bool :=
  match a, b with
  | [], [] => true
  | x :: a', y :: b' => (x =? y)%N && str_eqb a' b'
  | _, _ => false
  end.

(** [WhiteSpace] and [LineTerminator] of ECMAScript: what [trim] strips and
    what the regular expression class [\s] matches. *)
Definition is_space (c : N) : bool :=
  ((c =? 9) || (c =? 10) || (c =? 11) || (c =? 12) || (c =? 13) || (c =? 32)
   || (c =? 160) || (c =? 5760) || ((8192 <=? c) && (c <=? 8202))
   || (c =? 8232) || (c =? 8233) || (c =? 8239) || (c =? 8287)
   || (c =? 12288) || (c =? 65279))%N.

Fixpoint trimStart (s : jsstring) : jsstring :=
  match s with
  | c :: s' => if is_space c then trimStart s' else s
  | [] => []
  end.

Definition trimEnd (s : jsstring) : jsstring := rev (trimStart (rev s)).

Definition trim (s : jsstring) : jsstring := trimEnd (trimStart s).

(** Truthiness of a string: it is not empty. *)
Definition truthy_str (s : jsstring) : bool :=
  match s with [] => false | _ :: _ => true end.

(** [s.trim()] used as a condition. *)
Definition nonblank (s : jsstring) : bool := truthy_str (trim s).

Fixpoint startsWith (s p : jsstring) : bool :=
  match p, s with
  | [], _ => true
  | x :: p', y :: s' => (x =? y)%N && startsWith s' p'
  | _ :: _, [] => false
  end.

(** [s.includes(q)]: [q] occurs in [s] at some position. *)
Fixpoint includes (s q : jsstring) : bool :=
  startsWith s q ||
  match s with
  | [] => false
  | _ :: s' => includes s' q
  end.

(** [parts.join(sep)]. *)
Fixpoint join (sep : jsstring) (parts : list jsstring) : jsstring :=
  match parts with
  | [] => []
  | [p] => p
  | p :: rest => p ++ sep ++ join sep rest
  end.

(** [s.split(/\s+/)]: the pieces between the maximal runs of white space; a
    run at either end leaves an empty piece there. *)
Fixpoint split_ws_from (cur : jsstring) (in_run : bool) (s : jsstring)
  : list jsstring :=
  match s with
  | [] => [rev cur]
  | c :: s' =>
      if is_space c
      then if in_run then split_ws_from cur true s'
           else rev cur :: split_ws_from [] true s'
      else split_ws_from (c :: cur) false s'
  end.

Definition split_ws (s : jsstring) : list jsstring := split_ws_from [] false s.

(** [s.replace(/Z$/, "+00:00")]: a final [Z] becomes [+00:00]. *)
Fixpoint replace_final_Z (s : jsstring) : jsstring :=
  match s with
  | [] => []
  | [c] => if (c =? 90)%N then lit "+00:00" else [c]
  | c :: s' => c :: replace_final_Z s'
  end.

(** Code-unit order of strings, the order of the default [sort]. *)
Fixpoint str_ltb (a b : jsstring) : bool :=
  match a, b with
  | [], [] => false
  | [], _ :: _ => true
  | _ :: _, [] => false
  | x :: a', y :: b' =>
      if (x <? y)%N then true
      else if (y <? x)%N then false
      else str_ltb a' b'
  end.

(** ** Numbers *)

Inductive number : Type :=
  | NaN
  | PInf
  | NInf
  | Fin (q : Q).

Definition num_of_Z (z : Z) : number := Fin (inject_Z z).

Definition isNaN (x : number) : bool :=
  match x with NaN => true | _ => false end.

(** [x <= 0]. *)
Definition le_zero (x : number) : bool :=
  match x with
  | NaN => false
  | PInf => false
  | NInf => true
  | Fin q => Qle_bool q 0
  end.

(** [Math.max(0, x)]. *)
Definition Math_max_0 (x : number) : number :=
  match x with
  | NaN => NaN
  | PInf => PInf
  | NInf => Fin 0
  | Fin q => if Qle_bool q 0 then Fin 0 else Fin q
  end.

(** Truncation towards zero of a finite value. *)
Definition Qtrunc (q : Q) : Z :=
  if Qle_bool 0 q then Qfloor q else Qceiling q.

(** [arr.slice(0, end)]: [end] is truncated to an integer, counted from the
    end of the array when negative, and clamped to the length. *)
Definition slice_0 {A : Type} (arr : list A) (fin : number) : list A :=
  match fin with
  | NaN => []
  | PInf => arr
  | NInf => []
  | Fin q =>
      let e := Qtrunc q in
      let len := Z.of_nat (length arr) in
      let final := if (e <? 0)%Z then Z.max (len + e) 0 else Z.min e len in
      firstn (Z.to_nat final) arr
  end.

(** [String(z)] for an integer [z]: its decimal numeral. *)
Definition String_of_Z (z : Z) : jsstring :=
  lit (NilZero.string_of_int (Z.to_int z)).

(** [s.padStart(2, "0")]. *)
Definition padStart2 (s : jsstring) : jsstring :=
  match s with
  | [] => lit "00"
  | [c] => [48%N; c]
  | _ => s
  end.

(** ** Dictionaries: the own properties of an object, in enumeration order *)

(** The ASCII text of a string; [None] when a code unit is above 255. *)
Fixpoint ascii_string (k : jsstring) : option string :=
  match k with
  | [] => Some EmptyString
  | c :: k' =>
      if (c <? 256)%N
      then option_map (String (ascii_of_N c)) (ascii_string k')
      else None
  end.

(** A key is an array index when it is the canonical numeral of an integer
    from 0 to 2^32 - 2; such keys are enumerated first, in ascending
    order. *)
Definition array_index (k : jsstring) : option N :=
  match ascii_string k with
  | Some s =>
      match NilZero.int_of_string s with
      | Some d =>
          let z := Z.of_int d in
          if ((0 <=? z)%Z && (z <? 4294967295)%Z && str_eqb (String_of_Z z) k)
          then Some (Z.to_N z)
          else None
      | None => None
      end
  | None => None
  end.

Definition dict (T : Type) : Type := list (jsstring * T).

Section Dict.
Variable T : Type.

Fixpoint dict_get (d : dict T) (k : jsstring) : option T :=
  match d with
  | [] => None
  | (k', v) :: d' => if str_eqb k k' then Some v else dict_get d' k
  end.

Definition dict_has (d : dict T) (k : jsstring) : bool :=
  match dict_get d k with Some _ => true | None => false end.

(** Assignment to an existing property keeps its place. *)
Fixpoint dict_replace (d : dict T) (k : jsstring) (v : T) : dict T :=
  match d with
  | [] => []
  | (k', v') :: d' =>
      if str_eqb k k' then (k', v) :: d' else (k', v') :: dict_replace d' k v
  end.

(** A new array-index key goes before the first key that is a greater
    index or no index at all. *)
Fixpoint dict_add_index (d : dict T) (n : N) (k : jsstring) (v : T)
  : dict T :=
  match d with
  | [] => [(k, v)]
  | (k', v') :: d' =>
      match array_index k' with
      | Some n' =>
          if (n' <? n)%N then (k', v') :: dict_add_index d' n k v
          else (k, v) :: d
      | None => (k, v) :: d
      end
  end.

(** [d[k] = v]. *)
Definition dict_set (d : dict T) (k : jsstring) (v : T) : dict T :=
  if dict_has d k then dict_replace d k v
  else match array_index k with
       | Some n => dict_add_index d n k v
       | None => d ++ [(k, v)]
       end.

Definition dict_keys (d : dict T) : list jsstring := map fst d.
Definition dict_values (d : dict T) : list T := map snd d.
End Dict.

(** ** JSON values *)

#[local] Unset Elimination Schemes.
Inductive json : Type :=
  | JNull
  | JBool (b : bool)
  | JNum (x : number)
  | JStr (s : jsstring)
  | JArr (items : list json)
  | JObj (members : list (jsstring * json)).
#[local] Set Elimination Schemes.

(** The object [JSON.parse] builds from the members of an object text: each
    member is assigned in turn, a repeated key overwriting in place. *)
Definition obj_entries (members : list (jsstring * json)) : dict json :=
  fold_left (fun d kv => dict_set d (fst kv) (snd kv)) members [].

Definition obj_get (members : list (jsstring * json)) (k : jsstring)
  : option json :=
  dict_get (obj_entries members) k.

(** The entries of an array: its elements under the numerals of their
    positions. *)
Fixpoint arr_entries_from (i : Z) (items : list json) : dict json :=
  match items with
  | [] => []
  | x :: rest => (String_of_Z i, x) :: arr_entries_from (i + 1) rest
  end.

(** [typeof v === "object"] for a truthy [v]: an object or an array. *)
Definition is_object (v : json) : bool :=
  match v with JArr _ | JObj _ => true | _ => false end.

Definition isArray (v : option json) : bool :=
  match v with Some (JArr _) => true | _ => false end.

(** [Object.entries(v)] for an object or an array. *)
Definition entries_of (v : json) : dict json :=
  match v with
  | JObj members => obj_entries members
  | JArr items => arr_entries_from 0 items
  | _ => []
  end.

(** [v.name] for one of the fixed property names the script reads (none of
    them an index or [length]): only an object has such a property. *)
Definition prop (v : json) (name : jsstring) : option json :=
  match v with
  | JObj members => obj_get members name
  | _ => None
  end.

(** [v[k]] for a key [k] taken from the data: an index key reads an element
    of an array.  The [length] of an array and the methods it inherits are
    left out: the one caller, [extractDocumentPanelContent], flattens a
    number or a function to the empty string, as it does a missing value. *)
Definition prop_at (v : json) (k : jsstring) : option json :=
  match v with
  | JObj members => obj_get members k
  | JArr items =>
      match array_index k with
      | Some n => nth_error items (N.to_nat n)
      | None => None
      end
  | _ => None
  end.

(** [typeof v === "string"], with the string. *)
Definition as_string (v : option json) : option jsstring :=
  match v with Some (JStr s) => Some s | _ => None end.

(** [typeof v === "string" && v.trim()], with the string. *)
Definition nonblank_string (v : option json) : option jsstring :=
  match v with
  | Some (JStr s) => if nonblank s then Some s else None
  | _ => None
  end.

(** ** RichTextFlattener *)

(** [entry.type === name]. *)
Definition type_is (entry : list (jsstring * json)) (name : jsstring) : bool :=
  match obj_get entry (lit "type") with
  | Some (JStr ty) => str_eqb ty name
  | _ => false
  end.

(** [f(members[name])] for the members of an object: [f] at the value of
    the last member called [name], the one [JSON.parse] keeps.  The members
    are scanned here, so that a recursive [f] is applied to a part of the
    object. *)
Fixpoint member_map {R : Type} (name : jsstring) (f : json -> R)
    (members : list (jsstring * json)) (found : option R) : option R :=
  match members with
  | [] => found
  | (k, v) :: rest =>
      member_map name f rest (if str_eqb k name then Some (f v) else found)
  end.

(** The strings a call on a member returned; none when the member is
    missing, as for a call on [undefined]. *)
Definition or_nil {B : Type} (x : option (list B)) : list B :=
  match x with Some l => l | None => [] end.

(** The inner [extract] of [extractStructuredNotes]: the strings the loop
    over a content array pushes; [sub] is [extract(entry.content)]. *)
Fixpoint extract (content : json) : list jsstring :=
  match content with
  | JArr items =>
      flat_map
        (fun item =>
           match item with
           | JObj entry =>
               let sub :=
                 or_nil (member_map (lit "content") extract entry None) in
               if type_is entry (lit "paragraph")
                  && isArray (obj_get entry (lit "content"))
               then [join (lit " ") sub]
               else
                 match type_is entry (lit "text"),
                       as_string (obj_get entry (lit "text")) with
                 | true, Some text => [text]
                 | _, _ =>
                     if isArray (obj_get entry (lit "content"))
                     then [join (lit " ") sub]
                     else []
                 end
           | _ => []
           end)
        items
  | _ => []
  end.

Definition extractStructuredNotes (notesData : json) : jsstring :=
  match notesData with
  | JObj notes =>
      match obj_get notes (lit "content") with
      | Some (JArr items) => trim (join (lit " ") (extract (JArr items)))
      | _ => []
      end
  | _ => []
  end.

(** The inner [walk] of [extractDocumentPanelContent]: the strings it
    appends to [textParts], in the order of the traversal. *)
Fixpoint walk (node : json) : list jsstring :=
  match node with
  | JArr items => flat_map walk items
  | JObj record =>
      match type_is record (lit "text"),
            nonblank_string (obj_get record (lit "text")) with
      | true, Some text => [trim text]
      | _, _ => []
      end
      ++ or_nil (member_map (lit "content") walk record None)
  | _ => []
  end.

(** [walk(undefined)] appends nothing. *)
Definition walk_opt (node : option json) : list jsstring :=
  match node with Some v => walk v | None => [] end.

(** The separator of document parts: two line feeds. *)
Definition blank_line : jsstring := [10%N; 10%N].

(** Insertion into a list sorted by [str_ltb]; [sort_keys] is the default
    [sort()] of an array of distinct strings. *)
Fixpoint insert_key (k : jsstring) (ks : list jsstring) : list jsstring :=
  match ks with
  | [] => [k]
  | k' :: ks' => if str_ltb k' k then k' :: insert_key k ks' else k :: ks
  end.

Definition sort_keys (ks : list jsstring) : list jsstring :=
  fold_right insert_key [] ks.

Definition extractDocumentPanelContent (panelData : option json) : jsstring :=
  match panelData with
  | Some (JArr panels) =>
      trim (join blank_line (flat_map walk panels))
  | Some (JObj panels) =>
      let textParts :=
        flat_map
          (fun panelId =>
             match obj_get panels panelId with
             | Some panel =>
                 if is_object panel then walk_opt (prop panel (lit "content"))
                 else []
             | None => []
             end)
          (sort_keys (dict_keys (obj_entries panels))) in
      trim (join blank_line textParts)
  | _ => []
  end.

(** ** What the host provides *)

Class Host : Type := {
  (** [String.prototype.toLowerCase]. *)
  toLowerCase : jsstring -> jsstring;
  (** The time value of [new Date(s)]; [None] when it is NaN. *)
  Date_parse : jsstring -> option Z;
  (** [Number(s)]. *)
  Number_of_string : jsstring -> number;
  (** [JSON.parse(s)]; [None] when it throws. *)
  JSON_parse : jsstring -> option json;
  existsSync : jsstring -> bool;
  (** [readFileSync(path, "utf8")]; [None] when it throws. *)
  readFileSync : jsstring -> option jsstring;
  homedir : jsstring;
  (** [join(a, b)] of [node:path]. *)
  path_join : jsstring -> jsstring -> jsstring
}.

(** [new Date()]: the [n]-th call of a run reads [clock n]. *)
Definition clock : Type := nat -> Z.

(** ** Data model *)

Module MeetingMetadata.
Record t : Type := Build {
  id : jsstring;
  title : jsstring;
  date : Z;
  duration : option number;
  participants : list jsstring;
  meetingType : option jsstring;
  platform : option jsstring
}.
End MeetingMetadata.

Module MeetingDocument.
Record t : Type := Build {
  id : jsstring;
  meetingId : jsstring;
  title : jsstring;
  content : jsstring;
  documentType : jsstring;
  createdAt : Z;
  tags : list jsstring
}.
End MeetingDocument.

Module MeetingTranscript.
Record t : Type := Build {
  meetingId : jsstring;
  content : jsstring;
  speakers : list jsstring;
  language : option jsstring;
  confidence : option number
}.
End MeetingTranscript.

Record CacheData : Type := {
  meetings : dict MeetingMetadata.t;
  documents : dict MeetingDocument.t;
  transcripts : dict MeetingTranscript.t;
  lastUpdated : option Z
}.

(** ** ModelBuilder *)

(** [value && typeof value === "object" ? value : {}]. *)
Definition record_or_empty (value : option json) : json :=
  match value with
  | Some v => if is_object v then v else JObj []
  | None => JObj []
  end.

(** [Set.prototype.add]: a set keeps the order of first insertion. *)
Definition set_add (s : list jsstring) (x : jsstring) : list jsstring :=
  if existsb (str_eqb x) s then s else s ++ [x].

Section ModelBuilder.
Context {host : Host}.

(** The name of one element of [people], [""] when it has none. *)
Definition person_name (person : json) : jsstring :=
  match as_string (prop person (lit "name")) with
  | Some name => name
  | None => []
  end.

Definition participants_of (meetingData : json) : list jsstring :=
  let people :=
    match prop meetingData (lit "people") with
    | Some (JArr l) => l
    | _ => []
    end in
  filter (fun name => (0 <? length (trim name))%nat) (map person_name people).

(** The date of a meeting: [created_at] when it parses, else the reading
    [now] of the clock. *)
Definition meeting_date (now : Z) (meetingData : json) : Z :=
  match nonblank_string (prop meetingData (lit "created_at")) with
  | Some created_at =>
      match Date_parse (replace_final_Z created_at) with
      | Some t => t
      | None => now
      end
  | None => now
  end.

Definition build_meeting (now : Z) (meetingId : jsstring) (meetingData : json)
  : MeetingMetadata.t :=
  {| MeetingMetadata.id := meetingId;
     MeetingMetadata.title :=
       match nonblank_string (prop meetingData (lit "title")) with
       | Some title => title
       | None => lit "Untitled Meeting"
       end;
     MeetingMetadata.date := meeting_date now meetingData;
     MeetingMetadata.duration := None;
     MeetingMetadata.participants := participants_of meetingData;
     MeetingMetadata.meetingType :=
       match as_string (prop meetingData (lit "type")) with
       | Some type => Some type
       | None => Some (lit "meeting")
       end;
     MeetingMetadata.platform := None |}.

(** One iteration of the first loop; the state is the [meetings] map and
    the number of clock readings so far. *)
Definition meetings_step (clk : clock)
    (st : dict MeetingMetadata.t * nat) (e : jsstring * json)
  : dict MeetingMetadata.t * nat :=
  let (meetingId, meetingRaw) := e in
  if is_object meetingRaw
  then (dict_set (fst st) meetingId
          (build_meeting (clk (snd st)) meetingId meetingRaw),
        S (snd st))
  else st.

(** The [contentParts] and [speakers] of an array-shaped transcript. *)
Definition segment_step (st : list jsstring * list jsstring) (segment : json)
  : list jsstring * list jsstring :=
  if is_object segment
  then
    let contentParts :=
      match nonblank_string (prop segment (lit "text")) with
      | Some text => fst st ++ [trim text]
      | None => fst st
      end in
    let speakers :=
      match nonblank_string (prop segment (lit "source")) with
      | Some source => set_add (snd st) (trim source)
      | None => snd st
      end in
    (contentParts, speakers)
  else st.

Definition speaker_step (speakers : list jsstring) (speaker : json)
  : list jsstring :=
  match nonblank_string (Some speaker) with
  | Some s => set_add speakers (trim s)
  | None => speakers
  end.

(** The [contentParts] and [speakers] collected from one raw transcript. *)
Definition transcript_parts (transcriptRaw : json)
  : list jsstring * list jsstring :=
  match transcriptRaw with
  | JArr segments => fold_left segment_step segments ([], [])
  | JObj _ =>
      let contentCandidate :=
        find (fun v => match nonblank_string v with
                       | Some _ => true
                       | None => false
                       end)
             (map (prop transcriptRaw)
                  [lit "content"; lit "text"; lit "transcript"]) in
      let contentParts :=
        match contentCandidate with
        | Some (Some (JStr s)) => [s]
        | _ => []
        end in
      let speakers :=
        match prop transcriptRaw (lit "speakers") with
        | Some (JArr l) => fold_left speaker_step l []
        | _ => []
        end in
      (contentParts, speakers)
  | _ => ([], [])
  end.

Definition transcripts_step (transcripts : dict MeetingTranscript.t)
    (e : jsstring * json) : dict MeetingTranscript.t :=
  let (transcriptId, transcriptRaw) := e in
  let (contentParts, speakers) := transcript_parts transcriptRaw in
  if (0 <? length contentParts)%nat
  then dict_set transcripts transcriptId
         {| MeetingTranscript.meetingId := transcriptId;
            MeetingTranscript.content := trim (join (lit " ") contentParts);
            MeetingTranscript.speakers := speakers;
            MeetingTranscript.language := None;
            MeetingTranscript.confidence := None |}
  else transcripts.

(** The notes chosen by the [if / else if] chain over [notes_plain],
    [notes_markdown] and [notes]. *)
Definition notes_parts (docData : json) : list jsstring :=
  match nonblank_string (prop docData (lit "notes_plain")) with
  | Some notes_plain => [notes_plain]
  | None =>
      match nonblank_string (prop docData (lit "notes_markdown")) with
      | Some notes_markdown => [notes_markdown]
      | None =>
          match prop docData (lit "notes") with
          | Some notes =>
              if is_object notes
              then let structured := extractStructuredNotes notes in
                   if truthy_str structured then [structured] else []
              else []
          | None => []
          end
      end
  end.

Definition panel_parts (parsePanels : bool) (documentPanels : json)
    (docId : jsstring) (contentParts : list jsstring) : list jsstring :=
  let hasContent :=
    existsb (fun item => (0 <? length (trim item))%nat) contentParts in
  if parsePanels && negb hasContent
  then let panelText :=
         extractDocumentPanelContent (prop_at documentPanels docId) in
       if truthy_str panelText then [panelText] else []
  else [].

(** [`${label}${docData[field]}`] when the field is a non-blank string. *)
Definition labelled_part (docData : json) (field : jsstring) (label : jsstring)
  : list jsstring :=
  match nonblank_string (prop docData field) with
  | Some s => [label ++ s]
  | None => []
  end.

(** The [contentParts] of a document when the loop reaches the test on
    [cacheData.meetings]. *)
Definition content_parts (parsePanels : bool) (documentPanels : json)
    (docId : jsstring) (docData : json) : list jsstring :=
  let notes := notes_parts docData in
  notes
  ++ panel_parts parsePanels documentPanels docId notes
  ++ labelled_part docData (lit "overview") (lit "Overview: ")
  ++ labelled_part docData (lit "summary") (lit "Summary: ").

Definition documents_step (parsePanels : bool) (documentPanels : json)
    (meetings : dict MeetingMetadata.t)
    (documents : dict MeetingDocument.t) (e : jsstring * json)
  : dict MeetingDocument.t :=
  let (docId, docRaw) := e in
  if is_object docRaw
  then
    let contentParts := content_parts parsePanels documentPanels docId docRaw in
    match dict_get meetings docId with
    | None => documents
    | Some meeting =>
        dict_set documents docId
          {| MeetingDocument.id := docId;
             MeetingDocument.meetingId := docId;
             MeetingDocument.title := MeetingMetadata.title meeting;
             MeetingDocument.content := trim (join blank_line contentParts);
             MeetingDocument.documentType := lit "meeting_notes";
             MeetingDocument.createdAt := MeetingMetadata.date meeting;
             MeetingDocument.tags := [] |}
    end
  else documents.

Definition parseCacheData (clk : clock) (rawData : json) (parsePanels : bool)
  : CacheData :=
  let rawDocuments := record_or_empty (prop rawData (lit "documents")) in
  let (meetings, reads) :=
    fold_left (meetings_step clk) (entries_of rawDocuments) ([], 0%nat) in
  let rawTranscripts := record_or_empty (prop rawData (lit "transcripts")) in
  let transcripts :=
    fold_left transcripts_step (entries_of rawTranscripts) [] in
  let documentPanels :=
    record_or_empty (prop rawData (lit "documentPanels")) in
  let documents :=
    fold_left (documents_step parsePanels documentPanels meetings)
      (entries_of rawDocuments) [] in
  {| meetings := meetings;
     documents := documents;
     transcripts := transcripts;
     lastUpdated := Some (clk reads) |}.
End ModelBuilder.

(** ** Calendar of the time values

    [getUTCFullYear] and [getUTCMonth] as ECMAScript defines them from the
    day number of a time value. *)

Section Calendar.
Local Open Scope Z_scope.

Definition msPerDay : Z := 86400000.

Definition Day (t : Z) : Z := t / msPerDay.

Definition DaysInYear (y : Z) : Z :=
  if (y mod 4 =? 0) && (negb (y mod 100 =? 0) || (y mod 400 =? 0))
  then 366 else 365.

(** The day number of the first day of year [y]. *)
Definition DayFromYear (y : Z) : Z :=
  365 * (y - 1970) + (y - 1969) / 4 - (y - 1901) / 100 + (y - 1601) / 400.

(** The year of [t]: the largest [y] whose first day is not after [t]. *)
Definition YearFromTime (t : Z) : Z :=
  let d := Day t in
  let y := 1970 + (400 * d) / 146097 in
  if DayFromYear (y + 1) <=? d then y + 1
  else if DayFromYear y <=? d then y
  else y - 1.

Definition InLeapYear (t : Z) : Z :=
  if DaysInYear (YearFromTime t) =? 366 then 1 else 0.

Definition DayWithinYear (t : Z) : Z := Day t - DayFromYear (YearFromTime t).

Definition MonthFromTime (t : Z) : Z :=
  let d := DayWithinYear t in
  let leap := InLeapYear t in
  if d <? 31 then 0
  else if d <? 59 + leap then 1
  else if d <? 90 + leap then 2
  else if d <? 120 + leap then 3
  else if d <? 151 + leap then 4
  else if d <? 181 + leap then 5
  else if d <? 212 + leap then 6
  else if d <? 243 + leap then 7
  else if d <? 273 + leap then 8
  else if d <? 304 + leap then 9
  else if d <? 334 + leap then 10
  else 11.

Definition getUTCFullYear (date : Z) : Z := YearFromTime date.
Definition getUTCMonth (date : Z) : Z := MonthFromTime date.
End Calendar.

(** ** [Array.prototype.sort] with a comparator

    The sort is stable; for a comparator that orders the elements the result
    is the one insertion sort gives: [x] stays before [y] unless
    [cmp x y > 0]. *)

Section ArraySort.
Variable A : Type.
Variable cmp : A -> A -> Z.

Fixpoint sort_insert (x : A) (l : list A) : list A :=
  match l with
  | [] => [x]
  | y :: l' => if (cmp x y <=? 0)%Z then x :: l else y :: sort_insert x l'
  end.

Definition Array_sort (l : list A) : list A := fold_right sort_insert [] l.
End ArraySort.

(** ** QueryEngine *)

Record scored : Type := {
  score : Z;
  meeting : MeetingMetadata.t
}.

Module ParticipantAnalysis.
Record t : Type := Build {
  meetingCount : Z;
  topParticipants : list (jsstring * Z)
}.
End ParticipantAnalysis.

Module FrequencyAnalysis.
Record t : Type := Build {
  meetingCount : Z;
  byMonth : dict Z;
  averagePerMonth : number
}.
End FrequencyAnalysis.

Module TopicAnalysis.
Record t : Type := Build {
  meetingCount : Z;
  topics : list (jsstring * Z)
}.
End TopicAnalysis.

Definition TOPIC_STOP_WORDS : list jsstring :=
  [lit "meeting"; lit "call"; lit "sync"; lit "with"].

(** [value || 0] for the count read from a dictionary. *)
Definition or_zero (value : option Z) : Z :=
  match value with Some c => c | None => 0%Z end.

(** [value || ""] for an optional string. *)
Definition or_empty (value : option jsstring) : jsstring :=
  match value with Some s => s | None => [] end.

(** [counts[key] = (counts[key] || 0) + 1]. *)
Definition count_up (counts : dict Z) (key : jsstring) : dict Z :=
  dict_set counts key (or_zero (dict_get counts key) + 1)%Z.

(** The comparator [(a, b) => b[1] - a[1]] of the count tables. *)
Definition by_count_desc (a b : jsstring * Z) : Z := (snd b - snd a)%Z.

(** [a / b] for two integers. *)
Definition num_div (a b : Z) : number :=
  if (b =? 0)%Z
  then (if (a =? 0)%Z then NaN else if (0 <? a)%Z then PInf else NInf)
  else Fin (inject_Z a / inject_Z b).

(** The characters [replace(/[^a-z0-9_-]/g, "")] keeps. *)
Definition topic_char (c : N) : bool :=
  (((97 <=? c) && (c <=? 122)) || ((48 <=? c) && (c <=? 57))
   || (c =? 95) || (c =? 45))%N.

Section QueryEngine.
Context {host : Host}.

Definition meeting_score (data : CacheData) (queryLower : jsstring)
    (meetingId : jsstring) (m : MeetingMetadata.t) : Z :=
  let score := 0%Z in
  let score :=
    if includes (toLowerCase (MeetingMetadata.title m)) queryLower
    then (score + 2)%Z else score in
  let score :=
    fold_left
      (fun score participant =>
         if includes (toLowerCase participant) queryLower
         then (score + 1)%Z else score)
      (MeetingMetadata.participants m) score in
  match dict_get (transcripts data) meetingId with
  | Some transcript =>
      if includes (toLowerCase (MeetingTranscript.content transcript))
           queryLower
      then (score + 1)%Z else score
  | None => score
  end.

Definition search_step (data : CacheData) (queryLower : jsstring)
    (acc : list scored) (e : jsstring * MeetingMetadata.t) : list scored :=
  let (meetingId, m) := e in
  let score := meeting_score data queryLower meetingId m in
  if (0 <? score)%Z then acc ++ [{| score := score; meeting := m |}]
  else acc.

Definition searchMeetings (data : CacheData) (query : jsstring)
    (limit : number) : list scored :=
  let queryLower := toLowerCase query in
  let scored := fold_left (search_step data queryLower) (meetings data) [] in
  let sorted := Array_sort (fun a b => (score b - score a)%Z) scored in
  slice_0 sorted (Math_max_0 limit).

Definition analyzeParticipantPatterns (ms : list MeetingMetadata.t)
  : ParticipantAnalysis.t :=
  let counts :=
    fold_left
      (fun counts m =>
         fold_left count_up (MeetingMetadata.participants m) counts)
      ms [] in
  {| ParticipantAnalysis.meetingCount := Z.of_nat (length ms);
     ParticipantAnalysis.topParticipants := Array_sort by_count_desc counts |}.

(** The key of a month: [`${y}-${m}`] with [m] padded to two digits. *)
Definition month_key (date : Z) : jsstring :=
  let y := getUTCFullYear date in
  let m := padStart2 (String_of_Z (getUTCMonth date + 1)) in
  String_of_Z y ++ lit "-" ++ m.

Definition analyzeFrequencyPatterns (ms : list MeetingMetadata.t)
  : FrequencyAnalysis.t :=
  let byMonth :=
    fold_left
      (fun byMonth m => count_up byMonth (month_key (MeetingMetadata.date m)))
      ms [] in
  let monthCount := Z.of_nat (length (dict_keys byMonth)) in
  {| FrequencyAnalysis.meetingCount := Z.of_nat (length ms);
     FrequencyAnalysis.byMonth := byMonth;
     FrequencyAnalysis.averagePerMonth :=
       if (0 <? monthCount)%Z
       then num_div (Z.of_nat (length ms)) monthCount
       else num_of_Z 0 |}.

(** One iteration of the loop over the words of a title. *)
Definition topic_step (counts : dict Z) (rawWord : jsstring) : dict Z :=
  let word := filter topic_char rawWord in
  if (length word <=? 3)%nat then counts
  else if existsb (str_eqb word) TOPIC_STOP_WORDS then counts
  else count_up counts word.

Definition analyzeTopicPatterns (ms : list MeetingMetadata.t)
  : TopicAnalysis.t :=
  let counts :=
    fold_left
      (fun counts m =>
         let words := split_ws (toLowerCase (MeetingMetadata.title m)) in
         fold_left topic_step words counts)
      ms [] in
  {| TopicAnalysis.meetingCount := Z.of_nat (length ms);
     TopicAnalysis.topics := Array_sort by_count_desc counts |}.
End QueryEngine.

(** ** Loading the cache and running a command *)

(** What a run throws: an [Error] of the script with its message, or an
    error raised inside the host. *)
Inductive thrown : Type :=
  | Error (message : jsstring)
  | SyntaxError
  | TypeError
  | IOError.

Inductive outcome (A : Type) : Type :=
  | Ok (a : A)
  | Throw (e : thrown).
Arguments Ok {A} a.
Arguments Throw {A} e.

(** What a lookup command reports: the payload, or the message printed when
    there is none. *)
Inductive reply (A : Type) : Type :=
  | Found (a : A)
  | Missing (message : jsstring).
Arguments Found {A} a.
Arguments Missing {A} message.

Module DetailsPayload.
Record t : Type := Build {
  id : jsstring;
  title : jsstring;
  date : Z;
  participants : list jsstring;
  meetingType : option jsstring;
  platform : option jsstring;
  duration : option number;
  documents : Z;
  transcriptAvailable : bool
}.
End DetailsPayload.

Module TranscriptPayload.
Record t : Type := Build {
  meetingId : jsstring;
  title : jsstring;
  speakers : list jsstring;
  language : option jsstring;
  confidence : option number;
  content : jsstring
}.
End TranscriptPayload.

Module DocumentsPayload.
Record t : Type := Build {
  meetingId : jsstring;
  title : jsstring;
  count : Z;
  documents : list MeetingDocument.t
}.
End DocumentsPayload.

Inductive analysis : Type :=
  | Participants (a : ParticipantAnalysis.t)
  | Frequency (a : FrequencyAnalysis.t)
  | Topics (a : TopicAnalysis.t).

(** The result a command hands to the printer. *)
Inductive output : Type :=
  | SearchResults (query : jsstring) (results : list scored)
  | MeetingDetails (r : reply DetailsPayload.t)
  | Transcript (r : reply TranscriptPayload.t)
  | Documents (r : reply DocumentsPayload.t)
  | Patterns (a : analysis)
  | Usage.

Definition DEFAULT_CACHE_PATH : jsstring :=
  lit "~/Library/Application Support/Granola/cache-v3.json".

Definition emptyCache (now : Z) : CacheData :=
  {| meetings := []; documents := []; transcripts := [];
     lastUpdated := Some now |}.

Section Commands.
Context {host : Host}.

Definition expandHome (pathValue : jsstring) : jsstring :=
  if str_eqb pathValue (lit "~") then homedir
  else if startsWith pathValue (lit "~/")
       then path_join homedir (skipn 2 pathValue)
       else pathValue.

(** [parseRangeDate]. *)
Definition parseRangeDate (value : jsstring) : outcome Z :=
  match Date_parse value with
  | Some t => Ok t
  | None => Throw (Error (lit "Invalid date value: " ++ value))
  end.

Definition loadCache (clk : clock) (cachePathInput : jsstring)
    (parsePanels : bool) : outcome CacheData :=
  let cachePath := expandHome cachePathInput in
  if negb (existsSync cachePath) then Ok (emptyCache (clk 0%nat))
  else
    match readFileSync cachePath with
    | None => Throw IOError
    | Some rawFile =>
        match JSON_parse rawFile with
        | None => Throw SyntaxError
        | Some JNull => Throw TypeError
        | Some rawData =>
            match prop rawData (lit "cache") with
            | Some (JStr cache) =>
                match JSON_parse cache with
                | None => Throw SyntaxError
                | Some JNull => Throw TypeError
                | Some nested =>
                    let state := prop nested (lit "state") in
                    Ok (parseCacheData clk
                          (match state with
                           | Some st => if is_object st then st else nested
                           | None => nested
                           end)
                          parsePanels)
                end
            | _ => Ok (parseCacheData clk rawData parsePanels)
            end
        end
    end.

Definition parseDateRange (startDateRaw endDateRaw : option jsstring)
  : outcome (option (Z * Z)) :=
  if negb (truthy_str (or_empty startDateRaw))
     && negb (truthy_str (or_empty endDateRaw))
  then Ok None
  else
    match parseRangeDate
            (if truthy_str (or_empty startDateRaw)
             then or_empty startDateRaw else lit "1900-01-01") with
    | Throw e => Throw e
    | Ok start =>
        match parseRangeDate
                (if truthy_str (or_empty endDateRaw)
                 then or_empty endDateRaw else lit "2100-01-01") with
        | Throw e => Throw e
        | Ok fin => Ok (Some (start, fin))
        end
    end.

(** The [search-meetings] command once [query] and [limit] are read. *)
Definition search_checked (data : CacheData) (query : jsstring)
    (limit : number) : outcome output :=
  if negb (truthy_str query) then Throw (Error (lit "--query is required"))
  else if isNaN limit || le_zero limit
       then Throw (Error (lit "--limit must be a positive number"))
       else Ok (SearchResults query (searchMeetings data query limit)).

(** [argsMap.limit ? Number(argsMap.limit) : 10]. *)
Definition limit_arg (argsMap : dict jsstring) : number :=
  if truthy_str (or_empty (dict_get argsMap (lit "limit")))
  then Number_of_string (or_empty (dict_get argsMap (lit "limit")))
  else num_of_Z 10.

Definition search_command (data : CacheData) (argsMap : dict jsstring)
  : outcome output :=
  let query := or_empty (dict_get argsMap (lit "query")) in
  let limit := limit_arg argsMap in
  search_checked data query limit.

Definition quoted (before : jsstring) (meetingId : jsstring)
    (after : jsstring) : jsstring :=
  before ++ lit "'" ++ meetingId ++ lit "'" ++ after.

Definition documents_of (data : CacheData) (meetingId : jsstring)
  : list MeetingDocument.t :=
  filter (fun doc => str_eqb (MeetingDocument.meetingId doc) meetingId)
    (dict_values (documents data)).

Definition details_command (data : CacheData) (argsMap : dict jsstring)
  : outcome output :=
  let meetingId := or_empty (dict_get argsMap (lit "meeting-id")) in
  if negb (truthy_str meetingId)
  then Throw (Error (lit "--meeting-id is required"))
  else
    match dict_get (meetings data) meetingId with
    | None =>
        Ok (MeetingDetails
              (Missing (quoted (lit "Meeting ") meetingId (lit " not found"))))
    | Some m =>
        let docCount := Z.of_nat (length (documents_of data meetingId)) in
        Ok (MeetingDetails (Found
          {| DetailsPayload.id := MeetingMetadata.id m;
             DetailsPayload.title := MeetingMetadata.title m;
             DetailsPayload.date := MeetingMetadata.date m;
             DetailsPayload.participants := MeetingMetadata.participants m;
             DetailsPayload.meetingType := MeetingMetadata.meetingType m;
             DetailsPayload.platform := MeetingMetadata.platform m;
             DetailsPayload.duration := MeetingMetadata.duration m;
             DetailsPayload.documents := docCount;
             DetailsPayload.transcriptAvailable :=
               dict_has (transcripts data) meetingId |}))
    end.

(** [data.meetings[meetingId]?.title || meetingId]. *)
Definition title_or_id (data : CacheData) (meetingId : jsstring) : jsstring :=
  match dict_get (meetings data) meetingId with
  | Some m =>
      if truthy_str (MeetingMetadata.title m) then MeetingMetadata.title m
      else meetingId
  | None => meetingId
  end.

Definition transcript_command (data : CacheData) (argsMap : dict jsstring)
  : outcome output :=
  let meetingId := or_empty (dict_get argsMap (lit "meeting-id")) in
  if negb (truthy_str meetingId)
  then Throw (Error (lit "--meeting-id is required"))
  else
    match dict_get (transcripts data) meetingId with
    | None =>
        Ok (Transcript
              (Missing (quoted (lit "No transcript available for meeting ")
                          meetingId [])))
    | Some transcript =>
        Ok (Transcript (Found
          {| TranscriptPayload.meetingId := meetingId;
             TranscriptPayload.title := title_or_id data meetingId;
             TranscriptPayload.speakers :=
               MeetingTranscript.speakers transcript;
             TranscriptPayload.language :=
               MeetingTranscript.language transcript;
             TranscriptPayload.confidence :=
               MeetingTranscript.confidence transcript;
             TranscriptPayload.content :=
               MeetingTranscript.content transcript |}))
    end.

Definition documents_command (data : CacheData) (argsMap : dict jsstring)
  : outcome output :=
  let meetingId := or_empty (dict_get argsMap (lit "meeting-id")) in
  if negb (truthy_str meetingId)
  then Throw (Error (lit "--meeting-id is required"))
  else
    let docs := documents_of data meetingId in
    match docs with
    | [] =>
        Ok (Documents
              (Missing (quoted (lit "No documents found for meeting ")
                          meetingId [])))
    | _ :: _ =>
        Ok (Documents (Found
          {| DocumentsPayload.meetingId := meetingId;
             DocumentsPayload.title := title_or_id data meetingId;
             DocumentsPayload.count := Z.of_nat (length docs);
             DocumentsPayload.documents := docs |}))
    end.

Definition in_range (range : option (Z * Z)) (m : MeetingMetadata.t) : bool :=
  match range with
  | None => true
  | Some (start, fin) =>
      ((start <=? MeetingMetadata.date m) && (MeetingMetadata.date m <=? fin))%Z
  end.

Definition patterns_command (data : CacheData) (argsMap : dict jsstring)
  : outcome output :=
  let patternTypeRaw := or_empty (dict_get argsMap (lit "pattern-type")) in
  if negb (truthy_str patternTypeRaw)
  then Throw (Error (lit "--pattern-type is required"))
  else if negb (existsb (str_eqb patternTypeRaw)
                  [lit "participants"; lit "frequency"; lit "topics"])
  then Throw (Error
         (lit "--pattern-type must be one of: topics, participants, frequency"))
  else
    match parseDateRange (dict_get argsMap (lit "start-date"))
            (dict_get argsMap (lit "end-date")) with
    | Throw e => Throw e
    | Ok range =>
        let ms := filter (in_range range) (dict_values (meetings data)) in
        if str_eqb patternTypeRaw (lit "participants")
        then Ok (Patterns (Participants (analyzeParticipantPatterns ms)))
        else if str_eqb patternTypeRaw (lit "frequency")
        then Ok (Patterns (Frequency (analyzeFrequencyPatterns ms)))
        else Ok (Patterns (Topics (analyzeTopicPatterns ms)))
    end.

(** The command chosen by its name. *)
Definition dispatch (command : jsstring) (data : CacheData)
    (argsMap : dict jsstring) : outcome output :=
  if str_eqb command (lit "search-meetings")
  then search_command data argsMap
  else if str_eqb command (lit "get-meeting-details")
  then details_command data argsMap
  else if str_eqb command (lit "get-meeting-transcript")
  then transcript_command data argsMap
  else if str_eqb command (lit "get-meeting-documents")
  then documents_command data argsMap
  else if str_eqb command (lit "analyze-meeting-patterns")
  then patterns_command data argsMap
  else Ok Usage.

(** The path of the cache: [argsMap["cache-path"] || DEFAULT_CACHE_PATH]. *)
Definition cache_path (argsMap : dict jsstring) : jsstring :=
  if truthy_str (or_empty (dict_get argsMap (lit "cache-path")))
  then or_empty (dict_get argsMap (lit "cache-path"))
  else DEFAULT_CACHE_PATH.

(** [main] from the point where the flags are taken and [argsMap] is
    built: the cache is loaded, then the command runs. *)
Definition run_command (clk : clock) (command : jsstring)
    (parsePanels : bool) (argsMap : dict jsstring) : outcome output :=
  match loadCache clk (cache_path argsMap) parsePanels with
  | Throw e => Throw e
  | Ok data => dispatch command data argsMap
  end.
End Commands.

(** ** The entry point *)

(** How a run ends: [usage] exits with its code, an uncaught error is
    reported and the exit code is 1, or the command hands its result to the
    printer, as JSON or as text with dates in [timezone]. *)
Inductive run : Type :=
  | ShowUsage (exitCode : Z)
  | Uncaught (e : thrown)
  | Printed (jsonOutput : bool) (timezone : option jsstring) (o : output).

(** [takeFlag]: the first occurrence of [flag] is spliced out of [argv]. *)
Fixpoint takeFlag (flag : jsstring) (argv : list jsstring)
  : bool * list jsstring :=
  match argv with
  | [] => (false, [])
  | a :: rest =>
      if str_eqb a flag then (true, rest)
      else let (found, rest') := takeFlag flag rest in (found, a :: rest')
  end.

(** The loop that fills [argsMap]: two arguments at a time, an option and
    its value. *)
Fixpoint args_loop (argv : list jsstring) (argsMap : dict jsstring)
  : outcome (dict jsstring) :=
  match argv with
  | [] => Ok argsMap
  | a :: rest =>
      if negb (startsWith a (lit "--"))
      then Throw (Error (lit "Unexpected argument: " ++ a))
      else
        match rest with
        | [] => Throw (Error (lit "Missing value for " ++ a))
        | v :: rest' =>
            if negb (truthy_str v) || startsWith v (lit "--")
            then Throw (Error (lit "Missing value for " ++ a))
            else args_loop rest' (dict_set argsMap (skipn 2 a) v)
        end
  end.

(** [s.replaceAll("_", "-")]. *)
Definition hyphenate (s : jsstring) : jsstring :=
  map (fun c => if (c =? 95)%N then 45%N else c) s.

Section EntryPoint.
Context {host : Host}.

Definition normalizeCommand (input : jsstring) : jsstring :=
  hyphenate (toLowerCase (trim input)).

(** [main], for the arguments [process.argv.slice(2)]. *)
Definition main (clk : clock) (args : list jsstring) : run :=
  match args with
  | [] => ShowUsage 0
  | first :: argv =>
      if existsb (str_eqb (lit "-h")) args
         || existsb (str_eqb (lit "--help")) args
      then ShowUsage 0
      else
        let command := normalizeCommand first in
        let (jsonOutput, argv) := takeFlag (lit "--json") argv in
        let (noPanels, argv) := takeFlag (lit "--no-panels") argv in
        let parsePanels := negb noPanels in
        match args_loop argv [] with
        | Throw e => Uncaught e
        | Ok argsMap =>
            let timezone :=
              match dict_get argsMap (lit "timezone") with
              | Some tz => if truthy_str tz then Some tz else None
              | None => None
              end in
            match run_command clk command parsePanels argsMap with
            | Throw e => Uncaught e
            | Ok Usage => ShowUsage 2
            | Ok o => Printed jsonOutput timezone o
            end
        end
  end.
End EntryPoint.

(** ** Printing the result

    What the host provides for printing: the formatting of dates by [Intl],
    of numbers, the collation of strings, and [JSON.stringify]. *)

Class Printer : Type := {
  (** [Intl.DateTimeFormat().resolvedOptions().timeZone]. *)
  resolvedTimeZone : jsstring;
  (** The parts, each with its type and its value, that
      [new Intl.DateTimeFormat("en-CA", options).formatToParts(date)] gives
      for the options of [formatLocalTime] with the time zone [tz];
      [None] when [Intl] rejects the time zone with a [RangeError]. *)
  formatToParts : jsstring -> Z -> option (list (jsstring * jsstring));
  (** [date.toISOString()]. *)
  toISOString : Z -> jsstring;
  (** [String(x)], as a template prints a number. *)
  String_of_number : number -> jsstring;
  (** [x.toFixed(digits)]. *)
  toFixed : number -> Z -> jsstring;
  (** [a.localeCompare(b)]. *)
  localeCompare : jsstring -> jsstring -> Z;
  (** [JSON.stringify(value)]. *)
  JSON_stringify : json -> jsstring
}.

(** How the printing ended: it returned, or [Intl] threw. *)
Inductive print_end : Type :=
  | Returned
  | RangeError.

(** What a piece of the printing passes to [process.stdout.write], call
    after call, and how it ended. *)
Definition written : Type := jsstring * print_end.

Definition write (s : jsstring) : written := (s, Returned).

Definition nothing : written := ([], Returned).

(** One piece after another: the second runs when the first returned. *)
Definition and_then (w next : written) : written :=
  match snd w with
  | Returned => (fst w ++ fst next, snd next)
  | RangeError => w
  end.

Notation "w ;; next" := (and_then w next)
  (at level 61, left associativity).

(** [for (const x of l) f(x)]. *)
Fixpoint for_each {A : Type} (f : A -> written) (l : list A) : written :=
  match l with
  | [] => nothing
  | x :: l' => f x ;; for_each f l'
  end.

(** [if (b) w]. *)
Definition when (b : bool) (w : written) : written :=
  if b then w else nothing.

(** A line feed, and the text of a template followed by one. *)
Definition nl : jsstring := [10%N].

Definition line (s : jsstring) : written := write (s ++ nl).

(** The members of an object literal passed to [JSON.stringify]: a member
    whose value is [undefined] is left out. *)
Definition member {A : Type} (name : jsstring) (to_json : A -> json)
    (value : option A) : list (jsstring * json) :=
  match value with
  | Some a => [(name, to_json a)]
  | None => []
  end.

Definition JInt (z : Z) : json := JNum (num_of_Z z).

Definition JStrings (l : list jsstring) : json := JArr (map JStr l).

(** Truthiness of a number: neither 0 nor NaN. *)
Definition truthy_num (x : number) : bool :=
  match x with
  | NaN => false
  | Fin q => negb (Qeq_bool q 0)
  | _ => true
  end.

(** [x * 100], the product kept exact. *)
Definition times_100 (x : number) : number :=
  match x with
  | Fin q => Fin (q * 100)
  | _ => x
  end.

Section Printing.
Context {printer : Printer}.

(** [formatLocalTime]; [None] when [Intl] throws. *)
Definition formatLocalTime (date : Z) (timezone : option jsstring)
  : option jsstring :=
  let tz :=
    if truthy_str (or_empty timezone) then or_empty timezone
    else if truthy_str resolvedTimeZone then resolvedTimeZone
         else lit "America/New_York" in
  match formatToParts tz date with
  | None => None
  | Some parts =>
      let byType :=
        fold_left (fun byType part => dict_set byType (fst part) (snd part))
          parts [] in
      let field name :=
        match dict_get byType name with
        | Some value => value
        | None => lit "undefined"
        end in
      Some (field (lit "year") ++ lit "-" ++ field (lit "month") ++ lit "-"
            ++ field (lit "day") ++ lit " " ++ field (lit "hour") ++ lit ":"
            ++ field (lit "minute"))
  end.

(** A line that shows a date: [label] and the formatted date. *)
Definition date_line (label : jsstring) (date : Z)
    (timezone : option jsstring) : written :=
  match formatLocalTime date timezone with
  | Some text => line (label ++ text)
  | None => ([], RangeError)
  end.

Definition print_json (value : json) : written :=
  write (JSON_stringify value).

(** The message of a lookup that found nothing. *)
Definition print_missing (jsonOutput : bool) (msg : jsstring) : written :=
  if jsonOutput then print_json (JObj [(lit "error", JStr msg)])
  else line msg.

Definition search_result_json (r : scored) : json :=
  JObj [(lit "score", JInt (score r));
        (lit "id", JStr (MeetingMetadata.id (meeting r)));
        (lit "title", JStr (MeetingMetadata.title (meeting r)));
        (lit "date", JStr (toISOString (MeetingMetadata.date (meeting r))));
        (lit "participants",
         JStrings (MeetingMetadata.participants (meeting r)))].

Definition print_search (jsonOutput : bool) (timezone : option jsstring)
    (query : jsstring) (results : list scored) : written :=
  if jsonOutput
  then print_json
         (JObj [(lit "query", JStr query);
                (lit "count", JInt (Z.of_nat (length results)));
                (lit "results", JArr (map search_result_json results))])
  else
    match results with
    | [] => line (lit "No meetings found matching '" ++ query ++ lit "'")
    | _ :: _ =>
        line (lit "Found " ++ String_of_Z (Z.of_nat (length results))
              ++ lit " meeting(s) matching '" ++ query ++ lit "':" ++ nl)
        ;; for_each
             (fun r =>
                let m := meeting r in
                line (lit "- " ++ MeetingMetadata.title m ++ lit " ("
                      ++ MeetingMetadata.id m ++ lit ")")
                ;; date_line (lit "  Date: ") (MeetingMetadata.date m) timezone
                ;; when (0 <? length (MeetingMetadata.participants m))%nat
                     (line (lit "  Participants: "
                            ++ join (lit ", ") (MeetingMetadata.participants m)))
                ;; write nl)
             results
    end.

Definition details_json (p : DetailsPayload.t) : json :=
  JObj ([(lit "id", JStr (DetailsPayload.id p));
         (lit "title", JStr (DetailsPayload.title p));
         (lit "date", JStr (toISOString (DetailsPayload.date p)));
         (lit "participants", JStrings (DetailsPayload.participants p))]
        ++ member (lit "meetingType") JStr (DetailsPayload.meetingType p)
        ++ member (lit "platform") JStr (DetailsPayload.platform p)
        ++ member (lit "duration") JNum (DetailsPayload.duration p)
        ++ [(lit "documents", JInt (DetailsPayload.documents p));
            (lit "transcriptAvailable",
             JBool (DetailsPayload.transcriptAvailable p))]).

Definition print_details (jsonOutput : bool) (timezone : option jsstring)
    (p : DetailsPayload.t) : written :=
  if jsonOutput then print_json (details_json p)
  else
    line (lit "# Meeting Details: " ++ DetailsPayload.title p ++ nl)
    ;; line (lit "ID: " ++ DetailsPayload.id p)
    ;; date_line (lit "Date: ") (DetailsPayload.date p) timezone
    ;; match DetailsPayload.duration p with
       | Some duration =>
           when (truthy_num duration)
             (line (lit "Duration: " ++ String_of_number duration
                    ++ lit " minutes"))
       | None => nothing
       end
    ;; when (0 <? length (DetailsPayload.participants p))%nat
         (line (lit "Participants: "
                ++ join (lit ", ") (DetailsPayload.participants p)))
    ;; when (truthy_str (or_empty (DetailsPayload.meetingType p)))
         (line (lit "Type: " ++ or_empty (DetailsPayload.meetingType p)))
    ;; when (truthy_str (or_empty (DetailsPayload.platform p)))
         (line (lit "Platform: " ++ or_empty (DetailsPayload.platform p)))
    ;; when (0 <? DetailsPayload.documents p)%Z
         (line (lit "Documents: " ++ String_of_Z (DetailsPayload.documents p)))
    ;; when (DetailsPayload.transcriptAvailable p)
         (line (lit "Transcript: Available")).

Definition transcript_json (p : TranscriptPayload.t) : json :=
  JObj ([(lit "meetingId", JStr (TranscriptPayload.meetingId p));
         (lit "title", JStr (TranscriptPayload.title p));
         (lit "speakers", JStrings (TranscriptPayload.speakers p))]
        ++ member (lit "language") JStr (TranscriptPayload.language p)
        ++ member (lit "confidence") JNum (TranscriptPayload.confidence p)
        ++ [(lit "content", JStr (TranscriptPayload.content p))]).

Definition print_transcript (jsonOutput : bool) (p : TranscriptPayload.t)
  : written :=
  if jsonOutput then print_json (transcript_json p)
  else
    line (lit "# Transcript: " ++ TranscriptPayload.title p ++ nl)
    ;; when (0 <? length (TranscriptPayload.speakers p))%nat
         (line (lit "Speakers: "
                ++ join (lit ", ") (TranscriptPayload.speakers p)))
    ;; when (truthy_str (or_empty (TranscriptPayload.language p)))
         (line (lit "Language: " ++ or_empty (TranscriptPayload.language p)))
    ;; match TranscriptPayload.confidence p with
       | Some confidence =>
           line (lit "Confidence: " ++ toFixed (times_100 confidence) 2
                 ++ lit "%")
       | None => nothing
       end
    ;; line (nl ++ lit "## Transcript Content" ++ nl)
    ;; line (TranscriptPayload.content p).

Definition document_json (doc : MeetingDocument.t) : json :=
  JObj [(lit "id", JStr (MeetingDocument.id doc));
        (lit "meetingId", JStr (MeetingDocument.meetingId doc));
        (lit "title", JStr (MeetingDocument.title doc));
        (lit "type", JStr (MeetingDocument.documentType doc));
        (lit "createdAt", JStr (toISOString (MeetingDocument.createdAt doc)));
        (lit "tags", JStrings (MeetingDocument.tags doc));
        (lit "content", JStr (MeetingDocument.content doc))].

Definition print_documents (jsonOutput : bool) (timezone : option jsstring)
    (p : DocumentsPayload.t) : written :=
  if jsonOutput
  then print_json
         (JObj [(lit "meetingId", JStr (DocumentsPayload.meetingId p));
                (lit "title", JStr (DocumentsPayload.title p));
                (lit "count", JInt (DocumentsPayload.count p));
                (lit "documents",
                 JArr (map document_json (DocumentsPayload.documents p)))])
  else
    line (lit "# Documents: " ++ DocumentsPayload.title p ++ nl)
    ;; line (lit "Found " ++ String_of_Z (DocumentsPayload.count p)
             ++ lit " document(s):" ++ nl)
    ;; for_each
         (fun doc =>
            line (lit "## " ++ MeetingDocument.title doc)
            ;; line (lit "Type: " ++ MeetingDocument.documentType doc)
            ;; date_line (lit "Created: ") (MeetingDocument.createdAt doc)
                 timezone
            ;; when (0 <? length (MeetingDocument.tags doc))%nat
                 (line (lit "Tags: "
                        ++ join (lit ", ") (MeetingDocument.tags doc)))
            ;; line (nl ++ MeetingDocument.content doc ++ nl ++ nl
                     ++ lit "---" ++ nl))
         (DocumentsPayload.documents p).

(** An entry of a table of counts, in JSON and in text. *)
Definition count_json (label : jsstring) (entry : jsstring * Z) : json :=
  JObj [(label, JStr (fst entry)); (lit "count", JInt (snd entry))].

Definition count_line (unit : jsstring) (entry : jsstring * Z) : written :=
  line (lit "- " ++ fst entry ++ lit ": " ++ String_of_Z (snd entry) ++ unit).

Definition print_participants (jsonOutput : bool) (a : ParticipantAnalysis.t)
  : written :=
  if jsonOutput
  then print_json
         (JObj [(lit "meetingCount", JInt (ParticipantAnalysis.meetingCount a));
                (lit "topParticipants",
                 JArr (map (count_json (lit "name"))
                         (ParticipantAnalysis.topParticipants a)))])
  else
    match ParticipantAnalysis.topParticipants a with
    | [] => line (lit "No participant data found")
    | _ :: _ =>
        line (lit "# Participant Analysis ("
              ++ String_of_Z (ParticipantAnalysis.meetingCount a)
              ++ lit " meetings)" ++ nl)
        ;; line (lit "## Most Active Participants" ++ nl)
        ;; for_each (count_line (lit " meetings"))
             (slice_0 (ParticipantAnalysis.topParticipants a) (num_of_Z 10))
    end.

Definition print_frequency (jsonOutput : bool) (a : FrequencyAnalysis.t)
  : written :=
  if jsonOutput
  then print_json
         (JObj [(lit "meetingCount", JInt (FrequencyAnalysis.meetingCount a));
                (lit "byMonth",
                 JObj (map (fun e => (fst e, JInt (snd e)))
                         (FrequencyAnalysis.byMonth a)));
                (lit "averagePerMonth",
                 JNum (FrequencyAnalysis.averagePerMonth a))])
  else if (FrequencyAnalysis.meetingCount a =? 0)%Z
  then line (lit "No meetings found for analysis")
  else
    line (lit "# Meeting Frequency Analysis ("
          ++ String_of_Z (FrequencyAnalysis.meetingCount a)
          ++ lit " meetings)" ++ nl)
    ;; line (lit "## Meetings by Month" ++ nl)
    ;; for_each (count_line (lit " meetings"))
         (Array_sort (fun a b => localeCompare (fst a) (fst b))
            (FrequencyAnalysis.byMonth a))
    ;; line (nl ++ lit "Average per month: "
             ++ toFixed (FrequencyAnalysis.averagePerMonth a) 1).

Definition print_topics (jsonOutput : bool) (a : TopicAnalysis.t) : written :=
  if jsonOutput
  then print_json
         (JObj [(lit "meetingCount", JInt (TopicAnalysis.meetingCount a));
                (lit "topics",
                 JArr (map (count_json (lit "topic"))
                         (TopicAnalysis.topics a)))])
  else
    match TopicAnalysis.topics a with
    | [] => line (lit "No significant topics found in meeting titles")
    | _ :: _ =>
        line (lit "# Topic Analysis ("
              ++ String_of_Z (TopicAnalysis.meetingCount a)
              ++ lit " meetings)" ++ nl)
        ;; line (lit "## Most Common Topics (from titles)" ++ nl)
        ;; for_each (count_line (lit " mentions"))
             (slice_0 (TopicAnalysis.topics a) (num_of_Z 15))
    end.

(** What [main] writes to the standard output for the result of a
    command. *)
Definition print_result (jsonOutput : bool) (timezone : option jsstring)
    (o : output) : written :=
  match o with
  | SearchResults query results =>
      print_search jsonOutput timezone query results
  | MeetingDetails (Found p) => print_details jsonOutput timezone p
  | MeetingDetails (Missing msg) => print_missing jsonOutput msg
  | Transcript (Found p) => print_transcript jsonOutput p
  | Transcript (Missing msg) => print_missing jsonOutput msg
  | Documents (Found p) => print_documents jsonOutput timezone p
  | Documents (Missing msg) => print_missing jsonOutput msg
  | Patterns (Participants a) => print_participants jsonOutput a
  | Patterns (Frequency a) => print_frequency jsonOutput a
  | Patterns (Topics a) => print_topics jsonOutput a
  | Usage => nothing
  end.

(** The standard output of a run and its exit code: [usage] and an uncaught
    error write to the standard error only. *)
Definition stdout_and_exit_code (r : run) : jsstring * Z :=
  match r with
  | ShowUsage exitCode => ([], exitCode)
  | Uncaught _ => ([], 1%Z)
  | Printed jsonOutput timezone o =>
      let (text, how) := print_result jsonOutput timezone o in
      (text, match how with Returned => 0%Z | RangeError => 1%Z end)
  end.
End Printing.

(** ** A host for closed examples

    Case mapping of the ASCII letters, dates written [YYYY-MM-DD] or
    [YYYY-MM-DDTHH:MM:SS+00:00], numbers written as decimal integers, and a
    file system with no file. *)

Definition ascii_lower (c : N) : N :=
  if ((65 <=? c) && (c <=? 90))%N then (c + 32)%N else c.

Fixpoint digits_value (acc : Z) (s : jsstring) : option Z :=
  match s with
  | [] => Some acc
  | c :: s' =>
      if ((48 <=? c) && (c <=? 57))%N
      then digits_value (10 * acc + Z.of_N (c - 48))%Z s'
      else None
  end.

Definition days_before_month (y m : Z) : Z :=
  let leap := if (DaysInYear y =? 366)%Z then 1%Z else 0%Z in
  (nth (Z.to_nat (m - 1))
     [0; 31; 59 + leap; 90 + leap; 120 + leap; 151 + leap; 181 + leap;
      212 + leap; 243 + leap; 273 + leap; 304 + leap; 334 + leap] 0)%Z.

Definition iso_day (y m d : jsstring) : option Z :=
  match digits_value 0 y, digits_value 0 m, digits_value 0 d with
  | Some y, Some m, Some d =>
      if ((1 <=? m) && (m <=? 12) && (1 <=? d) && (d <=? 31))%Z
      then Some (DayFromYear y + days_before_month y m + d - 1)%Z
      else None
  | _, _, _ => None
  end.

Definition iso_time (h m s : jsstring) : option Z :=
  match digits_value 0 h, digits_value 0 m, digits_value 0 s with
  | Some h, Some m, Some s =>
      if ((h <? 24) && (m <? 60) && (s <? 60))%Z
      then Some ((h * 3600 + m * 60 + s) * 1000)%Z
      else None
  | _, _, _ => None
  end.

Definition iso_date_parse (s : jsstring) : option Z :=
  match s with
  | y1 :: y2 :: y3 :: y4 :: 45%N :: m1 :: m2 :: 45%N :: d1 :: d2 :: rest =>
      match iso_day [y1; y2; y3; y4] [m1; m2] [d1; d2], rest with
      | Some day, [] => Some (day * msPerDay)%Z
      | Some day,
        [84%N; h1; h2; 58%N; mi1; mi2; 58%N; s1; s2;
         43%N; 48%N; 48%N; 58%N; 48%N; 48%N] =>
          match iso_time [h1; h2] [mi1; mi2] [s1; s2] with
          | Some ms => Some (day * msPerDay + ms)%Z
          | None => None
          end
      | _, _ => None
      end
  | _ => None
  end.

Definition decimal_number (s : jsstring) : number :=
  match s with
  | [] => Fin 0
  | 45%N :: ((_ :: _) as s') =>
      match digits_value 0 s' with
      | Some z => Fin (inject_Z (- z))
      | None => NaN
      end
  | _ =>
      match digits_value 0 s with
      | Some z => Fin (inject_Z z)
      | None => NaN
      end
  end.

Definition sample_host : Host :=
  {| toLowerCase := map ascii_lower;
     Date_parse := iso_date_parse;
     Number_of_string := decimal_number;
     JSON_parse := fun _ => None;
     existsSync := fun _ => false;
     readFileSync := fun _ => None;
     homedir := lit "/home/user";
     path_join := fun a b => a ++ lit "/" ++ b |}.

(** The raw record of the scenario of the specification, with a transcript
    and a second meeting, and a clock that stands still. *)
Definition sample_record : json :=
  JObj [(lit "title", JStr (lit "Q1 Planning"));
        (lit "created_at", JStr (lit "2024-01-15T10:00:00Z"));
        (lit "people",
         JArr [JObj [(lit "name", JStr (lit "Ada"))];
               JObj [(lit "name", JStr (lit "Bo"))]]);
        (lit "notes_plain", JStr (lit "Discussed roadmap."));
        (lit "notes_markdown", JStr (lit "# Roadmap"))].

Definition sample_rawData : json :=
  JObj [(lit "documents",
         JObj [(lit "m1", sample_record);
               (lit "m2", JObj [(lit "title", JStr (lit "Ada and Bo 1:1"))])]);
        (lit "transcripts",
         JObj [(lit "m1",
                JArr [JObj [(lit "text", JStr (lit " We plan Q1. "));
                            (lit "source", JStr (lit "microphone"))]])])].

Definition still_clock (now : Z) : clock := fun _ => now.

(** The same host with a file at every path, whose text parses to
    [rawData]. *)
Definition host_with_cache (rawData : json) : Host :=
  {| toLowerCase := map ascii_lower;
     Date_parse := iso_date_parse;
     Number_of_string := decimal_number;
     JSON_parse := fun _ => Some rawData;
     existsSync := fun _ => true;
     readFileSync := fun _ => Some [];
     homedir := lit "/home/user";
     path_join := fun a b => a ++ lit "/" ++ b |}.

(** The parts of a date in the time zone UTC, as the locale en-CA orders
    them. *)
Definition utc_parts (date : Z) : list (jsstring * jsstring) :=
  let y := getUTCFullYear date in
  let m := (getUTCMonth date + 1)%Z in
  let d := (DayWithinYear date - days_before_month y m + 1)%Z in
  let h := ((date mod msPerDay) / 3600000)%Z in
  let mi := ((date mod 3600000) / 60000)%Z in
  [(lit "year", String_of_Z y); (lit "literal", lit "-");
   (lit "month", padStart2 (String_of_Z m)); (lit "literal", lit "-");
   (lit "day", padStart2 (String_of_Z d)); (lit "literal", lit ", ");
   (lit "hour", padStart2 (String_of_Z h)); (lit "literal", lit ":");
   (lit "minute", padStart2 (String_of_Z mi))].

(** A printer for closed examples: it knows the time zone UTC only, and
    prints neither numbers nor JSON. *)
Definition sample_printer : Printer :=
  {| resolvedTimeZone := lit "UTC";
     formatToParts :=
       fun tz date => if str_eqb tz (lit "UTC") then Some (utc_parts date)
                      else None;
     toISOString := fun _ => [];
     String_of_number := fun _ => [];
     toFixed := fun _ _ => [];
     localeCompare := fun a b => if str_ltb a b then (-1)%Z
                                 else if str_ltb b a then 1%Z else 0%Z;
     JSON_stringify := fun _ => [] |}.

(** * Vocabulary of the statements *)

Definition str_eq_dec (a b : jsstring) : {a = b} + {a <> b} :=
  list_eq_dec N.eq_dec a b.

(** The order in which [Object.entries] lists two keys of one object: an
    array index before a greater index and before every other key. *)
Definition key_before (k later : jsstring) : Prop :=
  match array_index k, array_index later with
  | Some n, Some n' => (n < n')%N
  | Some _, None => True
  | None, Some _ => False
  | None, None => True
  end.

(** The keys of an object, as enumerated: in [key_before] order, each
    once. *)
Definition js_ordered (ks : list jsstring) : Prop :=
  StronglySorted key_before ks /\ NoDup ks.

(** A loop that assigns [d[k] = x] for the entries [(k, v)] with
    [f k v = Some x] and skips the others. *)
Definition set_step {A B : Type} (f : jsstring -> A -> option B)
    (d : dict B) (e : jsstring * A) : dict B :=
  match f (fst e) (snd e) with
  | Some x => dict_set d (fst e) x
  | None => d
  end.

(** The raw maps [parseCacheData] reads. *)
Definition rawDocuments_of (rawData : json) : json :=
  record_or_empty (prop rawData (lit "documents")).

Definition rawTranscripts_of (rawData : json) : json :=
  record_or_empty (prop rawData (lit "transcripts")).

Definition documentPanels_of (rawData : json) : json :=
  record_or_empty (prop rawData (lit "documentPanels")).

Section BuilderVocabulary.
Context {host : Host}.

(** The state of the first loop of [parseCacheData] when it ends. *)
Definition meetings_loop (clk : clock) (rawData : json)
  : dict MeetingMetadata.t * nat :=
  fold_left (meetings_step clk) (entries_of (rawDocuments_of rawData))
    ([], 0%nat).

(** What the third loop assigns for one raw record, if anything. *)
Definition document_for (parsePanels : bool) (documentPanels : json)
    (meetings : dict MeetingMetadata.t) (docId : jsstring) (docRaw : json)
  : option MeetingDocument.t :=
  if is_object docRaw
  then match dict_get meetings docId with
       | None => None
       | Some meeting =>
           Some {| MeetingDocument.id := docId;
                   MeetingDocument.meetingId := docId;
                   MeetingDocument.title := MeetingMetadata.title meeting;
                   MeetingDocument.content :=
                     trim (join blank_line
                             (content_parts parsePanels documentPanels docId
                                docRaw));
                   MeetingDocument.documentType := lit "meeting_notes";
                   MeetingDocument.createdAt := MeetingMetadata.date meeting;
                   MeetingDocument.tags := [] |}
       end
  else None.

(** What the second loop assigns for one raw transcript, if anything. *)
Definition transcript_for (transcriptId : jsstring) (transcriptRaw : json)
  : option MeetingTranscript.t :=
  let (contentParts, speakers) := transcript_parts transcriptRaw in
  if (0 <? length contentParts)%nat
  then Some {| MeetingTranscript.meetingId := transcriptId;
               MeetingTranscript.content := trim (join (lit " ") contentParts);
               MeetingTranscript.speakers := speakers;
               MeetingTranscript.language := None;
               MeetingTranscript.confidence := None |}
  else None.
End BuilderVocabulary.

(** A string of white space only. *)
Definition blank (s : jsstring) : bool := forallb is_space s.

(** The candidates for the notes of a document, in the order of their
    priority: the plain-text notes and the markdown notes (when they are
    strings that are not blank), the text extracted from the structured
    notes, and the text extracted from the panels when panel extraction is
    enabled. *)
Definition notes_candidates (parsePanels : bool) (documentPanels : json)
    (docId : jsstring) (docData : json) : list jsstring :=
  [ or_empty (nonblank_string (prop docData (lit "notes_plain")));
    or_empty (nonblank_string (prop docData (lit "notes_markdown")));
    match prop docData (lit "notes") with
    | Some notes => if is_object notes then extractStructuredNotes notes else []
    | None => []
    end;
    if parsePanels
    then extractDocumentPanelContent (prop_at documentPanels docId)
    else [] ].

(** The first candidate that is not empty, if there is one. *)
Definition first_nonempty (candidates : list jsstring) : list jsstring :=
  match find truthy_str candidates with
  | Some s => [s]
  | None => []
  end.

(** The raw records of which the first loop makes a Meeting: those that are
    objects.  Each one costs a reading of the clock. *)
Definition object_records (rawData : json) : dict json :=
  filter (fun e => is_object (snd e)) (entries_of (rawDocuments_of rawData)).

(** A clock that reads [now] for the first [n] readings and [after] from
    then on. *)
Definition clock_then (n : nat) (now after : Z) : clock :=
  fun i => if (i <? n)%nat then now else after.


Section SearchVocabulary.
Context {host : Host}.


End SearchVocabulary.


(** The UTC year and month of a date. *)
Definition month_of (date : Z) : Z * Z :=
  (getUTCFullYear date, getUTCMonth date).


(** The key under which a month is counted. *)
Definition month_label (ym : Z * Z) : jsstring :=
  String_of_Z (fst ym) ++ lit "-" ++ padStart2 (String_of_Z (snd ym + 1)).



Section TopicVocabulary.
Context {host : Host}.


End TopicVocabulary.

(** ** The recursions of the flatteners, call by call

    [extract_calls] and [walk_calls] follow the two recursive functions of
    the script literally, reading [entry.content] where the script reads
    it; [fuel] bounds the depth of the calls, and [None] means it was
    exceeded. *)

Fixpoint json_depth (v : json) : nat :=
  match v with
  | JArr items => S (fold_right Nat.max 0%nat (map json_depth items))
  | JObj members =>
      S (fold_right Nat.max 0%nat (map (fun kv => json_depth (snd kv)) members))
  | _ => 0%nat
  end.






(** ** The command line *)

(** The arguments that spell a list of options with their values. *)
Definition option_args (pairs : list (jsstring * jsstring)) : list jsstring :=
  flat_map (fun p => [lit "--" ++ fst p; snd p]) pairs.

(** A value the argument loop accepts: not empty, and not starting with two
    hyphens. *)
Definition value_ok (v : jsstring) : bool :=
  truthy_str v && negb (startsWith v (lit "--")).


(** The same end of a run, with the result printed as JSON. *)
Definition as_json (r : run) : run :=
  match r with
  | Printed _ timezone o => Printed true timezone o
  | _ => r
  end.

(** A string of ASCII characters. *)
Definition is_ascii (s : jsstring) : bool := forallb (fun c => (c <? 128)%N) s.

(** The names of the five commands. *)
Definition command_names : list jsstring :=
  [lit "search-meetings"; lit "get-meeting-details";
   lit "get-meeting-transcript"; lit "get-meeting-documents";
   lit "analyze-meeting-patterns"].

(** ** Counts *)



(** ** The analyses *)

Section AnalysisVocabulary.
Context {host : Host}.

(** The analysis of one of the three kinds over a list of meetings. *)
Definition analysis_of (kind : jsstring) (ms : list MeetingMetadata.t)
  : analysis :=
  if str_eqb kind (lit "participants")
  then Participants (analyzeParticipantPatterns ms)
  else if str_eqb kind (lit "frequency")
  then Frequency (analyzeFrequencyPatterns ms)
  else Topics (analyzeTopicPatterns ms).
End AnalysisVocabulary.

(** The meetings dated from [start] to [fin], both included. *)
Definition dated_within (start fin : Z) (ms : list MeetingMetadata.t)
  : list MeetingMetadata.t :=
  filter
    (fun m =>
       ((start <=? MeetingMetadata.date m) && (MeetingMetadata.date m <=? fin))%Z)
    ms.

(** ** The texts of a rich-text tree *)

(** The text of a text node: [entry.type === "text"] with a string for
    [entry.text]. *)
Definition text_of (entry : list (jsstring * json)) : option jsstring :=
  if type_is entry (lit "text") then as_string (obj_get entry (lit "text"))
  else None.

(** The texts of structured notes, as [extract] reaches them from a
    content array: the texts of its text nodes, and the texts noted in the
    content of its other nodes. *)
Inductive noted : json -> jsstring -> Prop :=
  | noted_here (items : list json) (entry : list (jsstring * json))
      (text : jsstring) :
      In (JObj entry) items -> text_of entry = Some text ->
      noted (JArr items) text
  | noted_below (items : list json) (entry : list (jsstring * json))
      (content : json) (text : jsstring) :
      In (JObj entry) items -> text_of entry = None ->
      obj_get entry (lit "content") = Some content ->
      noted content text ->
      noted (JArr items) text.

(** The texts of a panel, as [walk] reaches them: the text of a text node,
    the texts in the content of any node, and the texts in the elements of
    an array. *)
Inductive walked : json -> jsstring -> Prop :=
  | walked_item (items : list json) (item : json) (text : jsstring) :
      In item items -> walked item text -> walked (JArr items) text
  | walked_text (record : list (jsstring * json)) (text : jsstring) :
      text_of record = Some text -> walked (JObj record) text
  | walked_content (record : list (jsstring * json)) (content : json)
      (text : jsstring) :
      obj_get record (lit "content") = Some content ->
      walked content text ->
      walked (JObj record) text.

(** * Properties *)

(** ** Strings *)

Lemma str_eqb_refl (a : jsstring) : str_eqb a a = true.
Proof.
  induction a as [|x a IH]; simpl; [reflexivity|].
  now rewrite N.eqb_refl.
Qed.

Lemma str_eqb_eq (a b : jsstring) : str_eqb a b = true <-> a = b.
Proof.
  split; [|intros ->; apply str_eqb_refl].
  revert b; induction a as [|x a IH]; intros [|y b]; simpl; try easy.
  intros H; apply andb_true_iff in H as [Hx Hab].
  apply N.eqb_eq in Hx; subst; f_equal; auto.
Qed.

Lemma str_eqb_neq (a b : jsstring) : str_eqb a b = false <-> a <> b.
Proof.
  rewrite <- str_eqb_eq. destruct (str_eqb a b); split; congruence.
Qed.

Lemma str_eqb_sym (a b : jsstring) : str_eqb a b = str_eqb b a.
Proof.
  destruct (str_eqb a b) eqn:E.
  - apply str_eqb_eq in E; subst; symmetry; apply str_eqb_refl.
  - symmetry; apply str_eqb_neq; apply str_eqb_neq in E; congruence.
Qed.

Lemma lit_inj (s s' : string) : lit s = lit s' -> s = s'.
Proof.
  unfold lit; revert s'; induction s as [|a s IH]; intros [|a' s']; simpl;
    try easy.
  intros [= Ha Hs]; f_equal; auto.
  rewrite <- (ascii_N_embedding a), <- (ascii_N_embedding a'); congruence.
Qed.

Lemma ascii_string_lit (s : string) : ascii_string (lit s) = Some s.
Proof.
  unfold lit; induction s as [|a s IH]; simpl; [reflexivity|].
  pose proof (N_ascii_bounded a) as Hb; apply N.ltb_lt in Hb; rewrite Hb.
  now rewrite IH, ascii_N_embedding.
Qed.

Lemma int_of_string_of_Z (z : Z) :
  NilZero.int_of_string (NilZero.string_of_int (Z.to_int z))
  = Some (Z.to_int z).
Proof.
  apply NilZero.isi; destruct z; simpl; try discriminate;
    intros [= E]; now apply DecimalPos.Unsigned.to_uint_nonnil in E.
Qed.

Lemma String_of_Z_inj (a b : Z) : String_of_Z a = String_of_Z b -> a = b.
Proof.
  unfold String_of_Z; intros H; apply lit_inj in H.
  apply DecimalZ.to_int_inj.
  pose proof (int_of_string_of_Z a) as Ha.
  rewrite H, int_of_string_of_Z in Ha; congruence.
Qed.

Lemma array_index_String_of_Z (i : Z) :
  array_index (String_of_Z i)
  = if ((0 <=? i) && (i <? 4294967295))%Z then Some (Z.to_N i) else None.
Proof.
  unfold array_index, String_of_Z.
  rewrite ascii_string_lit, int_of_string_of_Z, DecimalZ.of_to.
  fold (String_of_Z i); rewrite str_eqb_refl, andb_true_r; reflexivity.
Qed.

Lemma array_index_inj (k k' : jsstring) (n : N) :
  array_index k = Some n -> array_index k' = Some n -> k = k'.
Proof.
  assert (P : forall k, array_index k = Some n ->
                        k = String_of_Z (Z.of_N n)).
  { intros x; unfold array_index.
    destruct (ascii_string x) as [s|]; [|discriminate].
    destruct (NilZero.int_of_string s) as [d|]; [|discriminate].
    destruct (0 <=? Z.of_int d)%Z eqn:E0; simpl; [|discriminate].
    destruct (Z.of_int d <? 4294967295)%Z; simpl; [|discriminate].
    destruct (str_eqb _ x) eqn:E; [|discriminate].
    intros [= <-]; apply str_eqb_eq in E.
    apply Z.leb_le in E0; now rewrite Z2N.id. }
  intros H H'; rewrite (P _ H), (P _ H'); reflexivity.
Qed.

(** ** Dictionaries *)

Section DictFacts.
Variable T : Type.
Implicit Types (d : dict T) (k : jsstring) (v : T).

Lemma dict_get_None d k : dict_get d k = None <-> ~ In k (dict_keys d).
Proof.
  induction d as [|[k0 v0] d IH]; simpl; [tauto|].
  destruct (str_eqb k k0) eqn:E.
  - apply str_eqb_eq in E; subst; split; [discriminate | tauto].
  - apply str_eqb_neq in E; rewrite IH; split; [intros H [?|?] | ]; intuition.
Qed.

Lemma dict_get_In d k v : dict_get d k = Some v -> In (k, v) d.
Proof.
  induction d as [|[k0 v0] d IH]; simpl; [discriminate|].
  destruct (str_eqb k k0) eqn:E.
  - apply str_eqb_eq in E; subst; intros [= ->]; now left.
  - intros H; right; auto.
Qed.

Lemma dict_get_Some_key d k v : dict_get d k = Some v -> In k (dict_keys d).
Proof.
  intros H; apply dict_get_In in H.
  apply (in_map fst) in H; exact H.
Qed.

Lemma In_dict_get d k v :
  NoDup (dict_keys d) -> In (k, v) d -> dict_get d k = Some v.
Proof.
  induction d as [|[k0 v0] d IH]; simpl; [tauto|].
  intros Hnd [[= -> ->]|Hin].
  - now rewrite str_eqb_refl.
  - inversion Hnd as [|? ? Hk0 Hd]; subst.
    destruct (str_eqb k k0) eqn:E; [|auto].
    apply str_eqb_eq in E; subst.
    exfalso; apply Hk0; apply (in_map fst) in Hin; exact Hin.
Qed.

Lemma dict_has_true d k : dict_has d k = true <-> In k (dict_keys d).
Proof.
  unfold dict_has; destruct (dict_get d k) eqn:E.
  - split; [intros _; eapply dict_get_Some_key; eauto | reflexivity].
  - apply dict_get_None in E; split; [discriminate | tauto].
Qed.

Lemma dict_keys_replace d k v : dict_keys (dict_replace d k v) = dict_keys d.
Proof.
  induction d as [|[k0 v0] d IH]; simpl; [reflexivity|].
  destruct (str_eqb k k0); simpl; [reflexivity | now f_equal].
Qed.

Lemma dict_get_replace d k v k' :
  dict_has d k = true ->
  dict_get (dict_replace d k v) k'
  = if str_eqb k' k then Some v else dict_get d k'.
Proof.
  unfold dict_has; induction d as [|[k0 v0] d IH]; simpl; [discriminate|].
  destruct (str_eqb k k0) eqn:E; simpl.
  - intros _; apply str_eqb_eq in E; subst.
    destruct (str_eqb k' k0); reflexivity.
  - intros H; rewrite (IH H); apply str_eqb_neq in E.
    destruct (str_eqb k' k0) eqn:E'; [|reflexivity].
    apply str_eqb_eq in E'; subst.
    destruct (str_eqb k0 k) eqn:E''; [|reflexivity].
    apply str_eqb_eq in E''; congruence.
Qed.

Lemma dict_get_add_index d n k v k' :
  dict_get d k = None ->
  dict_get (dict_add_index d n k v) k'
  = if str_eqb k' k then Some v else dict_get d k'.
Proof.
  induction d as [|[k0 v0] d IH]; simpl; [reflexivity|].
  destruct (str_eqb k k0) eqn:Ek; [discriminate|]; intros Hk.
  destruct (array_index k0) as [n0|]; [destruct (n0 <? n)%N|]; simpl;
    try reflexivity.
  rewrite (IH Hk).
  destruct (str_eqb k' k0) eqn:E; [|reflexivity].
  apply str_eqb_eq in E; subst k'; now rewrite str_eqb_sym, Ek.
Qed.

Lemma dict_get_snoc d k v k' :
  dict_get d k = None ->
  dict_get (d ++ [(k, v)]) k'
  = if str_eqb k' k then Some v else dict_get d k'.
Proof.
  induction d as [|[k0 v0] d IH]; simpl; [reflexivity|].
  destruct (str_eqb k k0) eqn:Ek; [discriminate|]; intros Hk.
  rewrite (IH Hk).
  destruct (str_eqb k' k0) eqn:E; [|reflexivity].
  apply str_eqb_eq in E; subst k'; now rewrite str_eqb_sym, Ek.
Qed.

(** Reading after an assignment. *)
Lemma dict_get_set d k v k' :
  dict_get (dict_set d k v) k'
  = if str_eqb k' k then Some v else dict_get d k'.
Proof.
  unfold dict_set; destruct (dict_has d k) eqn:H.
  - now apply dict_get_replace.
  - assert (Hk : dict_get d k = None).
    { unfold dict_has in H; destruct (dict_get d k); congruence. }
    destruct (array_index k);
      [now apply dict_get_add_index | now apply dict_get_snoc].
Qed.

Lemma dict_get_set_same d k v : dict_get (dict_set d k v) k = Some v.
Proof. now rewrite dict_get_set, str_eqb_refl. Qed.

Lemma In_keys_add_index d n k v x :
  In x (dict_keys (dict_add_index d n k v)) <-> x = k \/ In x (dict_keys d).
Proof.
  induction d as [|[k0 v0] d IH]; simpl; [intuition|].
  destruct (array_index k0) as [n0|]; [destruct (n0 <? n)%N|]; simpl;
    rewrite ?IH; intuition.
Qed.

(** The keys after an assignment: the same when the key is there already,
    one more otherwise. *)
Lemma In_keys_set d k v x :
  In x (dict_keys (dict_set d k v)) <-> x = k \/ In x (dict_keys d).
Proof.
  unfold dict_set; destruct (dict_has d k) eqn:H.
  - rewrite dict_keys_replace; apply dict_has_true in H.
    split; [tauto | intros [->|?]; assumption].
  - destruct (array_index k); [apply In_keys_add_index|].
    unfold dict_keys; rewrite map_app, in_app_iff; simpl; intuition.
Qed.

Lemma StronglySorted_snoc (A : Type) (R : A -> A -> Prop) l x :
  StronglySorted R l -> Forall (fun y => R y x) l ->
  StronglySorted R (l ++ [x]).
Proof.
  induction 1 as [|a l Hs IH Ha]; simpl; intros Hx.
  - repeat constructor.
  - inversion Hx; subst; constructor; [auto|].
    apply Forall_app; split; [assumption | now repeat constructor].
Qed.

Lemma StronglySorted_app_l (A : Type) (R : A -> A -> Prop) l l' :
  StronglySorted R (l ++ l') -> StronglySorted R l.
Proof.
  induction l as [|a l IH]; simpl; [constructor|].
  intros H; inversion H as [|? ? Hs Ha]; subst; constructor; [auto|].
  apply Forall_app in Ha; tauto.
Qed.

Lemma js_ordered_cons (x : jsstring) (ks : list jsstring) :
  js_ordered ks -> ~ In x ks -> Forall (key_before x) ks ->
  js_ordered (x :: ks).
Proof.
  intros [Hs Hnd] Hx Hb; split; constructor; assumption.
Qed.

Lemma js_ordered_inv (x : jsstring) (ks : list jsstring) :
  js_ordered (x :: ks) ->
  js_ordered ks /\ ~ In x ks /\ Forall (key_before x) ks.
Proof.
  intros [Hs Hnd]; inversion Hs; inversion Hnd; subst.
  repeat split; assumption.
Qed.

Lemma js_ordered_add_index d n k v :
  array_index k = Some n -> ~ In k (dict_keys d) ->
  js_ordered (dict_keys d) ->
  js_ordered (dict_keys (dict_add_index d n k v)).
Proof.
  intros Hn; induction d as [|[k0 v0] d IH]; intros Hk Ho.
  - split; repeat constructor; auto.
  - change (dict_keys ((k0, v0) :: d)) with (k0 :: dict_keys d) in *.
    apply js_ordered_inv in Ho as (Ho & Hk0' & Hk0).
    assert (Hk' : ~ In k (dict_keys d)) by (simpl in Hk; tauto).
    assert (Hne : k0 <> k) by (simpl in Hk; tauto).
    assert (Hnew : ~ In k (k0 :: dict_keys d)) by exact Hk.
    simpl dict_add_index.
    destruct (array_index k0) as [n0|] eqn:E0.
    + destruct (n0 <? n)%N eqn:Elt.
      * change (js_ordered (k0 :: dict_keys (dict_add_index d n k v))).
        apply js_ordered_cons; [auto | |].
        -- rewrite In_keys_add_index; intros [->|?]; tauto.
        -- rewrite Forall_forall in *; intros x Hx.
           apply In_keys_add_index in Hx as [->|Hx]; [|auto].
           unfold key_before; rewrite E0, Hn; now apply N.ltb_lt.
      * apply N.ltb_ge in Elt.
        assert (Hlt : (n < n0)%N).
        { destruct (N.eq_dec n n0) as [->|]; [|lia].
          exfalso; apply Hne; eapply array_index_inj; eauto. }
        change (js_ordered (k :: k0 :: dict_keys d)).
        apply js_ordered_cons; [now apply js_ordered_cons | assumption |].
        constructor; [unfold key_before; now rewrite Hn, E0|].
        rewrite Forall_forall in *; intros x Hx; specialize (Hk0 x Hx).
        unfold key_before in *; rewrite Hn; rewrite E0 in Hk0.
        destruct (array_index x); [lia | exact I].
    + change (js_ordered (k :: k0 :: dict_keys d)).
      apply js_ordered_cons; [now apply js_ordered_cons | assumption |].
      constructor; [unfold key_before; now rewrite Hn, E0|].
      rewrite Forall_forall in *; intros x Hx; specialize (Hk0 x Hx).
      unfold key_before in *; rewrite Hn; rewrite E0 in Hk0.
      destruct (array_index x); [contradiction | exact I].
Qed.

(** An assignment keeps the keys in enumeration order. *)
Lemma js_ordered_set d k v :
  js_ordered (dict_keys d) -> js_ordered (dict_keys (dict_set d k v)).
Proof.
  intros H; unfold dict_set; destruct (dict_has d k) eqn:Hh.
  - now rewrite dict_keys_replace.
  - assert (Hk : ~ In k (dict_keys d)).
    { rewrite <- dict_has_true; congruence. }
    destruct (array_index k) as [n|] eqn:En;
      [now apply js_ordered_add_index|].
    destruct H as [Hs Hnd]; unfold dict_keys; rewrite map_app; simpl; split.
    + apply StronglySorted_snoc; [assumption|].
      apply Forall_forall; intros x _; unfold key_before; rewrite En.
      now destruct (array_index x).
    + apply NoDup_app; [assumption | repeat constructor; auto |].
      intros x Hx [->|[]]; contradiction.
Qed.

(** Assigning a key that comes last in enumeration order appends it. *)
Lemma dict_set_snoc d k v :
  js_ordered (dict_keys d ++ [k]) -> dict_set d k v = d ++ [(k, v)].
Proof.
  intros [Hs Hnd]; unfold dict_set.
  assert (Hk : ~ In k (dict_keys d)).
  { apply NoDup_remove_2 with (l' := []) in Hnd; now rewrite app_nil_r in Hnd. }
  destruct (dict_has d k) eqn:Hh; [apply dict_has_true in Hh; contradiction|].
  destruct (array_index k) as [n|] eqn:En; [|reflexivity].
  clear Hnd Hk Hh; induction d as [|[k0 v0] d IH]; simpl in *; [reflexivity|].
  inversion Hs as [|? ? Hs' Hk0]; subst.
  rewrite Forall_forall in Hk0.
  assert (Hin : In k (dict_keys d ++ [k])) by (apply in_or_app; simpl; auto).
  specialize (Hk0 k Hin).
  unfold key_before in Hk0; rewrite En in Hk0.
  destruct (array_index k0) as [n0|]; [|contradiction].
  apply N.ltb_lt in Hk0; rewrite Hk0; f_equal; auto.
Qed.

Lemma js_ordered_app_l (l l' : list jsstring) :
  js_ordered (l ++ l') -> js_ordered l.
Proof.
  intros [Hs Hnd]; split; [eapply StronglySorted_app_l; eauto|].
  eapply NoDup_app_remove_r; eauto.
Qed.
End DictFacts.

(** ** The entries of a parsed value *)

Lemma js_ordered_nil : js_ordered [].
Proof. split; constructor. Qed.

Lemma obj_entries_ordered (members : list (jsstring * json)) :
  js_ordered (dict_keys (obj_entries members)).
Proof.
  unfold obj_entries.
  assert (G : forall d, js_ordered (dict_keys d) ->
                js_ordered (dict_keys
                  (fold_left (fun d kv => dict_set d (fst kv) (snd kv))
                     members d))).
  { induction members as [|[k v] ms IH]; simpl; intros d Hd; [assumption|].
    apply IH; now apply js_ordered_set. }
  apply G, js_ordered_nil.
Qed.

Lemma arr_entries_keys (items : list json) (i : Z) (x : jsstring) :
  In x (dict_keys (arr_entries_from i items)) ->
  exists m, (i <= m)%Z /\ x = String_of_Z m.
Proof.
  revert i; induction items as [|a items IH]; simpl; intros i; [tauto|].
  intros [<-|H]; [exists i; split; [lia | reflexivity]|].
  apply IH in H as (m & Hm & ->); exists m; split; [lia | reflexivity].
Qed.

Lemma key_before_numerals (i m : Z) :
  (0 <= i < m)%Z -> key_before (String_of_Z i) (String_of_Z m).
Proof.
  intros H; unfold key_before; rewrite !array_index_String_of_Z.
  destruct (0 <=? i)%Z eqn:E0; [|lia].
  destruct (0 <=? m)%Z eqn:E1; [|lia]; simpl.
  destruct (i <? 4294967295)%Z eqn:Ei, (m <? 4294967295)%Z eqn:Em;
    try exact I; lia.
Qed.

Lemma arr_entries_ordered (items : list json) (i : Z) :
  (0 <= i)%Z -> js_ordered (dict_keys (arr_entries_from i items)).
Proof.
  revert i; induction items as [|a items IH]; simpl; intros i Hi;
    [apply js_ordered_nil|].
  apply js_ordered_cons; [apply IH; lia | |].
  - intros H; apply arr_entries_keys in H as (m & Hm & E).
    apply String_of_Z_inj in E; lia.
  - apply Forall_forall; intros x H.
    apply arr_entries_keys in H as (m & Hm & ->).
    apply key_before_numerals; lia.
Qed.

(** [Object.entries] lists each key once, in enumeration order. *)
Lemma entries_of_ordered (v : json) : js_ordered (dict_keys (entries_of v)).
Proof.
  destruct v; simpl; try apply js_ordered_nil;
    [now apply arr_entries_ordered | apply obj_entries_ordered].
Qed.

Lemma entries_of_NoDup (v : json) : NoDup (dict_keys (entries_of v)).
Proof. apply entries_of_ordered. Qed.

(** ** Loops that fill a dictionary *)

Section SetStep.
Variables A B : Type.
Variable f : jsstring -> A -> option B.

(** What such a loop leaves under a key: the value computed from the entry
    of that key, or what was there before. *)
Lemma fold_set_step_get (l : dict A) :
  NoDup (dict_keys l) ->
  forall (d0 : dict B) (k : jsstring),
    dict_get (fold_left (set_step f) l d0) k
    = match dict_get l k with
      | Some v => match f k v with
                  | Some x => Some x
                  | None => dict_get d0 k
                  end
      | None => dict_get d0 k
      end.
Proof.
  induction l as [|[k1 v1] l IH]; simpl; intros Hnd d0 k; [reflexivity|].
  inversion Hnd as [|? ? Hk1 Hl]; subst.
  rewrite (IH Hl).
  change (set_step f d0 (k1, v1))
    with (match f k1 v1 with Some x => dict_set d0 k1 x | None => d0 end).
  destruct (str_eqb k k1) eqn:E.
  - apply str_eqb_eq in E; subst k1.
    apply dict_get_None in Hk1; rewrite Hk1.
    destruct (f k v1); [apply dict_get_set_same | reflexivity].
  - destruct (dict_get l k) as [v|]; [destruct (f k v); [reflexivity|]|];
      destruct (f k1 v1); try reflexivity; now rewrite dict_get_set, E.
Qed.

End SetStep.

(** ** The builder, loop by loop *)

Section BuilderFacts.
Context {host : Host}.

Lemma parse_meetings clk rawData parsePanels :
  meetings (parseCacheData clk rawData parsePanels)
  = fst (meetings_loop clk rawData).
Proof.
  unfold parseCacheData, meetings_loop, rawDocuments_of.
  now destruct (fold_left _ _ _).
Qed.

Lemma parse_lastUpdated clk rawData parsePanels :
  lastUpdated (parseCacheData clk rawData parsePanels)
  = Some (clk (snd (meetings_loop clk rawData))).
Proof.
  unfold parseCacheData, meetings_loop, rawDocuments_of.
  now destruct (fold_left _ _ _).
Qed.

Lemma documents_step_set parsePanels documentPanels ms d e :
  documents_step parsePanels documentPanels ms d e
  = set_step (document_for parsePanels documentPanels ms) d e.
Proof.
  destruct e as [docId docRaw]; unfold documents_step, set_step, document_for.
  simpl; destruct (is_object docRaw); [|reflexivity].
  now destruct (dict_get ms docId).
Qed.

Lemma transcripts_step_set d e :
  transcripts_step d e = set_step transcript_for d e.
Proof.
  destruct e as [transcriptId transcriptRaw].
  unfold transcripts_step, set_step, transcript_for; simpl.
  destruct (transcript_parts transcriptRaw) as [contentParts speakers].
  now destruct (0 <? length contentParts)%nat.
Qed.

Lemma fold_left_ext_step (S E : Type) (f g : S -> E -> S) l s :
  (forall s e, f s e = g s e) -> fold_left f l s = fold_left g l s.
Proof.
  intros H; revert s; induction l as [|e l IH]; simpl; intros s;
    [reflexivity|].
  now rewrite H, IH.
Qed.

Lemma parse_documents clk rawData parsePanels :
  documents (parseCacheData clk rawData parsePanels)
  = fold_left
      (set_step (document_for parsePanels (documentPanels_of rawData)
                   (fst (meetings_loop clk rawData))))
      (entries_of (rawDocuments_of rawData)) [].
Proof.
  unfold parseCacheData, meetings_loop, rawDocuments_of, documentPanels_of.
  destruct (fold_left _ _ _) as [ms reads]; simpl.
  apply fold_left_ext_step; intros; apply documents_step_set.
Qed.

Lemma parse_transcripts clk rawData parsePanels :
  transcripts (parseCacheData clk rawData parsePanels)
  = fold_left (set_step transcript_for)
      (entries_of (rawTranscripts_of rawData)) [].
Proof.
  unfold parseCacheData, rawTranscripts_of.
  destruct (fold_left _ _ _) as [ms reads]; simpl.
  apply fold_left_ext_step; intros; apply transcripts_step_set.
Qed.

(** The document stored under an id is the one built from the raw record of
    that id. *)
Lemma documents_get clk rawData parsePanels docId :
  dict_get (documents (parseCacheData clk rawData parsePanels)) docId
  = match dict_get (entries_of (rawDocuments_of rawData)) docId with
    | Some docRaw =>
        document_for parsePanels (documentPanels_of rawData)
          (meetings (parseCacheData clk rawData parsePanels)) docId docRaw
    | None => None
    end.
Proof.
  rewrite parse_documents, parse_meetings.
  rewrite fold_set_step_get by apply entries_of_NoDup.
  destruct (dict_get _ docId) as [docRaw|]; [|reflexivity].
  now destruct (document_for _ _ _ _ _).
Qed.

(** The transcript stored under an id is the one built from the raw
    transcript of that id. *)
Lemma transcripts_get clk rawData parsePanels transcriptId :
  dict_get (transcripts (parseCacheData clk rawData parsePanels)) transcriptId
  = match dict_get (entries_of (rawTranscripts_of rawData)) transcriptId with
    | Some transcriptRaw => transcript_for transcriptId transcriptRaw
    | None => None
    end.
Proof.
  rewrite parse_transcripts.
  rewrite fold_set_step_get by apply entries_of_NoDup.
  destruct (dict_get _ transcriptId) as [transcriptRaw|]; [|reflexivity].
  now destruct (transcript_for _ _).
Qed.

(** C5.  In the cache built from any raw input, an id that has a Document
    has a Meeting: a raw record for which no Meeting was built leaves no
    Document behind. *)
Theorem document_has_meeting clk rawData parsePanels docId :
  let data := parseCacheData clk rawData parsePanels in
  (forall doc, dict_get (documents data) docId = Some doc ->
               exists m, dict_get (meetings data) docId = Some m)
  /\ (dict_get (meetings data) docId = None ->
      dict_get (documents data) docId = None).
Proof.
  cbv zeta; rewrite documents_get.
  destruct (dict_get (entries_of _) docId) as [docRaw|]; unfold document_for.
  - destruct (is_object docRaw);
      destruct (dict_get (meetings _) docId) as [m|]; split;
      try discriminate; try reflexivity; eauto.
  - split; [discriminate | reflexivity].
Qed.
End BuilderFacts.

(** ** Trimming and joining *)

Lemma trimStart_nil (s : jsstring) : trimStart s = [] <-> blank s = true.
Proof.
  induction s as [|c s IH]; simpl; [tauto|].
  destruct (is_space c); simpl; [exact IH | split; discriminate].
Qed.

Lemma In_trimStart (s : jsstring) (c : N) :
  In c s -> is_space c = false -> In c (trimStart s).
Proof.
  induction s as [|x s IH]; simpl; [tauto|].
  intros [->|H] Hc; [rewrite Hc; now left|].
  destruct (is_space x); [auto | now right].
Qed.

Lemma In_trim (s : jsstring) (c : N) :
  In c s -> is_space c = false -> In c (trim s).
Proof.
  intros H Hc; unfold trim, trimEnd.
  apply -> in_rev; apply In_trimStart; [|assumption].
  apply -> in_rev; now apply In_trimStart.
Qed.

Lemma blank_false (s : jsstring) :
  blank s = false <-> exists c, In c s /\ is_space c = false.
Proof.
  unfold blank; induction s as [|x s IH]; simpl.
  - split; [discriminate | intros (c & [] & _)].
  - destruct (is_space x) eqn:E; simpl.
    + rewrite IH; split; intros (c & Hc & Hs); exists c;
        [tauto | destruct Hc as [->|]; [congruence | tauto]].
    + split; [intros _; exists x; auto | reflexivity].
Qed.

(** [s.trim()] is empty exactly when [s] is white space only. *)
Lemma trim_nil (s : jsstring) : trim s = [] <-> blank s = true.
Proof.
  split.
  - intros H; destruct (blank s) eqn:E; [reflexivity|].
    apply blank_false in E as (c & Hc & Hs).
    pose proof (In_trim s c Hc Hs) as Hin; rewrite H in Hin; destruct Hin.
  - intros H; apply trimStart_nil in H; unfold trim; now rewrite H.
Qed.

Lemma nonblank_blank (s : jsstring) : nonblank s = negb (blank s).
Proof.
  unfold nonblank; destruct (blank s) eqn:E.
  - apply trim_nil in E; now rewrite E.
  - destruct (trim s) eqn:Et; [|reflexivity].
    apply trim_nil in Et; congruence.
Qed.

Lemma blank_trim (s : jsstring) : blank (trim s) = blank s.
Proof.
  destruct (blank s) eqn:E.
  - apply trim_nil in E; now rewrite E.
  - apply blank_false in E as (c & Hc & Hs).
    apply blank_false; exists c; split; [now apply In_trim | assumption].
Qed.

Lemma In_join (sep : jsstring) (parts : list jsstring) (p : jsstring) (c : N) :
  In p parts -> In c p -> In c (join sep parts).
Proof.
  induction parts as [|q parts IH]; simpl; [tauto|].
  intros [->|H] Hc.
  - destruct parts; [assumption | apply in_or_app; now left].
  - destruct parts as [|q' parts']; [destruct H|].
    apply in_or_app; right; apply in_or_app; right; auto.
Qed.

(** Joining parts of which one is not blank, then trimming, leaves a string
    that is not empty. *)
Lemma trim_join_nonempty (sep : jsstring) (parts : list jsstring) :
  (exists p, In p parts /\ blank p = false) ->
  trim (join sep parts) <> [].
Proof.
  intros (p & Hp & Hb) H; apply trim_nil in H.
  apply blank_false in Hb as (c & Hc & Hs).
  assert (Hf : blank (join sep parts) = false).
  { apply blank_false; exists c; split; [eapply In_join; eauto | assumption]. }
  congruence.
Qed.

Lemma nonblank_string_Some (v : option json) (s : jsstring) :
  nonblank_string v = Some s <-> v = Some (JStr s) /\ blank s = false.
Proof.
  unfold nonblank_string; destruct v as [[| | |s'| |]|];
    try (split; [discriminate | intros [[=] _]]).
  rewrite nonblank_blank; destruct (blank s') eqn:E; simpl.
  - split; [discriminate | intros [[= ->] ?]; congruence].
  - split; [intros [= ->]; auto | intros [[= ->] _]; reflexivity].
Qed.

(** ** Transcripts *)

Section TranscriptFacts.
Context {host : Host}.

Lemma segment_step_nonblank st segment :
  Forall (fun p => blank p = false) (fst st) ->
  Forall (fun p => blank p = false) (fst (segment_step st segment)).
Proof.
  intros H; unfold segment_step.
  destruct (is_object segment); [simpl|assumption].
  destruct (nonblank_string (prop segment (lit "text"))) as [text|] eqn:E;
    [|assumption].
  apply nonblank_string_Some in E as [_ E].
  apply Forall_app; split; [assumption|].
  constructor; [now rewrite blank_trim | constructor].
Qed.

(** Every part collected from a raw transcript has a character that is not
    white space. *)
Lemma transcript_parts_nonblank (transcriptRaw : json) :
  Forall (fun p => blank p = false) (fst (transcript_parts transcriptRaw)).
Proof.
  destruct transcriptRaw as [| | | |segments|members];
    try (simpl; constructor).
  - unfold transcript_parts.
    assert (G : forall st, Forall (fun p => blank p = false) (fst st) ->
              Forall (fun p => blank p = false)
                (fst (fold_left segment_step segments st))).
    { induction segments as [|x l IH]; simpl; intros st Hst; [assumption|].
      apply IH, segment_step_nonblank, Hst. }
    apply G; constructor.
  - unfold transcript_parts.
    match goal with |- context [find ?p ?l] => destruct (find p l) eqn:E end;
      [|constructor].
    apply find_some in E as [_ E].
    destruct (nonblank_string o) as [s'|] eqn:E'; [|discriminate].
    apply nonblank_string_Some in E' as [-> E']; simpl.
    constructor; [exact E' | constructor].
Qed.

Lemma blank_false_nonempty (s : jsstring) : blank s = false -> s <> [].
Proof. intros H ->; discriminate. Qed.

(** C6.  A Transcript is stored only for a raw entry in which a fragment of
    text that is not empty was found; every stored Transcript has content
    that is not empty, and a raw entry whose flattened content is empty
    stores no Transcript. *)
Theorem transcript_content_nonempty clk rawData parsePanels transcriptId :
  let data := parseCacheData clk rawData parsePanels in
  let raw := dict_get (entries_of (rawTranscripts_of rawData)) transcriptId in
  (forall t, dict_get (transcripts data) transcriptId = Some t ->
     MeetingTranscript.content t <> []
     /\ exists transcriptRaw fragment,
          raw = Some transcriptRaw
          /\ In fragment (fst (transcript_parts transcriptRaw))
          /\ fragment <> [])
  /\ (forall transcriptRaw,
        raw = Some transcriptRaw ->
        trim (join (lit " ") (fst (transcript_parts transcriptRaw))) = [] ->
        dict_get (transcripts data) transcriptId = None).
Proof.
  cbv zeta; rewrite transcripts_get.
  destruct (dict_get (entries_of _) transcriptId) as [transcriptRaw|];
    [|split; [discriminate | reflexivity]].
  unfold transcript_for.
  pose proof (transcript_parts_nonblank transcriptRaw) as Hnb.
  destruct (transcript_parts transcriptRaw) as [contentParts speakers]
    eqn:Eparts.
  simpl in Hnb; destruct contentParts as [|p parts]; simpl Nat.ltb.
  - split; [discriminate | reflexivity].
  - inversion Hnb as [|? ? Hp Hparts]; subst.
    assert (Hne : trim (join (lit " ") (p :: parts)) <> []).
    { apply trim_join_nonempty; exists p; split; [now left | assumption]. }
    split.
    + intros t [= <-]; simpl; split; [exact Hne|].
      exists transcriptRaw, p; rewrite Eparts; repeat split; [now left|].
      now apply blank_false_nonempty.
    + intros ? [= <-] H; rewrite Eparts in H; contradiction.
Qed.
End TranscriptFacts.

(** ** The content of a document *)

Lemma length_pos_truthy (s : jsstring) :
  (0 <? length s)%nat = truthy_str s.
Proof. now destruct s. Qed.

Lemma truthy_trim (s : jsstring) : truthy_str (trim s) = negb (blank s).
Proof. apply nonblank_blank. Qed.

Lemma nonblank_string_truthy (v : option json) (s : jsstring) :
  nonblank_string v = Some s ->
  truthy_str s = true /\ truthy_str (trim s) = true.
Proof.
  intros H; apply nonblank_string_Some in H as [_ H].
  rewrite truthy_trim, H; split; [|reflexivity].
  destruct s; [discriminate | reflexivity].
Qed.

(** The text extracted from structured notes is trimmed: when it is not
    empty it is not blank. *)
Lemma extractStructuredNotes_trimmed (notesData : json) :
  truthy_str (extractStructuredNotes notesData) = true ->
  truthy_str (trim (extractStructuredNotes notesData)) = true.
Proof.
  unfold extractStructuredNotes.
  destruct notesData as [| | | | |notes]; try discriminate.
  destruct (obj_get notes (lit "content")) as [[| | | |items|]|];
    try discriminate.
  rewrite !truthy_trim, blank_trim; trivial.
Qed.

(** The parts of a document are the first candidate that is not empty,
    then the Overview and Summary lines. *)
Lemma content_parts_priority parsePanels documentPanels docId docData :
  content_parts parsePanels documentPanels docId docData
  = first_nonempty (notes_candidates parsePanels documentPanels docId docData)
    ++ labelled_part docData (lit "overview") (lit "Overview: ")
    ++ labelled_part docData (lit "summary") (lit "Summary: ").
Proof.
  unfold content_parts, notes_parts, panel_parts, notes_candidates,
    first_nonempty.
  destruct (nonblank_string (prop docData (lit "notes_plain"))) as [p|] eqn:Ep.
  { apply nonblank_string_truthy in Ep as [Hp Ht].
    cbn [or_empty find existsb]; rewrite Hp, length_pos_truthy, Ht.
    now rewrite andb_false_r. }
  destruct (nonblank_string (prop docData (lit "notes_markdown")))
    as [m|] eqn:Em.
  { apply nonblank_string_truthy in Em as [Hm Ht].
    cbn [or_empty find existsb truthy_str]; rewrite Hm, length_pos_truthy, Ht.
    now rewrite andb_false_r. }
  cbn [or_empty find truthy_str].
  set (structured :=
         match prop docData (lit "notes") with
         | Some notes =>
             if is_object notes then extractStructuredNotes notes else []
         | None => []
         end).
  assert (Hs : truthy_str structured = true ->
               truthy_str (trim structured) = true).
  { unfold structured; destruct (prop docData (lit "notes")) as [notes|];
      [|discriminate].
    destruct (is_object notes); [apply extractStructuredNotes_trimmed|].
    discriminate. }
  assert (E : match prop docData (lit "notes") with
              | Some notes =>
                  if is_object notes
                  then if truthy_str (extractStructuredNotes notes)
                       then [extractStructuredNotes notes] else []
                  else []
              | None => []
              end = if truthy_str structured then [structured] else []).
  { unfold structured; destruct (prop docData (lit "notes")) as [notes|];
      [|reflexivity].
    now destruct (is_object notes). }
  rewrite E; clear E.
  destruct (truthy_str structured) eqn:Et.
  - cbn [existsb]; rewrite length_pos_truthy, (Hs eq_refl).
    now rewrite andb_false_r.
  - cbn [existsb]; rewrite andb_true_r.
    destruct parsePanels; cbn [find truthy_str]; [|reflexivity].
    now destruct (truthy_str (extractDocumentPanelContent _)).
Qed.

Section DocumentContent.
Context {host : Host}.

End DocumentContent.



(** ** The clock *)

Section ClockFacts.
Context {host : Host}.

Lemma meetings_step_pair clk d n k v :
  meetings_step clk (d, n) (k, v)
  = if is_object v
    then (dict_set d k (build_meeting (clk n) k v), S n)
    else (d, n).
Proof. reflexivity. Qed.

Lemma meetings_step_reads clk l d n :
  snd (fold_left (meetings_step clk) l (d, n))
  = (n + length (filter (fun e => is_object (snd e)) l))%nat.
Proof.
  revert d n; induction l as [|[k v] l IH]; cbn [fold_left filter snd];
    intros d n; [simpl; lia|].
  rewrite meetings_step_pair.
  destruct (is_object v); rewrite IH; simpl; lia.
Qed.

(** The first loop reads the clock once for each record it keeps. *)
Lemma meetings_loop_reads clk rawData :
  snd (meetings_loop clk rawData) = length (object_records rawData).
Proof. unfold meetings_loop; now rewrite meetings_step_reads. Qed.

Lemma meetings_step_agree clk1 clk2 l d n :
  (forall i, (n <= i < n + length (filter (fun e => is_object (snd e)) l))%nat ->
             clk1 i = clk2 i) ->
  fold_left (meetings_step clk1) l (d, n)
  = fold_left (meetings_step clk2) l (d, n).
Proof.
  revert d n; induction l as [|[k v] l IH]; cbn [fold_left filter snd];
    intros d n H; [reflexivity|].
  rewrite !meetings_step_pair.
  destruct (is_object v); simpl in H.
  - rewrite (H n) by lia; apply IH; intros i Hi; apply H; lia.
  - apply IH, H.
Qed.

(** C9.  Two builds from the same raw input whose clocks agree on the
    readings taken for the meetings (the load time is fixed) yield the same
    Meetings, Documents and Transcripts maps; only [lastUpdated], the
    reading taken after them, may differ. *)
Theorem rebuild_same_maps clk1 clk2 rawData parsePanels :
  (forall i, (i < length (object_records rawData))%nat -> clk1 i = clk2 i) ->
  let first := parseCacheData clk1 rawData parsePanels in
  let second := parseCacheData clk2 rawData parsePanels in
  meetings first = meetings second
  /\ documents first = documents second
  /\ transcripts first = transcripts second
  /\ lastUpdated first = Some (clk1 (length (object_records rawData)))
  /\ lastUpdated second = Some (clk2 (length (object_records rawData))).
Proof.
  intros H; cbv zeta.
  assert (E : meetings_loop clk1 rawData = meetings_loop clk2 rawData).
  { apply meetings_step_agree; intros i Hi; apply H.
    unfold object_records; lia. }
  rewrite !parse_meetings, !parse_documents, !parse_transcripts,
    !parse_lastUpdated, !meetings_loop_reads, E.
  repeat split.
Qed.
End ClockFacts.

(** Two builds of the sample input, the second of which reads a later time
    for [lastUpdated]. *)
Lemma rebuild_same_maps_witness :
  let first := parseCacheData (host := sample_host) (still_clock 7)
                 sample_rawData true in
  let second := parseCacheData (host := sample_host) (clock_then 2 7 9)
                  sample_rawData true in
  meetings first = meetings second
  /\ documents first = documents second
  /\ transcripts first = transcripts second
  /\ lastUpdated first = Some 7%Z
  /\ lastUpdated second = Some 9%Z.
Proof.
  apply (rebuild_same_maps (host := sample_host) (still_clock 7)
           (clock_then 2 7 9) sample_rawData true).
  intros i Hi; vm_compute in Hi.
  destruct i as [|[|i]]; [reflexivity | reflexivity | lia].
Defined.

(** ** Sorting by a key, descending *)

Section SortFacts.
Variable A : Type.
Variable key : A -> Z.

#[local] Abbreviation by_key_desc := (fun a b : A => (key b - key a)%Z).






End SortFacts.

(** ** Slicing *)



(** ** Search *)

Section SearchFacts.
Context {host : Host}.





Lemma meetings_step_keys clk l d n :
  js_ordered (dict_keys d ++ dict_keys l) ->
  dict_keys (fst (fold_left (meetings_step clk) l (d, n)))
  = dict_keys d
    ++ dict_keys (filter (fun e => is_object (snd e)) l).
Proof.
  revert d n; induction l as [|[k v] l IH]; cbn [fold_left filter snd];
    intros d n Ho; [simpl; now rewrite app_nil_r|].
  rewrite meetings_step_pair; destruct (is_object v).
  - assert (E : dict_set d k (build_meeting (clk n) k v)
                = d ++ [(k, build_meeting (clk n) k v)]).
    { apply dict_set_snoc.
      apply js_ordered_app_l with (l' := dict_keys l).
      now rewrite <- app_assoc. }
    rewrite E, IH.
    + unfold dict_keys; rewrite map_app, <- app_assoc; reflexivity.
    + unfold dict_keys in *; rewrite map_app, <- app_assoc; exact Ho.
  - apply IH.
    destruct Ho as [Hs Hnd]; split; [|eapply NoDup_remove_1; eauto].
    clear -Hs; induction d as [|a d IHd]; simpl in *;
      inversion Hs as [|? ? Hs' Ha]; subst; [assumption|].
    constructor; [auto|].
    rewrite Forall_forall in *; intros y Hy; apply Ha.
    apply in_app_iff in Hy as [?|?]; apply in_app_iff; simpl; auto.
Qed.

(** The [meetings] map lists the meetings in the order they were inserted:
    the order of the raw records that are objects. *)
Lemma meetings_insertion_order clk rawData parsePanels :
  dict_keys (meetings (parseCacheData clk rawData parsePanels))
  = dict_keys (object_records rawData).
Proof.
  rewrite parse_meetings; unfold meetings_loop.
  rewrite meetings_step_keys; [reflexivity|].
  apply entries_of_ordered.
Qed.

End SearchFacts.

(** ** Counting in a dictionary *)



Lemma fold_count_up_keys (keys : list jsstring) (counts : dict Z)
    (k : jsstring) :
  In k (dict_keys (fold_left count_up keys counts))
  <-> In k keys \/ In k (dict_keys counts).
Proof.
  revert counts; induction keys as [|x keys IH]; intros counts; simpl;
    [tauto|].
  rewrite IH; unfold count_up; rewrite In_keys_set; intuition.
Qed.

Lemma fold_count_up_ordered (keys : list jsstring) (counts : dict Z) :
  js_ordered (dict_keys counts) ->
  js_ordered (dict_keys (fold_left count_up keys counts)).
Proof.
  revert counts; induction keys as [|x keys IH]; intros counts H;
    [assumption|].
  simpl; apply IH; unfold count_up; now apply js_ordered_set.
Qed.

(** The table has one entry for each distinct key. *)
Lemma fold_count_up_length (keys : list jsstring) :
  length (dict_keys (fold_left count_up keys []))
  = length (nodup str_eq_dec keys).
Proof.
  apply Permutation_length, NoDup_Permutation.
  - apply fold_count_up_ordered, js_ordered_nil.
  - apply NoDup_nodup.
  - intros k; rewrite fold_count_up_keys, nodup_In; simpl; tauto.
Qed.

(** ** Months and their keys *)


(** The year of a time value is the one whose days hold its day. *)
Lemma YearFromTime_spec (t : Z) :
  (DayFromYear (YearFromTime t) <= Day t
   < DayFromYear (YearFromTime t + 1))%Z.
Proof.
  unfold YearFromTime; generalize (Day t) as d; intros d.
  set (y := (1970 + 400 * d / 146097)%Z).
  assert (Hy : (DayFromYear (y - 1) <= d < DayFromYear (y + 2))%Z).
  { unfold DayFromYear, y; Z.to_euclidean_division_equations; lia. }
  destruct (DayFromYear (y + 1) <=? d)%Z eqn:E1.
  - apply Z.leb_le in E1; replace (y + 1 + 1)%Z with (y + 2)%Z by lia; lia.
  - apply Z.leb_gt in E1; destruct (DayFromYear y <=? d)%Z eqn:E2.
    + apply Z.leb_le in E2; lia.
    + apply Z.leb_gt in E2; replace (y - 1 + 1)%Z with y by lia; lia.
Qed.

Ltac leap_step :=
  match goal with
  | |- context [(?y mod ?k =? 0)%Z] =>
      let E := fresh "E" in
      destruct (y mod k =? 0)%Z eqn:E; rewrite ?Z.eqb_eq, ?Z.eqb_neq in E;
      Z.to_euclidean_division_equations; lia
  end.

Lemma leap_step_4 (y : Z) :
  ((y + 1 - 1969) / 4
   = (y - 1969) / 4 + (if y mod 4 =? 0 then 1 else 0))%Z.
Proof. leap_step. Qed.

Lemma leap_step_100 (y : Z) :
  ((y + 1 - 1901) / 100
   = (y - 1901) / 100 + (if y mod 100 =? 0 then 1 else 0))%Z.
Proof. leap_step. Qed.

Lemma leap_step_400 (y : Z) :
  ((y + 1 - 1601) / 400
   = (y - 1601) / 400 + (if y mod 400 =? 0 then 1 else 0))%Z.
Proof. leap_step. Qed.

Lemma mod_of_multiple (y n m : Z) :
  (n | m)%Z -> (y mod m = 0)%Z -> (y mod n = 0)%Z.
Proof.
  intros Hd H; rewrite <- (Z.mod_mod_divide y m n Hd), H.
  apply Zmod_0_l.
Qed.

(** A year has [DaysInYear] days. *)
Lemma DayFromYear_succ (y : Z) :
  (DayFromYear (y + 1) = DayFromYear y + DaysInYear y)%Z.
Proof.
  unfold DayFromYear, DaysInYear.
  rewrite leap_step_4, leap_step_100, leap_step_400.
  destruct (y mod 4 =? 0)%Z eqn:E4; destruct (y mod 100 =? 0)%Z eqn:E100;
    destruct (y mod 400 =? 0)%Z eqn:E400; cbn [andb negb orb];
    rewrite ?Z.eqb_eq, ?Z.eqb_neq in *; try lia; exfalso;
    first
      [ apply E100, (@mod_of_multiple y 100 400)%Z;
        [now exists 4%Z | assumption]
      | apply E4, (@mod_of_multiple y 4 100)%Z;
        [now exists 25%Z | assumption]
      | apply E4, (@mod_of_multiple y 4 400)%Z;
        [now exists 100%Z | assumption] ].
Qed.

(** The day within the year counts from 0 to the last day of the year, so
    that the cases of [MonthFromTime] cover it. *)
Lemma DayWithinYear_range (t : Z) :
  (0 <= DayWithinYear t < DaysInYear (YearFromTime t))%Z.
Proof.
  unfold DayWithinYear; pose proof (YearFromTime_spec t) as H.
  rewrite DayFromYear_succ in H; lia.
Qed.








Section InjectiveOn.
Variables (B : Type) (decB : forall a b : B, {a = b} + {a <> b}).
Variable label : B -> jsstring.
Variable ok : B -> Prop.
Hypothesis label_inj : forall a b, ok a -> ok b -> label a = label b -> a = b.


End InjectiveOn.

(** ** Frequency of meetings *)

Lemma fold_left_map_step (S B C : Type) (g : S -> C -> S) (f : B -> C)
    (l : list B) (s : S) :
  fold_left (fun acc x => g acc (f x)) l s = fold_left g (map f l) s.
Proof.
  revert s; induction l as [|x l IH]; simpl; intros s; [reflexivity|].
  apply IH.
Qed.




Section FrequencyFacts.
Context {host : Host}.


Lemma byMonth_fold (ms : list MeetingMetadata.t) :
  FrequencyAnalysis.byMonth (analyzeFrequencyPatterns ms)
  = fold_left count_up
      (map month_label (map (fun m => month_of (MeetingMetadata.date m)) ms))
      [].
Proof.
  unfold analyzeFrequencyPatterns; cbn [FrequencyAnalysis.byMonth].
  rewrite map_map.
  apply (fold_left_map_step count_up
           (fun m => month_key (MeetingMetadata.date m))).
Qed.


End FrequencyFacts.

(** ** Topics of the titles *)

Section TopicFacts.
Context {host : Host}.





End TopicFacts.

(** ** The scenarios of the specification *)

Section Scenarios.
#[local] Existing Instance sample_host.


(** The notes of a meeting are not searched: [roadmap] occurs in the notes
    of the sample record only, and finds nothing; [Q1] occurs in its title,
    which scores 2, and in its transcript. *)
Example search_sample_scores :
  let scores results :=
    map (fun r => (score r, MeetingMetadata.id (meeting r))) results in
  let data := parseCacheData (still_clock 0) sample_rawData true in
  let alone :=
    parseCacheData (still_clock 0)
      (JObj [(lit "documents", JObj [(lit "m1", sample_record)])]) true in
  searchMeetings data (lit "roadmap") (num_of_Z 10) = []
  /\ searchMeetings alone (lit "roadmap") (num_of_Z 10) = []
  /\ scores (searchMeetings alone (lit "Q1") (num_of_Z 10))
     = [(2%Z, lit "m1")]
  /\ scores (searchMeetings data (lit "Q1") (num_of_Z 10))
     = [(3%Z, lit "m1")]
  /\ scores (searchMeetings data (lit "ada") (num_of_Z 10))
     = [(2%Z, lit "m2"); (1%Z, lit "m1")].
Proof. vm_compute; repeat split. Qed.

(** The sample cache stores the transcript of [m1], trimmed, and a document
    for each of its two meetings. *)
Example sample_cache_contents :
  let data := parseCacheData (host := sample_host) (still_clock 0)
                sample_rawData true in
  option_map MeetingTranscript.content
    (dict_get (transcripts data) (lit "m1")) = Some (lit "We plan Q1.")
  /\ dict_keys (transcripts data) = [lit "m1"]
  /\ dict_keys (meetings data) = [lit "m1"; lit "m2"]
  /\ dict_keys (documents data) = [lit "m1"; lit "m2"].
Proof. vm_compute; repeat split. Qed.

(** The topics of the two titles of the specification. *)
Example topics_sample :
  let meeting_titled title :=
    build_meeting (host := sample_host) 0 (lit "m")
      (JObj [(lit "title", JStr title)]) in
  TopicAnalysis.topics
    (analyzeTopicPatterns (host := sample_host)
       [meeting_titled (lit "Q1 Planning Sync");
        meeting_titled (lit "Q1 Roadmap Review")])
  = [(lit "planning", 1%Z); (lit "roadmap", 1%Z); (lit "review", 1%Z)].
Proof. vm_compute; reflexivity. Qed.

(** Two meetings of January 2024. *)
Example frequency_sample :
  let meeting_dated created_at :=
    build_meeting (host := sample_host) 0 (lit "m")
      (JObj [(lit "created_at", JStr created_at)]) in
  analyzeFrequencyPatterns
    [meeting_dated (lit "2024-01-15T10:00:00Z");
     meeting_dated (lit "2024-01-31T23:59:59Z")]
  = {| FrequencyAnalysis.meetingCount := 2;
       FrequencyAnalysis.byMonth := [(lit "2024-01", 2%Z)];
       FrequencyAnalysis.averagePerMonth := Fin (2 # 1) |}.
Proof. vm_compute; reflexivity. Qed.
End Scenarios.

(** ** Commands *)


Section CommandFacts.
Context {host : Host}.


Lemma truthy_nonempty (s : jsstring) : s <> [] -> truthy_str s = true.
Proof. destruct s; [congruence | reflexivity]. Qed.


End CommandFacts.



(** ** The flatteners *)

Lemma member_map_fold (R : Type) (name : jsstring) (f : json -> R)
    (members : list (jsstring * json)) (d : dict json) :
  member_map name f members (option_map f (dict_get d name))
  = option_map f
      (dict_get
         (fold_left (fun d kv => dict_set d (fst kv) (snd kv)) members d)
         name).
Proof.
  revert d; induction members as [|[k v] ms IH]; intros d; [reflexivity|].
  cbn [member_map fold_left fst snd]; rewrite <- IH, dict_get_set.
  rewrite (str_eqb_sym name k); now destruct (str_eqb k name).
Qed.

(** [member_map] reads the member [obj_get] reads. *)
Lemma member_map_obj_get (R : Type) (name : jsstring) (f : json -> R)
    (members : list (jsstring * json)) :
  member_map name f members None = option_map f (obj_get members name).
Proof. apply (member_map_fold name f members []). Qed.

Lemma member_map_In (R : Type) (name : jsstring) (f : json -> R)
    (members : list (jsstring * json)) (found : option R) (r : R) :
  member_map name f members found = Some r ->
  found = Some r \/ exists v, In (name, v) members /\ r = f v.
Proof.
  revert found; induction members as [|[k v] ms IH]; intros found; simpl;
    [auto|].
  intros H; apply IH in H as [H|(v' & Hin & ->)]; [|eauto].
  destruct (str_eqb k name) eqn:E; [|auto].
  apply str_eqb_eq in E; subst; injection H as <-; eauto.
Qed.

Lemma obj_get_In (members : list (jsstring * json)) (name : jsstring)
    (v : json) :
  obj_get members name = Some v -> In (name, v) members.
Proof.
  intros H.
  pose proof (member_map_obj_get name (fun x => x) members) as E.
  rewrite H in E; simpl in E.
  apply member_map_In in E as [E|(v' & Hin & ->)]; [discriminate | exact Hin].
Qed.

Lemma fold_max_In (l : list nat) (n : nat) :
  In n l -> (n <= fold_right Nat.max 0 l)%nat.
Proof.
  induction l as [|x l IH]; simpl; [tauto|].
  intros [->|H]; [lia | specialize (IH H); lia].
Qed.

Lemma item_depth (items : list json) (item : json) :
  In item items -> (json_depth item < json_depth (JArr items))%nat.
Proof.
  intros H; simpl; apply Nat.lt_succ_r, fold_max_In.
  now apply in_map.
Qed.

(** A member of an object is less deep than the object. *)
Lemma member_depth (members : list (jsstring * json)) (name : jsstring)
    (v : json) :
  obj_get members name = Some v ->
  (json_depth v < json_depth (JObj members))%nat.
Proof.
  intros H; apply obj_get_In in H; simpl; apply Nat.lt_succ_r, fold_max_In.
  apply in_map_iff; exists (name, v); auto.
Qed.







(** * Further properties *)

(** ** The flags and the options of the command line *)

Lemma existsb_str_eqb (x : jsstring) (l : list jsstring) :
  existsb (str_eqb x) l = true <-> In x l.
Proof.
  rewrite existsb_exists; split.
  - intros (y & Hy & E); apply str_eqb_eq in E; now subst.
  - intros H; exists x; split; [assumption | apply str_eqb_refl].
Qed.

Lemma takeFlag_absent (flag : jsstring) (argv : list jsstring) :
  ~ In flag argv -> takeFlag flag argv = (false, argv).
Proof.
  induction argv as [|a argv IH]; simpl; intros H; [reflexivity|].
  destruct (str_eqb a flag) eqn:E; [apply str_eqb_eq in E; tauto|].
  rewrite IH by tauto; reflexivity.
Qed.

Lemma takeFlag_first (flag : jsstring) (before after : list jsstring) :
  ~ In flag before ->
  takeFlag flag (before ++ flag :: after) = (true, before ++ after).
Proof.
  induction before as [|a before IH]; simpl; intros H.
  - now rewrite str_eqb_refl.
  - destruct (str_eqb a flag) eqn:E; [apply str_eqb_eq in E; tauto|].
    rewrite IH by tauto; reflexivity.
Qed.

Section FlagFacts.
Context {host : Host}.

(** X1.  The flag [--json] may stand anywhere after the command, also
    between an option and its value: it is taken out before the options are
    read, and it changes nothing but the way the result is printed. *)
Theorem json_flag_anywhere clk (command : jsstring)
    (before after : list jsstring) :
  ~ In (lit "--json") before -> ~ In (lit "--json") after ->
  main clk (command :: before ++ lit "--json" :: after)
  = as_json (main clk (command :: before ++ after)).
Proof.
  intros Hb Ha; unfold main.
  assert (Hhelp : forall x, x <> lit "--json" ->
            existsb (str_eqb x) (command :: before ++ lit "--json" :: after)
            = existsb (str_eqb x) (command :: before ++ after)).
  { intros x Hx; cbn [existsb]; rewrite !existsb_app; cbn [existsb].
    apply str_eqb_neq in Hx; now rewrite Hx. }
  rewrite !Hhelp by discriminate.
  destruct (existsb (str_eqb (lit "-h")) _ || existsb (str_eqb (lit "--help")) _);
    [reflexivity|].
  rewrite takeFlag_first by assumption.
  rewrite (@takeFlag_absent (lit "--json") (before ++ after))
    by (rewrite in_app_iff; tauto).
  destruct (takeFlag (lit "--no-panels") (before ++ after)) as [noPanels argv].
  destruct (args_loop argv []) as [argsMap|e]; [|reflexivity].
  destruct (run_command clk (normalizeCommand command) (negb noPanels) argsMap)
    as [[]|e]; reflexivity.
Qed.
End FlagFacts.

Lemma startsWith_app (p s : jsstring) : startsWith (p ++ s) p = true.
Proof.
  induction p as [|c p IH]; simpl; [now destruct s|].
  now rewrite N.eqb_refl.
Qed.

Lemma startsWith_split (s p : jsstring) :
  startsWith s p = true -> s = p ++ skipn (length p) s.
Proof.
  revert s; induction p as [|c p IH]; intros s; [reflexivity|].
  destruct s as [|x s]; simpl; [discriminate|].
  intros H; apply andb_true_iff in H as [Hc Hs].
  apply N.eqb_eq in Hc; subst; f_equal; auto.
Qed.



Lemma args_loop_options (pairs : list (jsstring * jsstring))
    (rest : list jsstring) (d : dict jsstring) :
  Forall (fun p => value_ok (snd p) = true) pairs ->
  args_loop (option_args pairs ++ rest) d
  = args_loop rest (fold_left (fun d p => dict_set d (fst p) (snd p)) pairs d).
Proof.
  intros H; revert d; induction H as [|[name v] pairs Hv _ IH]; intros d;
    [reflexivity|].
  cbn [option_args flat_map fst snd app] in *.
  change (flat_map _ pairs) with (option_args pairs).
  cbn [args_loop]; rewrite startsWith_app; cbn [negb].
  unfold value_ok in Hv; apply andb_true_iff in Hv as [Hv1 Hv2].
  rewrite Hv1; apply negb_true_iff in Hv2; rewrite Hv2; cbn [negb orb].
  rewrite IH; reflexivity.
Qed.

Lemma args_loop_accepted (n : nat) :
  forall (argv : list jsstring) (d m : dict jsstring),
    (length argv <= n)%nat -> args_loop argv d = Ok m ->
    exists pairs,
      argv = option_args pairs
      /\ Forall (fun p => value_ok (snd p) = true) pairs.
Proof.
  induction n as [|n IH]; intros argv d m Hn H.
  - destruct argv; [|simpl in Hn; lia].
    exists []; split; [reflexivity | constructor].
  - destruct argv as [|a [|v rest]]; cbn [args_loop] in H.
    + exists []; split; [reflexivity | constructor].
    + destruct (startsWith a (lit "--")); discriminate.
    + destruct (startsWith a (lit "--")) eqn:Ea; [|discriminate].
      cbn [negb] in H.
      destruct (negb (truthy_str v) || startsWith v (lit "--")) eqn:Ev;
        [discriminate|].
      apply IH in H as (pairs & -> & Hp); [|simpl in Hn; lia].
      exists ((skipn 2 a, v) :: pairs); split.
      * pose proof (startsWith_split a (lit "--") Ea) as Es.
        change (length (lit "--")) with 2%nat in Es.
        cbn [option_args flat_map fst snd app]; now rewrite <- Es.
      * constructor; [|assumption].
        apply orb_false_iff in Ev as [Ev1 Ev2]; unfold value_ok; cbn [snd].
        apply negb_false_iff in Ev1; now rewrite Ev1, Ev2.
Qed.



(** X3.  The argument loop stops at the first argument out of place: one
    that is no option where an option is due, or an option that is last or
    followed by an empty argument or by another option.  It accepts nothing
    but options with their values. *)
Theorem malformed_options (pairs : list (jsstring * jsstring))
    (a : jsstring) (rest : list jsstring) :
  Forall (fun p => value_ok (snd p) = true) pairs ->
  (startsWith a (lit "--") = false ->
   args_loop (option_args pairs ++ a :: rest) []
   = Throw (Error (lit "Unexpected argument: " ++ a)))
  /\ (startsWith a (lit "--") = true -> value_ok (hd [] rest) = false ->
      args_loop (option_args pairs ++ a :: rest) []
      = Throw (Error (lit "Missing value for " ++ a)))
  /\ (forall argv argsMap,
        args_loop argv [] = Ok argsMap ->
        exists pairs',
          argv = option_args pairs'
          /\ Forall (fun p => value_ok (snd p) = true) pairs').
Proof.
  intros H; split; [|split].
  - intros Ha; rewrite args_loop_options by assumption.
    cbn [args_loop]; now rewrite Ha.
  - intros Ha Hv; rewrite args_loop_options by assumption.
    cbn [args_loop]; rewrite Ha; cbn [negb].
    destruct rest as [|v rest]; [reflexivity|].
    cbn [hd] in Hv; unfold value_ok in Hv.
    destruct (truthy_str v), (startsWith v (lit "--")); try discriminate;
      reflexivity.
  - intros argv argsMap E.
    apply (@args_loop_accepted (length argv) argv [] argsMap (le_n _) E).
Qed.

(** ** The name of the command and the usage text *)

Lemma In_trimStart_inv (s : jsstring) (c : N) : In c (trimStart s) -> In c s.
Proof.
  induction s as [|x s IH]; simpl; [tauto|].
  destruct (is_space x); simpl; tauto.
Qed.

Lemma In_trim_inv (s : jsstring) (c : N) : In c (trim s) -> In c s.
Proof.
  unfold trim, trimEnd; intros H.
  apply in_rev, In_trimStart_inv, in_rev, In_trimStart_inv in H; exact H.
Qed.

Lemma is_ascii_trim (s : jsstring) : is_ascii s = true -> is_ascii (trim s) = true.
Proof.
  unfold is_ascii; rewrite !forallb_forall.
  intros H c Hc; apply H, In_trim_inv, Hc.
Qed.

Section CommandNames.
Context {host : Host}.

Lemma search_command_result data (argsMap : dict jsstring) :
  search_command data argsMap <> Ok Usage.
Proof.
  unfold search_command, search_checked.
  destruct (negb _); [discriminate|].
  destruct (isNaN _ || le_zero _); discriminate.
Qed.

Lemma details_command_result data (argsMap : dict jsstring) :
  details_command data argsMap <> Ok Usage.
Proof.
  unfold details_command.
  destruct (negb _); [discriminate|].
  destruct (dict_get (meetings data) _); discriminate.
Qed.

Lemma transcript_command_result data (argsMap : dict jsstring) :
  transcript_command data argsMap <> Ok Usage.
Proof.
  unfold transcript_command.
  destruct (negb _); [discriminate|].
  destruct (dict_get (transcripts data) _); discriminate.
Qed.

Lemma documents_command_result data (argsMap : dict jsstring) :
  documents_command data argsMap <> Ok Usage.
Proof.
  unfold documents_command.
  destruct (negb _); [discriminate|].
  destruct (documents_of data _); discriminate.
Qed.

Lemma patterns_command_result data (argsMap : dict jsstring) :
  patterns_command data argsMap <> Ok Usage.
Proof.
  unfold patterns_command.
  destruct (negb (truthy_str _)); [discriminate|].
  destruct (negb (existsb _ _)); [discriminate|].
  destruct (parseDateRange _ _); [|discriminate].
  destruct (str_eqb _ (lit "participants")); [discriminate|].
  destruct (str_eqb _ (lit "frequency")); discriminate.
Qed.

(** Only a name that is none of the five commands reaches the usage text. *)
Lemma dispatch_usage (command : jsstring) data (argsMap : dict jsstring) :
  dispatch command data argsMap = Ok Usage <-> ~ In command command_names.
Proof.
  unfold dispatch, command_names.
  destruct (str_eqb command (lit "search-meetings")) eqn:E1.
  { apply str_eqb_eq in E1; split;
      [intros H; now apply search_command_result in H|].
    intros H; exfalso; apply H; subst command; simpl; auto 10. }
  destruct (str_eqb command (lit "get-meeting-details")) eqn:E2.
  { apply str_eqb_eq in E2; split;
      [intros H; now apply details_command_result in H|].
    intros H; exfalso; apply H; subst command; simpl; auto 10. }
  destruct (str_eqb command (lit "get-meeting-transcript")) eqn:E3.
  { apply str_eqb_eq in E3; split;
      [intros H; now apply transcript_command_result in H|].
    intros H; exfalso; apply H; subst command; simpl; auto 10. }
  destruct (str_eqb command (lit "get-meeting-documents")) eqn:E4.
  { apply str_eqb_eq in E4; split;
      [intros H; now apply documents_command_result in H|].
    intros H; exfalso; apply H; subst command; simpl; auto 10. }
  destruct (str_eqb command (lit "analyze-meeting-patterns")) eqn:E5.
  { apply str_eqb_eq in E5; split;
      [intros H; now apply patterns_command_result in H|].
    intros H; exfalso; apply H; subst command; simpl; auto 10. }
  apply str_eqb_neq in E1, E2, E3, E4, E5.
  split; [intros _ | reflexivity].
  simpl; intros [H|[H|[H|[H|[H|[]]]]]]; congruence.
Qed.

(** X4.  The usage text is shown with exit code 0 exactly when there is no
    argument or one of them, wherever it stands, is [-h] or [--help]; it is
    shown with exit code 2 only for a command name that is none of the five,
    and with no other code; and a result is printed only for one of the five
    commands. *)
Theorem usage_exit_codes clk (args : list jsstring) :
  (main clk args = ShowUsage 0
   <-> args = [] \/ In (lit "-h") args \/ In (lit "--help") args)
  /\ (main clk args = ShowUsage 2 ->
      exists first argv,
        args = first :: argv
        /\ ~ In (normalizeCommand first) command_names)
  /\ (forall exitCode,
        main clk args = ShowUsage exitCode -> exitCode = 0%Z \/ exitCode = 2%Z)
  /\ (forall jsonOutput timezone o,
        main clk args = Printed jsonOutput timezone o ->
        exists first argv,
          args = first :: argv
          /\ In (normalizeCommand first) command_names).
Proof.
  unfold main; destruct args as [|first argv].
  { split; [split; auto|]; split; [discriminate|].
    split; [intros c [= <-]; now left | discriminate]. }
  destruct (existsb (str_eqb (lit "-h")) (first :: argv)) eqn:Eh.
  { apply existsb_str_eqb in Eh; cbn [orb].
    split; [split; auto|]; split; [discriminate|].
    split; [intros c [= <-]; now left | discriminate]. }
  destruct (existsb (str_eqb (lit "--help")) (first :: argv)) eqn:Eh'.
  { apply existsb_str_eqb in Eh'; cbn [orb].
    split; [split; auto|]; split; [discriminate|].
    split; [intros c [= <-]; now left | discriminate]. }
  cbn [orb].
  assert (Hno : ~ (first :: argv = [] \/ In (lit "-h") (first :: argv)
                   \/ In (lit "--help") (first :: argv))).
  { intros [H|[H|H]]; [discriminate| |]; apply existsb_str_eqb in H;
      congruence. }
  destruct (takeFlag (lit "--json") argv) as [jsonOutput argv1].
  destruct (takeFlag (lit "--no-panels") argv1) as [noPanels argv2].
  destruct (args_loop argv2 []) as [argsMap|e].
  2:{ split; [split; [discriminate | tauto]|].
      split; [discriminate|]; split; discriminate. }
  unfold run_command.
  destruct (loadCache clk (cache_path argsMap) (negb noPanels)) as [data|e].
  2:{ split; [split; [discriminate | tauto]|].
      split; [discriminate|]; split; discriminate. }
  destruct (dispatch (normalizeCommand first) data argsMap) as [o|e] eqn:Ed.
  2:{ split; [split; [discriminate | tauto]|].
      split; [discriminate|]; split; discriminate. }
  assert (Hknown : o <> Usage -> In (normalizeCommand first) command_names).
  { intros Ho.
    destruct (in_dec str_eq_dec (normalizeCommand first) command_names)
      as [H|H]; [exact H|].
    apply (dispatch_usage (normalizeCommand first) data argsMap) in H.
    congruence. }
  destruct o;
    try (split; [split; [discriminate | tauto]|];
         split; [discriminate|]; split; [discriminate|];
         intros j tz o' _; exists first, argv; split; [reflexivity|];
         apply Hknown; discriminate).
  apply dispatch_usage in Ed.
  split; [split; [discriminate | tauto]|].
  split; [intros _; eauto|].
  split; [intros c [= <-]; now right | discriminate].
Qed.

(** X5.  Where the host lower-cases ASCII text as ECMAScript does, a command
    may be spelled with underscores for hyphens, in upper case, and with
    white space around it: every ASCII spelling that normalizes to the name
    of a command runs that command. *)
Theorem command_spellings clk (spelling name : jsstring)
    (argv : list jsstring) :
  (forall s, is_ascii s = true -> toLowerCase s = map ascii_lower s) ->
  In name command_names ->
  is_ascii spelling = true ->
  hyphenate (map ascii_lower (trim spelling)) = name ->
  main clk (spelling :: argv) = main clk (name :: argv).
Proof.
  intros Hhost Hname Hs Hn.
  assert (E1 : normalizeCommand spelling = name).
  { unfold normalizeCommand; rewrite Hhost by now apply is_ascii_trim.
    exact Hn. }
  assert (E2 : normalizeCommand name = name).
  { unfold normalizeCommand, command_names in *.
    simpl in Hname;
      destruct Hname as [<-|[<-|[<-|[<-|[<-|[]]]]]];
      (rewrite Hhost by reflexivity); vm_compute; reflexivity. }
  assert (Hx : forall x, In x [lit "-h"; lit "--help"] ->
                 str_eqb x spelling = false /\ str_eqb x name = false).
  { intros x Hx; split; apply str_eqb_neq; intros ->.
    - revert Hname; rewrite <- Hn; unfold command_names.
      simpl in Hx; destruct Hx as [<-|[<-|[]]]; vm_compute;
        intros [H|[H|[H|[H|[H|[]]]]]]; discriminate.
    - revert Hname; unfold command_names.
      simpl in Hx; destruct Hx as [<-|[<-|[]]]; vm_compute;
        intros [H|[H|[H|[H|[H|[]]]]]]; discriminate. }
  unfold main; cbn [existsb].
  destruct (Hx (lit "-h") (or_introl eq_refl)) as [-> ->].
  destruct (Hx (lit "--help") (or_intror (or_introl eq_refl))) as [-> ->].
  now rewrite E1, E2.
Qed.
End CommandNames.

(** ** Trimming twice *)

Lemma trimStart_idem (s : jsstring) : trimStart (trimStart s) = trimStart s.
Proof.
  induction s as [|c s IH]; simpl; [reflexivity|].
  destruct (is_space c) eqn:E; [assumption|].
  simpl; now rewrite E.
Qed.

Lemma trimStart_head (s t : jsstring) (c : N) :
  trimStart s = c :: t -> is_space c = false.
Proof.
  induction s as [|x s IH]; simpl; [discriminate|].
  destruct (is_space x) eqn:E; [assumption|].
  intros [= <- _]; exact E.
Qed.

Lemma trimStart_app_keep (l r : jsstring) (c : N) :
  is_space c = false -> trimStart (l ++ c :: r) = trimStart l ++ c :: r.
Proof.
  intros Hc; induction l as [|x l IH]; simpl; [now rewrite Hc|].
  now destruct (is_space x).
Qed.

Lemma trimEnd_cons_keep (c : N) (s : jsstring) :
  is_space c = false -> trimEnd (c :: s) = c :: trimEnd s.
Proof.
  intros Hc; unfold trimEnd; simpl rev.
  rewrite trimStart_app_keep by assumption.
  now rewrite rev_app_distr.
Qed.

Lemma trimEnd_idem (s : jsstring) : trimEnd (trimEnd s) = trimEnd s.
Proof. unfold trimEnd; now rewrite rev_involutive, trimStart_idem. Qed.

(** A trimmed string has nothing left to trim. *)
Lemma trim_trim (s : jsstring) : trim (trim s) = trim s.
Proof.
  unfold trim; destruct (trimStart s) as [|c t] eqn:E; [reflexivity|].
  apply trimStart_head in E.
  rewrite trimEnd_cons_keep by assumption.
  cbn [trimStart]; rewrite E.
  now rewrite <- trimEnd_cons_keep, trimEnd_idem by assumption.
Qed.

Lemma trim_nonblank (s : jsstring) : blank s = false -> trim s <> [].
Proof. intros H E; apply trim_nil in E; congruence. Qed.

(** ** The three maps of a built cache *)

Section SetStepKeys.
Variables A B : Type.
Variable f : jsstring -> A -> option B.

(** A loop that sets the keys of its input in enumeration order appends
    them. *)
Lemma fold_set_step_keys (l : dict A) (d : dict B) :
  js_ordered (dict_keys d ++ dict_keys l) ->
  dict_keys (fold_left (set_step f) l d)
  = dict_keys d
    ++ dict_keys
         (filter (fun e => match f (fst e) (snd e) with
                           | Some _ => true
                           | None => false
                           end) l).
Proof.
  revert d; induction l as [|[k v] l IH]; cbn [fold_left filter fst snd];
    intros d Ho; [simpl; now rewrite app_nil_r|].
  change (set_step f d (k, v))
    with (match f k v with Some x => dict_set d k x | None => d end).
  destruct (f k v) as [x|].
  - assert (E : dict_set d k x = d ++ [(k, x)]).
    { apply dict_set_snoc.
      apply js_ordered_app_l with (l' := dict_keys l).
      now rewrite <- app_assoc. }
    rewrite E, IH.
    + unfold dict_keys; rewrite map_app, <- app_assoc; reflexivity.
    + unfold dict_keys in *; rewrite map_app, <- app_assoc; exact Ho.
  - apply IH.
    destruct Ho as [Hs Hnd]; split; [|eapply NoDup_remove_1; eauto].
    clear -Hs; induction d as [|a d IHd]; simpl in *;
      inversion Hs as [|? ? Hs' Ha]; subst; [assumption|].
    constructor; [auto|].
    rewrite Forall_forall in *; intros y Hy; apply Ha.
    apply in_app_iff in Hy as [?|?]; apply in_app_iff; simpl; auto.
Qed.
End SetStepKeys.

Section BuiltMaps.
Context {host : Host}.

(** What the first loop leaves under a key: the meeting built from the raw
    record of that key, with one of the readings of the clock. *)
Lemma meetings_fold_get clk (l : dict json) :
  NoDup (dict_keys l) ->
  forall (d : dict MeetingMetadata.t) (n : nat) (k : jsstring),
    let after := fst (fold_left (meetings_step clk) l (d, n)) in
    match dict_get l k with
    | Some v =>
        if is_object v
        then exists i,
               (n <= i < n + length (filter (fun e => is_object (snd e)) l))%nat
               /\ dict_get after k = Some (build_meeting (clk i) k v)
        else dict_get after k = dict_get d k
    | None => dict_get after k = dict_get d k
    end.
Proof.
  induction l as [|[k1 v1] l IH]; intros Hnd d n k; [reflexivity|].
  inversion Hnd as [|? ? Hk1 Hl]; subst.
  cbn [fold_left filter snd dict_get]; rewrite meetings_step_pair.
  destruct (str_eqb k k1) eqn:E.
  - apply str_eqb_eq in E; subst k1.
    apply dict_get_None in Hk1.
    destruct (is_object v1).
    + specialize (IH Hl (dict_set d k (build_meeting (clk n) k v1)) (S n) k).
      cbv zeta in IH; rewrite Hk1, dict_get_set_same in IH.
      exists n; split; [simpl; lia | exact IH].
    + specialize (IH Hl d n k); cbv zeta in IH; now rewrite Hk1 in IH.
  - destruct (is_object v1).
    + specialize (IH Hl (dict_set d k1 (build_meeting (clk n) k1 v1)) (S n) k).
      cbv zeta in IH; rewrite dict_get_set, E in IH.
      destruct (dict_get l k) as [v|]; [|exact IH].
      destruct (is_object v); [|exact IH].
      destruct IH as (i & Hi & IH); exists i; split; [simpl; lia | exact IH].
    + apply (IH Hl d n k).
Qed.

Lemma title_not_blank (now : Z) (k : jsstring) (v : json) :
  blank (MeetingMetadata.title (build_meeting now k v)) = false.
Proof.
  cbn [build_meeting MeetingMetadata.title].
  destruct (nonblank_string (prop v (lit "title"))) as [title|] eqn:E;
    [|reflexivity].
  now apply nonblank_string_Some in E.
Qed.

Lemma participants_not_blank (v : json) :
  Forall (fun p => blank p = false) (participants_of v).
Proof.
  unfold participants_of; apply Forall_forall; intros p Hp.
  apply filter_In in Hp as [_ Hp]; rewrite length_pos_truthy, truthy_trim in Hp.
  now apply negb_true_iff in Hp.
Qed.

(** The Meeting stored under an id, if any: the one built from the raw
    record of that id, which is an object, with one of the readings of the
    clock taken during the build. *)
Lemma meetings_get clk rawData parsePanels (meetingId : jsstring) :
  let data := parseCacheData clk rawData parsePanels in
  match dict_get (entries_of (rawDocuments_of rawData)) meetingId with
  | Some meetingRaw =>
      if is_object meetingRaw
      then exists i,
             (i < length (object_records rawData))%nat
             /\ dict_get (meetings data) meetingId
                = Some (build_meeting (clk i) meetingId meetingRaw)
      else dict_get (meetings data) meetingId = None
  | None => dict_get (meetings data) meetingId = None
  end.
Proof.
  cbv zeta; rewrite parse_meetings; unfold meetings_loop.
  pose proof (meetings_fold_get clk (entries_of (rawDocuments_of rawData))
                (entries_of_NoDup _) [] 0 meetingId) as H.
  cbv zeta in H; fold (object_records rawData) in H; unfold dict in H |- *.
  destruct (dict_get (entries_of (rawDocuments_of rawData)) meetingId)
    as [meetingRaw|]; [|exact H].
  destruct (is_object meetingRaw); [|exact H].
  destruct H as (i & Hi & H); exists i; split; [lia | exact H].
Qed.

Lemma meeting_of_object_record clk rawData parsePanels (meetingId : jsstring) :
  let data := parseCacheData clk rawData parsePanels in
  dict_get (meetings data) meetingId <> None
  <-> exists meetingRaw,
        dict_get (entries_of (rawDocuments_of rawData)) meetingId
        = Some meetingRaw
        /\ is_object meetingRaw = true.
Proof.
  cbv zeta.
  pose proof (meetings_get clk rawData parsePanels meetingId) as H.
  cbv zeta in H.
  destruct (dict_get (entries_of (rawDocuments_of rawData)) meetingId)
    as [meetingRaw|].
  - destruct (is_object meetingRaw) eqn:Eo.
    + destruct H as (i & _ & ->); split; [eauto | discriminate].
    + rewrite H; split; [congruence | intros (r & [= <-] & E); congruence].
  - rewrite H; split; [congruence | intros (r & [=] & _)].
Qed.

Lemma meeting_fields clk rawData parsePanels (meetingId : jsstring) m :
  dict_get (meetings (parseCacheData clk rawData parsePanels)) meetingId
  = Some m ->
  (exists meetingRaw i,
     dict_get (entries_of (rawDocuments_of rawData)) meetingId
     = Some meetingRaw
     /\ (i < length (object_records rawData))%nat
     /\ m = build_meeting (clk i) meetingId meetingRaw)
  /\ MeetingMetadata.id m = meetingId
  /\ blank (MeetingMetadata.title m) = false
  /\ Forall (fun p => blank p = false) (MeetingMetadata.participants m)
  /\ MeetingMetadata.meetingType m <> None
  /\ MeetingMetadata.duration m = None
  /\ MeetingMetadata.platform m = None.
Proof.
  pose proof (meetings_get clk rawData parsePanels meetingId) as H.
  cbv zeta in H.
  destruct (dict_get (entries_of (rawDocuments_of rawData)) meetingId)
    as [meetingRaw|]; [|congruence].
  destruct (is_object meetingRaw); [|congruence].
  destruct H as (i & Hi & ->); intros [= <-].
  split; [exists meetingRaw, i; repeat split; assumption|].
  split; [reflexivity|].
  split; [apply title_not_blank|].
  split; [apply participants_not_blank|].
  cbn [build_meeting MeetingMetadata.meetingType
         MeetingMetadata.duration MeetingMetadata.platform].
  repeat split.
  now destruct (as_string (prop meetingRaw (lit "type"))).
Qed.


Lemma document_for_spec parsePanels documentPanels
    (ms : dict MeetingMetadata.t) (docId : jsstring) (docRaw : json) :
  match document_for parsePanels documentPanels ms docId docRaw with
  | Some doc =>
      is_object docRaw = true
      /\ exists m,
           dict_get ms docId = Some m
           /\ MeetingDocument.id doc = docId
           /\ MeetingDocument.meetingId doc = docId
           /\ MeetingDocument.title doc = MeetingMetadata.title m
           /\ MeetingDocument.createdAt doc = MeetingMetadata.date m
           /\ MeetingDocument.documentType doc = lit "meeting_notes"
           /\ MeetingDocument.tags doc = []
           /\ trim (MeetingDocument.content doc) = MeetingDocument.content doc
  | None => is_object docRaw = false \/ dict_get ms docId = None
  end.
Proof.
  unfold document_for; destruct (is_object docRaw); [|now left].
  destruct (dict_get ms docId) as [m|]; [|now right].
  split; [reflexivity|]; exists m; cbn; repeat split; apply trim_trim.
Qed.

Lemma documents_keys clk rawData parsePanels :
  let data := parseCacheData clk rawData parsePanels in
  dict_keys (documents data) = dict_keys (meetings data).
Proof.
  cbv zeta; rewrite meetings_insertion_order, parse_documents.
  rewrite fold_set_step_keys by apply entries_of_ordered.
  unfold object_records; cbn [dict_keys map app]; f_equal.
  apply filter_ext_in; intros [k v] Hin; cbn [fst snd].
  pose proof (document_for_spec parsePanels (documentPanels_of rawData)
                (fst (meetings_loop clk rawData)) k v) as Hd.
  destruct (document_for _ _ _ k v) as [doc|]; [symmetry; apply Hd|].
  destruct Hd as [Hd|Hd]; [now rewrite Hd|].
  destruct (is_object v) eqn:Eo; [|reflexivity].
  pose proof (meeting_of_object_record clk rawData parsePanels k) as Hm.
  cbv zeta in Hm; rewrite parse_meetings in Hm.
  exfalso; apply Hm; [|exact Hd].
  exists v; split; [|exact Eo].
  apply In_dict_get; [apply entries_of_NoDup | exact Hin].
Qed.

Lemma document_of_meeting clk rawData parsePanels (meetingId : jsstring) m :
  let data := parseCacheData clk rawData parsePanels in
  dict_get (meetings data) meetingId = Some m ->
  exists doc,
    dict_get (documents data) meetingId = Some doc
    /\ MeetingDocument.id doc = meetingId
    /\ MeetingDocument.meetingId doc = meetingId
    /\ MeetingDocument.title doc = MeetingMetadata.title m
    /\ MeetingDocument.createdAt doc = MeetingMetadata.date m
    /\ MeetingDocument.documentType doc = lit "meeting_notes"
    /\ MeetingDocument.tags doc = []
    /\ trim (MeetingDocument.content doc) = MeetingDocument.content doc.
Proof.
  cbv zeta; intros Hm; rewrite documents_get.
  pose proof (meeting_of_object_record clk rawData parsePanels meetingId)
    as Hk.
  cbv zeta in Hk; destruct Hk as [Hk _].
  destruct Hk as (docRaw & Hraw & Eo); [congruence|].
  rewrite Hraw.
  pose proof (document_for_spec parsePanels (documentPanels_of rawData)
                (meetings (parseCacheData clk rawData parsePanels))
                meetingId docRaw) as Hd.
  destruct (document_for _ _ _ meetingId docRaw) as [doc|].
  - destruct Hd as (_ & m' & Hm' & Hd); rewrite Hm in Hm'.
    injection Hm' as <-; exists doc; split; [reflexivity | exact Hd].
  - destruct Hd as [Hd|Hd]; congruence.
Qed.

(** X7.  The Documents of a built cache mirror its Meetings: the two maps
    have the same keys in the same order, and the Document of a Meeting
    carries its id, its title and its date, the type [meeting_notes], no
    tag, and content that is trimmed, be it empty. *)
Theorem documents_mirror_meetings clk rawData parsePanels :
  let data := parseCacheData clk rawData parsePanels in
  dict_keys (documents data) = dict_keys (meetings data)
  /\ (forall (meetingId : jsstring) m,
        dict_get (meetings data) meetingId = Some m ->
        exists doc,
          dict_get (documents data) meetingId = Some doc
          /\ MeetingDocument.id doc = meetingId
          /\ MeetingDocument.meetingId doc = meetingId
          /\ MeetingDocument.title doc = MeetingMetadata.title m
          /\ MeetingDocument.createdAt doc = MeetingMetadata.date m
          /\ MeetingDocument.documentType doc = lit "meeting_notes"
          /\ MeetingDocument.tags doc = []
          /\ trim (MeetingDocument.content doc) = MeetingDocument.content doc).
Proof.
  cbv zeta; split;
    [apply documents_keys | intros meetingId m; apply document_of_meeting].
Qed.
End BuiltMaps.

(** ** The stored transcripts *)

Lemma set_add_distinct (speakers : list jsstring) (x : jsstring)
    (P : jsstring -> Prop) :
  NoDup speakers /\ Forall P speakers -> P x ->
  NoDup (set_add speakers x) /\ Forall P (set_add speakers x).
Proof.
  intros [Hnd Hall] Hx; unfold set_add.
  destruct (existsb (str_eqb x) speakers) eqn:E; [now split|].
  split.
  - apply NoDup_app; [assumption | repeat constructor; auto |].
    intros y Hy [<-|[]].
    apply existsb_str_eqb in Hy; congruence.
  - apply Forall_app; split; [assumption | now repeat constructor].
Qed.

Lemma trimmed_speaker (v : option json) (s : jsstring) :
  nonblank_string v = Some s -> trim s <> [] /\ trim (trim s) = trim s.
Proof.
  intros H; apply nonblank_string_Some in H as [_ H].
  split; [now apply trim_nonblank | apply trim_trim].
Qed.

Section StoredTranscripts.
Context {host : Host}.

(** The speakers collected from a raw transcript are distinct, not empty
    and trimmed. *)
Lemma transcript_parts_speakers (transcriptRaw : json) :
  NoDup (snd (transcript_parts transcriptRaw))
  /\ Forall (fun s => s <> [] /\ trim s = s)
       (snd (transcript_parts transcriptRaw)).
Proof.
  destruct transcriptRaw as [| | | |segments|members];
    try (simpl; split; constructor).
  - unfold transcript_parts.
    assert (G : forall st,
              NoDup (snd st) /\ Forall (fun s => s <> [] /\ trim s = s) (snd st) ->
              NoDup (snd (fold_left segment_step segments st))
              /\ Forall (fun s => s <> [] /\ trim s = s)
                   (snd (fold_left segment_step segments st))).
    { induction segments as [|x l IH]; simpl; intros st Hst; [assumption|].
      apply IH; unfold segment_step.
      destruct (is_object x); [cbn [snd]|assumption].
      destruct (nonblank_string (prop x (lit "source"))) as [source|] eqn:E;
        [|assumption].
      apply set_add_distinct; [assumption | now apply trimmed_speaker in E]. }
    apply G; split; constructor.
  - unfold transcript_parts; cbn [snd].
    destruct (prop (JObj members) (lit "speakers")) as [[| | | |l|]|];
      try (split; constructor).
    assert (G : forall speakers,
              NoDup speakers /\ Forall (fun s => s <> [] /\ trim s = s) speakers ->
              NoDup (fold_left speaker_step l speakers)
              /\ Forall (fun s => s <> [] /\ trim s = s)
                   (fold_left speaker_step l speakers)).
    { induction l as [|x l IH]; simpl; intros speakers Hs; [assumption|].
      apply IH; unfold speaker_step.
      destruct (nonblank_string (Some x)) as [s|] eqn:E; [|assumption].
      apply set_add_distinct; [assumption | now apply trimmed_speaker in E]. }
    apply G; split; constructor.
Qed.

Lemma transcript_fields clk rawData parsePanels (transcriptId : jsstring) t :
  dict_get (transcripts (parseCacheData clk rawData parsePanels)) transcriptId
  = Some t ->
  MeetingTranscript.meetingId t = transcriptId
  /\ trim (MeetingTranscript.content t) = MeetingTranscript.content t
  /\ NoDup (MeetingTranscript.speakers t)
  /\ Forall (fun s => s <> [] /\ trim s = s) (MeetingTranscript.speakers t)
  /\ MeetingTranscript.language t = None
  /\ MeetingTranscript.confidence t = None.
Proof.
  rewrite transcripts_get.
  destruct (dict_get (entries_of _) transcriptId) as [transcriptRaw|];
    [|discriminate].
  unfold transcript_for.
  pose proof (transcript_parts_speakers transcriptRaw) as [Hnd Hall].
  destruct (transcript_parts transcriptRaw) as [contentParts speakers].
  destruct (0 <? length contentParts)%nat; [|discriminate].
  intros [= <-]; cbn in *.
  split; [reflexivity|].
  split; [apply trim_trim|].
  repeat split; assumption.
Qed.

(** X8.  A stored Transcript carries its key as meeting id, content that is
    trimmed, speakers that are distinct, not empty and trimmed, and neither
    a language nor a confidence. *)
Theorem transcripts_well_formed clk rawData parsePanels
    (transcriptId : jsstring) t :
  dict_get (transcripts (parseCacheData clk rawData parsePanels)) transcriptId
  = Some t ->
  MeetingTranscript.meetingId t = transcriptId
  /\ trim (MeetingTranscript.content t) = MeetingTranscript.content t
  /\ NoDup (MeetingTranscript.speakers t)
  /\ Forall (fun s => s <> [] /\ trim s = s) (MeetingTranscript.speakers t)
  /\ MeetingTranscript.language t = None
  /\ MeetingTranscript.confidence t = None.
Proof. apply transcript_fields. Qed.

(** X9.  The panels only fill in for missing notes.  With panel extraction
    disabled the panels of the raw data are never consulted: two raw inputs
    with the same documents and transcripts build the same cache.  With
    panel extraction enabled, the Document of a record that has plain-text,
    markdown or structured notes is the one built with panel extraction
    disabled. *)
Theorem panels_only_fill_in clk (rawData : json) :
  (forall rawData',
     prop rawData (lit "documents") = prop rawData' (lit "documents") ->
     prop rawData (lit "transcripts") = prop rawData' (lit "transcripts") ->
     parseCacheData clk rawData false = parseCacheData clk rawData' false)
  /\ (forall (docId : jsstring) docRaw,
        dict_get (entries_of (rawDocuments_of rawData)) docId = Some docRaw ->
        first_nonempty
          (notes_candidates false (documentPanels_of rawData) docId docRaw)
        <> [] ->
        dict_get (documents (parseCacheData clk rawData true)) docId
        = dict_get (documents (parseCacheData clk rawData false)) docId).
Proof.
  split.
  - intros rawData' Hd Ht; unfold parseCacheData; rewrite Hd, Ht.
    destruct (fold_left (meetings_step clk) _ _) as [ms reads].
    reflexivity.
  - intros docId docRaw Hraw Hnotes.
    rewrite !documents_get, Hraw, !parse_meetings.
    unfold document_for; rewrite !content_parts_priority.
    assert (E : first_nonempty
                  (notes_candidates true (documentPanels_of rawData) docId
                     docRaw)
                = first_nonempty
                    (notes_candidates false (documentPanels_of rawData) docId
                       docRaw)).
    { revert Hnotes; unfold first_nonempty, notes_candidates; cbn [find].
      destruct (truthy_str (or_empty _)); [reflexivity|].
      destruct (truthy_str (or_empty _)); [reflexivity|].
      destruct (truthy_str _); [reflexivity|].
      cbn [truthy_str]; congruence. }
    now rewrite E.
Qed.
End StoredTranscripts.

(** ** The order of the panels *)





Section KeyOrder.
#[local] Abbreviation key_le := (fun a b : jsstring => str_ltb b a = false).







End KeyOrder.





(** ** The text of the panels *)

Section SolidText.
(** A text that starts and ends with a character that is no white space. *)
#[local] Abbreviation solid :=
  (fun s : jsstring =>
     (exists c t, s = c :: t /\ is_space c = false)
     /\ (exists c t, rev s = c :: t /\ is_space c = false)).

Lemma trimmed_solid (s : jsstring) : s <> [] -> trim s = s -> solid s.
Proof.
  intros Hne Ht; split.
  - destruct s as [|c t]; [congruence|]; exists c, t; split; [reflexivity|].
    unfold trim in Ht; destruct (trimStart (c :: t)) as [|c' t'] eqn:E.
    + discriminate.
    + apply trimStart_head in E as Hc'.
      rewrite trimEnd_cons_keep in Ht by assumption.
      now injection Ht as -> _.
  - destruct (rev s) as [|c t] eqn:Er.
    + apply (f_equal (@rev N)) in Er; rewrite rev_involutive in Er.
      simpl in Er; congruence.
    + exists c, t; split; [reflexivity|].
      rewrite <- Ht in Er; unfold trim, trimEnd in Er.
      rewrite rev_involutive in Er; now apply trimStart_head in Er.
Qed.

Lemma solid_trimmed (s : jsstring) : solid s -> s <> [] /\ trim s = s.
Proof.
  intros [(c & t & -> & Hc) (c' & t' & Er & Hc')]; split; [discriminate|].
  unfold trim; cbn [trimStart]; rewrite Hc.
  unfold trimEnd; rewrite Er; cbn [trimStart]; rewrite Hc', <- Er.
  apply rev_involutive.
Qed.

Lemma join_solid (sep : jsstring) (parts : list jsstring) :
  parts <> [] -> Forall solid parts -> solid (join sep parts).
Proof.
  intros Hne H; induction H as [|p parts Hp Hparts IH]; [congruence|].
  destruct parts as [|q parts]; [exact Hp|].
  destruct IH as [_ (c' & t' & Er & Hc')]; [discriminate|].
  destruct Hp as [(c & t & -> & Hc) _].
  change (join sep ((c :: t) :: q :: parts))
    with ((c :: t) ++ sep ++ join sep (q :: parts)).
  split; [exists c; eexists; split; [reflexivity | exact Hc]|].
  rewrite !rev_app_distr, Er.
  exists c'; eexists; split; [reflexivity | exact Hc'].
Qed.

(** Joining texts that are trimmed and not empty gives a trimmed text. *)
Lemma trim_join_trimmed (sep : jsstring) (parts : list jsstring) :
  Forall (fun p => p <> [] /\ trim p = p) parts ->
  trim (join sep parts) = join sep parts
  /\ (join sep parts = [] <-> parts = []).
Proof.
  intros H; destruct parts as [|p parts]; [split; [reflexivity | tauto]|].
  assert (Hs : solid (join sep (p :: parts))).
  { apply join_solid; [discriminate|].
    eapply Forall_impl; [|exact H].
    intros s [Hne Ht]; now apply trimmed_solid. }
  apply solid_trimmed in Hs as [Hne Ht].
  split; [exact Ht | split; [congruence | discriminate]].
Qed.
End SolidText.

Lemma walk_trimmed_below (n : nat) :
  forall node, (json_depth node < n)%nat ->
               Forall (fun p => p <> [] /\ trim p = p) (walk node).
Proof.
  induction n as [|n IH]; intros node Hn; [lia|].
  destruct node as [| | | |items|record]; try (simpl; constructor).
  - cbn [walk]; apply Forall_flat_map, Forall_forall; intros item Hin.
    apply IH; apply item_depth in Hin; lia.
  - cbn [walk]; rewrite member_map_obj_get; apply Forall_app; split.
    + destruct (type_is record (lit "text")); [|constructor].
      destruct (nonblank_string (obj_get record (lit "text"))) as [text|] eqn:E;
        [|constructor].
      constructor; [now apply trimmed_speaker in E | constructor].
    + destruct (obj_get record (lit "content")) as [c|] eqn:Ec;
        [|constructor].
      apply IH; apply member_depth in Ec; simpl; lia.
Qed.

Lemma walk_trimmed (node : json) :
  Forall (fun p => p <> [] /\ trim p = p) (walk node).
Proof. apply (walk_trimmed_below (n := S (json_depth node))); lia. Qed.

(** X11.  The panel text is made of the texts of the text nodes, each
    trimmed and none empty, in the order of the traversal: the text
    extracted from an array of panels is these joined by blank lines, the
    final trim removing nothing, and it is empty only when no text was
    found.  Whatever the panel value, the text extracted is trimmed. *)
Theorem panel_text_parts (panelData : option json) (panels : list json) :
  (forall node, Forall (fun p => p <> [] /\ trim p = p) (walk node))
  /\ trim (extractDocumentPanelContent panelData)
     = extractDocumentPanelContent panelData
  /\ extractDocumentPanelContent (Some (JArr panels))
     = join blank_line (flat_map walk panels)
  /\ (extractDocumentPanelContent (Some (JArr panels)) = []
      <-> flat_map walk panels = []).
Proof.
  split; [apply walk_trimmed|].
  split.
  { unfold extractDocumentPanelContent.
    destruct panelData as [[| | | |l|o]|]; try reflexivity; apply trim_trim. }
  assert (H : Forall (fun p => p <> [] /\ trim p = p) (flat_map walk panels)).
  { apply Forall_flat_map, Forall_forall; intros item _; apply walk_trimmed. }
  apply (trim_join_trimmed blank_line) in H as [Ht He].
  cbn [extractDocumentPanelContent]; rewrite Ht; split; [reflexivity | exact He].
Qed.

(** ** The participants of the meetings *)

Section ParticipantFacts.
Context {host : Host}.


End ParticipantFacts.

(** ** The sum of the counts *)







Section CountFacts.
Context {host : Host}.

End CountFacts.

(** ** The results of a search *)



Section SearchResults.
Context {host : Host}.



End SearchResults.

(** ** The lookups in a built cache *)

Lemma fold_set_step_ordered (A B : Type) (f : jsstring -> A -> option B)
    (l : dict A) (d : dict B) :
  js_ordered (dict_keys d) -> js_ordered (dict_keys (fold_left (set_step f) l d)).
Proof.
  revert d; induction l as [|[k v] l IH]; intros d Hd; [assumption|].
  cbn [fold_left]; apply IH.
  change (set_step f d (k, v))
    with (match f k v with Some x => dict_set d k x | None => d end).
  destruct (f k v); [now apply js_ordered_set | assumption].
Qed.

(** In a dictionary whose values name their own key, the values that name
    a key are the one stored under it. *)
Lemma filter_by_own_key (T : Type) (key : T -> jsstring) (d : dict T)
    (k : jsstring) :
  NoDup (dict_keys d) -> Forall (fun e => key (snd e) = fst e) d ->
  filter (fun x => str_eqb (key x) k) (dict_values d)
  = match dict_get d k with Some x => [x] | None => [] end.
Proof.
  induction d as [|[k0 x0] d IH]; intros Hnd Hown; [reflexivity|].
  change (dict_keys ((k0, x0) :: d)) with (k0 :: dict_keys d) in Hnd.
  apply NoDup_cons_iff in Hnd as [Hk0 Hd].
  apply Forall_cons_iff in Hown as [Hx0 Hown]; cbn [fst snd] in Hx0.
  change (dict_values ((k0, x0) :: d)) with (x0 :: dict_values d).
  cbn [filter dict_get]; rewrite Hx0, (str_eqb_sym k k0), (IH Hd Hown).
  destruct (str_eqb k0 k) eqn:E; [|reflexivity].
  apply str_eqb_eq in E; subst k.
  apply dict_get_None in Hk0; now rewrite Hk0.
Qed.

Section Lookups.
Context {host : Host}.

Lemma documents_NoDup clk rawData parsePanels :
  NoDup (dict_keys (documents (parseCacheData clk rawData parsePanels))).
Proof.
  rewrite parse_documents; apply fold_set_step_ordered, js_ordered_nil.
Qed.

Lemma documents_own_key clk rawData parsePanels :
  Forall (fun e => MeetingDocument.meetingId (snd e) = fst e)
    (documents (parseCacheData clk rawData parsePanels)).
Proof.
  apply Forall_forall; intros [k doc] Hin; cbn [fst snd].
  apply In_dict_get in Hin; [|apply documents_NoDup].
  rewrite documents_get in Hin.
  destruct (dict_get (entries_of _) k) as [docRaw|]; [|discriminate].
  pose proof (document_for_spec parsePanels (documentPanels_of rawData)
                (meetings (parseCacheData clk rawData parsePanels)) k docRaw)
    as Hd.
  rewrite Hin in Hd; destruct Hd as (_ & m & _ & _ & Hd & _); exact Hd.
Qed.

(** The documents of a meeting in a built cache: the one stored under its
    id. *)
Lemma documents_of_built clk rawData parsePanels (meetingId : jsstring) :
  let data := parseCacheData clk rawData parsePanels in
  documents_of data meetingId
  = match dict_get (documents data) meetingId with
    | Some doc => [doc]
    | None => []
    end.
Proof.
  cbv zeta; unfold documents_of.
  apply (filter_by_own_key MeetingDocument.meetingId);
    [apply documents_NoDup | apply documents_own_key].
Qed.

Lemma blank_false_truthy (s : jsstring) : blank s = false -> truthy_str s = true.
Proof. destruct s; [discriminate | reflexivity]. Qed.



(** X17.  The documents of a meeting of a built cache: exactly one, the
    Document stored under the id, under the title of the meeting; an id
    without a Meeting has none. *)
Theorem documents_of_built_meeting clk rawData parsePanels
    (argsMap : dict jsstring) (meetingId : jsstring) :
  dict_get argsMap (lit "meeting-id") = Some meetingId -> meetingId <> [] ->
  let data := parseCacheData clk rawData parsePanels in
  documents_command data argsMap
  = match dict_get (documents data) meetingId with
    | Some doc =>
        Ok (Documents (Found
          {| DocumentsPayload.meetingId := meetingId;
             DocumentsPayload.title := MeetingDocument.title doc;
             DocumentsPayload.count := 1;
             DocumentsPayload.documents := [doc] |}))
    | None =>
        Ok (Documents
              (Missing (quoted (lit "No documents found for meeting ")
                          meetingId [])))
    end
  /\ (dict_get (documents data) meetingId = None
      <-> dict_get (meetings data) meetingId = None).
Proof.
  intros Hid Hne data.
  pose proof (documents_keys clk rawData parsePanels) as Hkeys.
  cbv zeta in Hkeys; fold data in Hkeys.
  assert (Hiff : dict_get (documents data) meetingId = None
                 <-> dict_get (meetings data) meetingId = None)
    by now rewrite !dict_get_None, Hkeys.
  split; [|exact Hiff].
  unfold documents_command.
  rewrite Hid; cbn [or_empty]; rewrite (truthy_nonempty Hne); cbn [negb].
  unfold data; rewrite documents_of_built; fold data.
  destruct (dict_get (documents data) meetingId) as [doc|] eqn:Hget;
    [|reflexivity].
  destruct (dict_get (meetings data) meetingId) as [m|] eqn:Hm;
    [|destruct Hiff as [_ Hiff]; now specialize (Hiff eq_refl)].
  destruct (document_of_meeting clk rawData parsePanels meetingId Hm)
    as (doc' & Hget' & _ & _ & Ht & _).
  fold data in Hget'; rewrite Hget in Hget'; injection Hget' as <-.
  destruct (meeting_fields clk rawData parsePanels meetingId Hm)
    as (_ & _ & Hb & _).
  unfold title_or_id; fold data; rewrite Hm, (blank_false_truthy _ Hb), Ht.
  reflexivity.
Qed.

End Lookups.

(** ** The range of dates of an analysis *)

Lemma filter_all (B : Type) (l : list B) : filter (fun _ => true) l = l.
Proof. induction l as [|x l IH]; simpl; [reflexivity | now rewrite IH]. Qed.

Lemma filter_none (B : Type) (f : B -> bool) (l : list B) :
  (forall x, f x = false) -> filter f l = [].
Proof.
  intros H; induction l as [|x l IH]; simpl; [reflexivity|].
  now rewrite H.
Qed.

Section DateRange.
Context {host : Host}.

Lemma patterns_command_analysis data (argsMap : dict jsstring)
    (kind : jsstring) range :
  dict_get argsMap (lit "pattern-type") = Some kind ->
  In kind [lit "participants"; lit "frequency"; lit "topics"] ->
  parseDateRange (dict_get argsMap (lit "start-date"))
    (dict_get argsMap (lit "end-date")) = Ok range ->
  patterns_command data argsMap
  = Ok (Patterns
          (analysis_of kind
             (filter (in_range range) (dict_values (meetings data))))).
Proof.
  intros Hkind Hin Hrange; unfold patterns_command, analysis_of.
  rewrite Hkind, Hrange; cbn [or_empty].
  destruct Hin as [<-|[<-|[<-|[]]]]; reflexivity.
Qed.

(** X19.  The range of dates of the patterns command.  Without dates every
    meeting is analysed.  With a start date only, the meetings from that
    date to the first day of 2100 are analysed, with an end date only those
    from the first day of 1900 to that date, both ends included.  A start
    date the host cannot read is an error that names it.  A range that ends
    before it starts is no error: no meeting is analysed. *)
Theorem date_range_edges data (argsMap : dict jsstring) (kind : jsstring) :
  dict_get argsMap (lit "pattern-type") = Some kind ->
  In kind [lit "participants"; lit "frequency"; lit "topics"] ->
  let all := dict_values (meetings data) in
  let startDate := dict_get argsMap (lit "start-date") in
  let endDate := dict_get argsMap (lit "end-date") in
  (startDate = None -> endDate = None ->
   patterns_command data argsMap = Ok (Patterns (analysis_of kind all)))
  /\ (forall s t e,
        startDate = Some s -> s <> [] -> endDate = None ->
        Date_parse s = Some t -> Date_parse (lit "2100-01-01") = Some e ->
        patterns_command data argsMap
        = Ok (Patterns (analysis_of kind (dated_within t e all))))
  /\ (forall s t e,
        startDate = None -> endDate = Some e -> e <> [] ->
        Date_parse (lit "1900-01-01") = Some s -> Date_parse e = Some t ->
        patterns_command data argsMap
        = Ok (Patterns (analysis_of kind (dated_within s t all))))
  /\ (forall s,
        startDate = Some s -> s <> [] -> Date_parse s = None ->
        patterns_command data argsMap
        = Throw (Error (lit "Invalid date value: " ++ s)))
  /\ (forall start fin,
        parseDateRange startDate endDate = Ok (Some (start, fin)) ->
        (fin < start)%Z ->
        patterns_command data argsMap = Ok (Patterns (analysis_of kind []))).
Proof.
  intros Hkind Hin all startDate endDate.
  split; [|split; [|split; [|split]]].
  - intros Hs He.
    rewrite (patterns_command_analysis data argsMap Hkind Hin (range := None)).
    + cbn [in_range]; now rewrite filter_all.
    + fold startDate endDate; now rewrite Hs, He.
  - intros s t e Hs Hne He Ht Hdef.
    apply (patterns_command_analysis data argsMap Hkind Hin
             (range := Some (t, e))).
    fold startDate endDate; rewrite Hs, He; unfold parseDateRange.
    cbn [or_empty truthy_str]; rewrite (truthy_nonempty Hne); cbn [negb andb].
    unfold parseRangeDate; now rewrite Ht, Hdef.
  - intros s t e Hs He Hne Hdef Ht.
    apply (patterns_command_analysis data argsMap Hkind Hin
             (range := Some (s, t))).
    fold startDate endDate; rewrite Hs, He; unfold parseDateRange.
    cbn [or_empty truthy_str]; rewrite (truthy_nonempty Hne); cbn [negb andb].
    unfold parseRangeDate; now rewrite Hdef, Ht.
  - intros s Hs Hne Hbad; unfold patterns_command.
    fold startDate endDate; rewrite Hkind, Hs; cbn [or_empty].
    assert (Ek : truthy_str kind = true).
    { destruct Hin as [<-|[<-|[<-|[]]]]; reflexivity. }
    assert (Ev : existsb (str_eqb kind)
                   [lit "participants"; lit "frequency"; lit "topics"] = true)
      by now apply existsb_str_eqb.
    rewrite Ek, Ev; cbn [negb]; unfold parseDateRange.
    cbn [or_empty]; rewrite (truthy_nonempty Hne); cbn [negb andb].
    unfold parseRangeDate; now rewrite Hbad.
  - intros start fin Hrange Hlt.
    rewrite (patterns_command_analysis data argsMap Hkind Hin Hrange).
    rewrite filter_none; [reflexivity|].
    intros m; cbn [in_range].
    destruct (start <=? MeetingMetadata.date m)%Z eqn:E1; [|reflexivity].
    destruct (MeetingMetadata.date m <=? fin)%Z eqn:E2; [|reflexivity].
    apply Z.leb_le in E1, E2; lia.
Qed.
End DateRange.

(** ** The shapes of a cache file *)

Section CacheFile.
Context {host : Host}.

Lemma parse_non_object clk (rawData : json) parsePanels :
  (forall members, rawData <> JObj members) ->
  parseCacheData clk rawData parsePanels = emptyCache (clk 0%nat).
Proof.
  intros H; destruct rawData; try reflexivity.
  now specialize (H members).
Qed.

(** X20.  A cache file that can be read and parsed.  The value [null] makes
    the load fail.  Any other value that is no object (a number, a string, a
    boolean, an array) loads as the empty model, as a missing file does.  An
    object is the raw data itself, unless its [cache] is a string: then that
    string is parsed in its turn, and the raw data is the [state] of the
    value it holds when that is an object, and that value otherwise; what
    stands beside [cache] is ignored. *)
Theorem cache_file_shapes clk (cachePathInput : jsstring) parsePanels
    (rawFile : jsstring) (rawData : json) :
  existsSync (expandHome cachePathInput) = true ->
  readFileSync (expandHome cachePathInput) = Some rawFile ->
  JSON_parse rawFile = Some rawData ->
  (rawData = JNull ->
   loadCache clk cachePathInput parsePanels = Throw TypeError)
  /\ (rawData <> JNull -> (forall members, rawData <> JObj members) ->
      loadCache clk cachePathInput parsePanels = Ok (emptyCache (clk 0%nat)))
  /\ (forall members,
        rawData = JObj members ->
        as_string (obj_get members (lit "cache")) = None ->
        loadCache clk cachePathInput parsePanels
        = Ok (parseCacheData clk rawData parsePanels))
  /\ (forall members text,
        rawData = JObj members ->
        obj_get members (lit "cache") = Some (JStr text) ->
        loadCache clk cachePathInput parsePanels
        = match JSON_parse text with
          | None => Throw SyntaxError
          | Some JNull => Throw TypeError
          | Some nested =>
              Ok (parseCacheData clk
                    (match prop nested (lit "state") with
                     | Some st => if is_object st then st else nested
                     | None => nested
                     end) parsePanels)
          end).
Proof.
  intros Hexists Hread Hparse; unfold loadCache.
  rewrite Hexists, Hread, Hparse; cbn [negb].
  split; [intros ->; reflexivity|].
  split; [|split].
  - intros Hnull Hobj.
    rewrite <- (parse_non_object clk parsePanels Hobj).
    destruct rawData; try reflexivity; [congruence|].
    now specialize (Hobj members).
  - intros members -> Hcache; cbn [prop].
    destruct (obj_get members (lit "cache")) as [[| | |text| |]|];
      try reflexivity; discriminate.
  - intros members text -> Hcache; cbn [prop]; rewrite Hcache.
    destruct (JSON_parse text) as [[]|]; reflexivity.
Qed.
End CacheFile.

(** ** No text is lost *)

Lemma includes_iff (s q : jsstring) :
  includes s q = true <-> exists a b, s = a ++ q ++ b.
Proof.
  split.
  - induction s as [|c s IH]; cbn [includes]; intros H.
    + rewrite orb_false_r in H; apply startsWith_split in H.
      exists [], (skipn (length q) []); exact H.
    + apply orb_true_iff in H as [H|H].
      * apply startsWith_split in H.
        exists [], (skipn (length q) (c :: s)); exact H.
      * destruct (IH H) as (a & b & ->); exists (c :: a), b; reflexivity.
  - intros (a & b & ->); induction a as [|c a IH].
    + simpl app; destruct (q ++ b) eqn:E; cbn [includes];
        rewrite <- E, startsWith_app; reflexivity.
    + cbn [app includes]; rewrite IH; apply orb_true_r.
Qed.

Lemma includes_within (s q : jsstring) (a b : jsstring) :
  includes s q = true -> includes (a ++ s ++ b) q = true.
Proof.
  rewrite !includes_iff; intros (a' & b' & ->).
  exists (a ++ a'), (b' ++ b); now rewrite <- !app_assoc.
Qed.

Lemma join_split (sep : jsstring) (parts : list jsstring) (p : jsstring) :
  In p parts -> exists a b, join sep parts = a ++ p ++ b.
Proof.
  induction parts as [|q parts IH]; [intros []|].
  intros [->|H].
  - destruct parts as [|q' parts'].
    + exists [], []; simpl; now rewrite app_nil_r.
    + exists [], (sep ++ join sep (q' :: parts')); reflexivity.
  - destruct parts as [|q' parts']; [destruct H|].
    destruct (IH H) as (a & b & E).
    exists (q ++ sep ++ a), b.
    change (join sep (q :: q' :: parts'))
      with (q ++ sep ++ join sep (q' :: parts')).
    now rewrite E, <- !app_assoc.
Qed.

(** What is in one of the parts is in their join. *)
Lemma includes_join (sep : jsstring) (parts : list jsstring)
    (p q : jsstring) :
  In p parts -> includes p q = true -> includes (join sep parts) q = true.
Proof.
  intros Hin Hq; destruct (join_split sep parts p Hin) as (a & b & ->).
  now apply includes_within.
Qed.

Lemma trimStart_suffix (s : jsstring) : exists w, s = w ++ trimStart s.
Proof.
  induction s as [|c s (w & IH)]; [exists []; reflexivity|].
  simpl; destruct (is_space c); [|exists []; reflexivity].
  exists (c :: w); simpl; now f_equal.
Qed.

Lemma trim_within (s : jsstring) : exists w w', s = w ++ trim s ++ w'.
Proof.
  destruct (trimStart_suffix s) as (w & Hs).
  destruct (trimStart_suffix (rev (trimStart s))) as (w' & Hr).
  exists w, (rev w'); unfold trim, trimEnd.
  rewrite <- rev_app_distr, <- Hr, rev_involutive; exact Hs.
Qed.

(** Trimming a string keeps the trimmed form of what it includes. *)
Lemma includes_trim (s q : jsstring) :
  includes s q = true -> includes (trim s) (trim q) = true.
Proof.
  intros H; destruct (trim q) as [|c t] eqn:Eq.
  { apply includes_iff; exists [], (trim s); reflexivity. }
  apply includes_iff in H as (a & b & ->).
  destruct (trim_within q) as (w & w' & Hq); rewrite Eq in Hq.
  assert (Hsolid : trim (c :: t) = c :: t) by (rewrite <- Eq; apply trim_trim).
  assert (Hc : is_space c = false).
  { unfold trim in Eq; destruct (trimStart q) as [|c' t'] eqn:E;
      [discriminate|].
    apply trimStart_head in E as Hc'.
    rewrite trimEnd_cons_keep in Eq by assumption; now injection Eq as <- _. }
  destruct (rev (c :: t)) as [|c' t'] eqn:Er.
  { apply (f_equal (@length N)) in Er; rewrite length_rev in Er.
    discriminate. }
  assert (Hc' : is_space c' = false).
  { rewrite <- Hsolid in Er; unfold trim, trimEnd in Er.
    rewrite rev_involutive in Er; now apply trimStart_head in Er. }
  rewrite Hq; apply includes_iff.
  exists (trimStart (a ++ w)), (rev (trimStart (rev (w' ++ b)))).
  unfold trim, trimEnd.
  replace (a ++ (w ++ (c :: t) ++ w') ++ b)
    with ((a ++ w) ++ c :: (t ++ w' ++ b))
    by (rewrite <- !app_assoc; reflexivity).
  rewrite trimStart_app_keep by assumption.
  replace (rev (trimStart (a ++ w) ++ c :: t ++ w' ++ b))
    with (rev (w' ++ b) ++ c' :: (t' ++ rev (trimStart (a ++ w)))).
  2:{ change (c :: t ++ w' ++ b) with ((c :: t) ++ w' ++ b).
      rewrite !rev_app_distr, Er, <- !app_assoc; reflexivity. }
  rewrite trimStart_app_keep by assumption.
  rewrite rev_app_distr.
  change (c' :: t' ++ rev (trimStart (a ++ w)))
    with ((c' :: t') ++ rev (trimStart (a ++ w))).
  rewrite rev_app_distr, rev_involutive, <- Er, rev_involutive.
  now rewrite <- !app_assoc.
Qed.

Lemma text_of_Some (entry : list (jsstring * json)) (text : jsstring) :
  text_of entry = Some text ->
  type_is entry (lit "text") = true
  /\ type_is entry (lit "paragraph") = false
  /\ obj_get entry (lit "text") = Some (JStr text).
Proof.
  unfold text_of, type_is.
  destruct (obj_get entry (lit "type")) as [[| | |ty| |]|]; try discriminate.
  destruct (str_eqb ty (lit "text")) eqn:E; [|discriminate].
  apply str_eqb_eq in E; subst ty.
  destruct (obj_get entry (lit "text")) as [[| | |s| |]|]; try discriminate.
  intros [= ->]; repeat split.
Qed.

(** The strings a node of a content array contributes. *)
Lemma extract_node (items : list json) (entry : list (jsstring * json)) :
  In (JObj entry) items ->
  forall p,
    In p (match text_of entry with
          | Some text => [text]
          | None =>
              match obj_get entry (lit "content") with
              | Some (JArr inner) => [join (lit " ") (extract (JArr inner))]
              | _ => []
              end
          end) ->
    In p (extract (JArr items)).
Proof.
  intros Hin p Hp; cbn [extract]; apply in_flat_map.
  exists (JObj entry); split; [assumption|].
  cbv beta iota; rewrite member_map_obj_get.
  destruct (text_of entry) as [text|] eqn:Et.
  - apply text_of_Some in Et as (Ht & Hpar & Hs).
    rewrite Hpar, Ht, Hs; exact Hp.
  - assert (Hno : match type_is entry (lit "text"),
                        as_string (obj_get entry (lit "text")) with
                  | true, Some text => False
                  | _, _ => True
                  end).
    { unfold text_of in Et; destruct (type_is entry (lit "text")); [|exact I].
      now rewrite Et. }
    destruct (obj_get entry (lit "content")) as [[| | | |inner|]|];
      try solve [destruct Hp].
    destruct Hp as [<-|[]].
    cbn [isArray option_map or_nil]; rewrite andb_true_r.
    destruct (type_is entry (lit "paragraph")); [now left|].
    destruct (type_is entry (lit "text")),
      (as_string (obj_get entry (lit "text"))); try destruct Hno; now left.
Qed.

Lemma noted_included (content : json) (text : jsstring) :
  noted content text ->
  includes (join (lit " ") (extract content)) text = true.
Proof.
  induction 1 as [items entry text Hin Ht
                 |items entry content text Hin Ht Hc Hnoted IH].
  - apply includes_join with (p := text).
    + apply (extract_node items entry Hin); rewrite Ht; now left.
    + apply includes_iff; exists [], []; simpl; now rewrite app_nil_r.
  - assert (Harr : exists inner, content = JArr inner)
      by (destruct Hnoted; eauto).
    destruct Harr as (inner & ->).
    apply includes_join with (p := join (lit " ") (extract (JArr inner)));
      [|exact IH].
    apply (extract_node items entry Hin); rewrite Ht, Hc; now left.
Qed.

(** X21.  No text of the structured notes is lost: every text noted in the
    content of the notes occurs in the extracted string, without the white
    space at its ends. *)
Theorem notes_keep_texts (notes : list (jsstring * json)) (content : json)
    (text : jsstring) :
  obj_get notes (lit "content") = Some content ->
  noted content text ->
  includes (extractStructuredNotes (JObj notes)) (trim text) = true.
Proof.
  intros Hc Hnoted; unfold extractStructuredNotes; rewrite Hc.
  assert (Harr : exists items, content = JArr items)
    by (destruct Hnoted; eauto).
  destruct Harr as (items & ->).
  apply includes_trim, noted_included, Hnoted.
Qed.

Lemma walked_collected (node : json) (text : jsstring) :
  walked node text -> blank text = false -> In (trim text) (walk node).
Proof.
  induction 1 as [items item text Hin Hw IH
                 |record text Ht
                 |record content text Hc Hw IH]; intros Hb.
  - cbn [walk]; apply in_flat_map; exists item; auto.
  - cbn [walk]; apply in_or_app; left.
    apply text_of_Some in Ht as (Ht & _ & Hs); rewrite Ht, Hs.
    cbn [nonblank_string]; rewrite nonblank_blank, Hb; now left.
  - cbn [walk]; apply in_or_app; right.
    rewrite member_map_obj_get, Hc; auto.
Qed.

(** X22.  No text of the panels is lost: every text reached in an array of
    panels occurs in the extracted string, without the white space at its
    ends. *)
Theorem panels_keep_texts (panels : list json) (text : jsstring) :
  walked (JArr panels) text ->
  includes (extractDocumentPanelContent (Some (JArr panels))) (trim text)
  = true.
Proof.
  intros Hw; destruct (blank text) eqn:Hb.
  { apply trim_nil in Hb; rewrite Hb.
    apply includes_iff; eexists [], _; reflexivity. }
  pose proof (walked_collected Hw Hb) as Hin; cbn [walk] in Hin.
  cbn [extractDocumentPanelContent].
  assert (H : Forall (fun p => p <> [] /\ trim p = p) (flat_map walk panels)).
  { apply Forall_flat_map, Forall_forall; intros item _; apply walk_trimmed. }
  apply (trim_join_trimmed blank_line) in H as [-> _].
  apply includes_join with (p := trim text); [exact Hin|].
  apply includes_iff; exists [], []; simpl; now rewrite app_nil_r.
Qed.

(** ** The average of the frequency analysis and the words of the topics *)

Lemma nodup_length_le (l : list jsstring) :
  (length (nodup str_eq_dec l) <= length l)%nat.
Proof.
  induction l as [|x l IH]; simpl; [lia|].
  destruct (in_dec str_eq_dec x l); simpl; lia.
Qed.

(** X23.  The average of the frequency analysis is a finite number: 0 when
    no meeting is analysed, and otherwise at least 1 and at most the number
    of meetings. *)
Theorem average_per_month_bounds (ms : list MeetingMetadata.t) :
  exists q,
    FrequencyAnalysis.averagePerMonth (analyzeFrequencyPatterns ms) = Fin q
    /\ (ms = [] -> q == 0)
    /\ (ms <> [] -> 1 <= q /\ q <= inject_Z (Z.of_nat (length ms))).
Proof.
  destruct ms as [|m ms'].
  { exists (inject_Z 0); split; [reflexivity|].
    split; [reflexivity | congruence]. }
  remember (m :: ms') as ms eqn:Ems.
  pose proof (byMonth_fold ms) as Hfold.
  unfold analyzeFrequencyPatterns in *.
  cbn [FrequencyAnalysis.averagePerMonth FrequencyAnalysis.byMonth] in *.
  rewrite Hfold.
  set (keys := map month_label
                 (map (fun m => month_of (MeetingMetadata.date m)) ms)).
  assert (Hlen : length keys = length ms)
    by (unfold keys; now rewrite !length_map).
  pose proof (fold_count_up_length keys) as Hmonths.
  pose proof (nodup_length_le keys) as Hle.
  set (months := length (dict_keys (fold_left count_up keys []))) in *.
  assert (Hpos : (0 < months)%nat).
  { assert (Hin : In (month_label (month_of (MeetingMetadata.date m)))
                    (dict_keys (fold_left count_up keys [])))
      by (apply fold_count_up_keys; left; unfold keys; rewrite Ems; simpl;
          now left).
    unfold months; destruct (dict_keys _); [destruct Hin | simpl; lia]. }
  assert (E : (0 <? Z.of_nat months)%Z = true) by (apply Z.ltb_lt; lia).
  rewrite E; unfold num_div.
  assert (E' : (Z.of_nat months =? 0)%Z = false) by (apply Z.eqb_neq; lia).
  rewrite E'; eexists; split; [reflexivity|].
  split; [rewrite Ems; discriminate|]; intros _.
  assert (Hm : 0 < inject_Z (Z.of_nat months))
    by (unfold Qlt; simpl; lia).
  split.
  - apply Qle_shift_div_l; [exact Hm|].
    rewrite Qmult_1_l, <- Zle_Qle; lia.
  - apply Qle_shift_div_r; [exact Hm|].
    rewrite <- inject_Z_mult, <- Zle_Qle; nia.
Qed.


Section TopicWords.
Context {host : Host}.

End TopicWords.

(** ** The printed text *)

Lemma and_then_returned (s : jsstring) (w : written) :
  (s, Returned) ;; w = (s ++ fst w, snd w).
Proof. reflexivity. Qed.

Lemma and_then_end (w next : written) :
  snd w = Returned -> snd next = Returned -> snd (w ;; next) = Returned.
Proof. unfold and_then; intros -> ->; reflexivity. Qed.

Lemma for_each_end (A : Type) (f : A -> written) (l : list A) :
  (forall x, snd (f x) = Returned) -> snd (for_each f l) = Returned.
Proof.
  intros H; induction l as [|x l IH]; [reflexivity|].
  cbn [for_each]; now apply and_then_end.
Qed.

Lemma when_end (b : bool) (w : written) :
  snd w = Returned -> snd (when b w) = Returned.
Proof. now destruct b. Qed.


Section PrintedText.
Context {host : Host} {printer : Printer}.


(** X26.  A time zone that [Intl] rejects stops the printing of text at the
    first date: a search without results still prints its message and ends
    with exit code 0; a search with results prints the heading and the line
    of the first meeting, then fails, and the exit code is 1.  What prints
    no date never fails: the output as JSON, the text of an analysis and the
    text of a transcript. *)
Theorem rejected_time_zone (timezone : option jsstring) (query : jsstring)
    (r : scored) (rest : list scored) :
  (forall date, formatLocalTime date timezone = None) ->
  stdout_and_exit_code (Printed false timezone (SearchResults query []))
  = (lit "No meetings found matching '" ++ query ++ lit "'" ++ nl, 0%Z)
  /\ stdout_and_exit_code
       (Printed false timezone (SearchResults query (r :: rest)))
     = (lit "Found " ++ String_of_Z (Z.of_nat (S (length rest)))
        ++ lit " meeting(s) matching '" ++ query ++ lit "':" ++ nl ++ nl
        ++ lit "- " ++ MeetingMetadata.title (meeting r) ++ lit " ("
        ++ MeetingMetadata.id (meeting r) ++ lit ")" ++ nl,
        1%Z)
  /\ (forall o, snd (print_result true timezone o) = Returned)
  /\ (forall a, snd (print_result false timezone (Patterns a)) = Returned)
  /\ (forall p, snd (print_result false timezone (Transcript p)) = Returned).
Proof.
  intros Hzone; split; [|split; [|split; [|split]]].
  - cbn [stdout_and_exit_code print_result print_search].
    unfold line, write; now rewrite <- !app_assoc.
  - cbn [stdout_and_exit_code print_result print_search for_each length].
    unfold date_line; rewrite Hzone.
    unfold line, write; rewrite !and_then_returned; cbn [fst snd].
    cbn [and_then fst snd]; rewrite <- !app_assoc; reflexivity.
  - intros [query' results|[p|msg]|[p|msg]|[p|msg]|[a|a|a]|]; reflexivity.
  - intros [a|a|a]; cbn [print_result].
    + unfold print_participants.
      destruct (ParticipantAnalysis.topParticipants a); [reflexivity|].
      apply and_then_end; [reflexivity|].
      apply for_each_end; reflexivity.
    + unfold print_frequency.
      destruct (FrequencyAnalysis.meetingCount a =? 0)%Z; [reflexivity|].
      apply and_then_end; [|reflexivity].
      apply and_then_end; [reflexivity|].
      apply for_each_end; reflexivity.
    + unfold print_topics.
      destruct (TopicAnalysis.topics a); [reflexivity|].
      apply and_then_end; [reflexivity|].
      apply for_each_end; reflexivity.
  - intros [p|msg]; [|reflexivity].
    cbn [print_result print_transcript].
    repeat (apply and_then_end; [|try reflexivity]);
      try reflexivity; try (apply when_end; reflexivity).
    now destruct (TranscriptPayload.confidence p).
Qed.


End PrintedText.

(** ** Runs on the sample cache *)

(** A search with [--json] between [--query] and its value. *)
Lemma json_flag_anywhere_witness :
  main (host := host_with_cache sample_rawData) (still_clock 0)
    [lit "search-meetings"; lit "--query"; lit "--json"; lit "ada"]
  = as_json
      (main (host := host_with_cache sample_rawData) (still_clock 0)
         [lit "search-meetings"; lit "--query"; lit "ada"]).
Proof.
  apply (json_flag_anywhere (host := host_with_cache sample_rawData)
           (still_clock 0) (lit "search-meetings") [lit "--query"]
           [lit "ada"]);
    intros [H|[]]; vm_compute in H; discriminate.
Defined.


(** An option that is last has no value. *)
Lemma malformed_options_witness :
  args_loop [lit "--query"; lit "ada"; lit "--limit"] []
  = Throw (Error (lit "Missing value for --limit")).
Proof.
  destruct (malformed_options (pairs := [(lit "query", lit "ada")])
              (lit "--limit") [])
    as (_ & H & _); [repeat constructor|].
  apply (H eq_refl eq_refl).
Defined.

(** The command spelled with an underscore, a capital and spaces. *)
Lemma command_spellings_witness :
  main (host := sample_host) (still_clock 0)
    [lit " Search_meetings "; lit "--query"; lit "ada"]
  = main (host := sample_host) (still_clock 0)
      [lit "search-meetings"; lit "--query"; lit "ada"].
Proof.
  apply (command_spellings (host := sample_host) (still_clock 0)
           (lit " Search_meetings ") (name := lit "search-meetings")
           [lit "--query"; lit "ada"]).
  - intros s _; reflexivity.
  - now left.
  - reflexivity.
  - vm_compute; reflexivity.
Defined.

(** The transcript of the sample cache. *)
Lemma transcripts_well_formed_witness :
  exists t,
    dict_get
      (transcripts (parseCacheData (host := sample_host) (still_clock 0)
                      sample_rawData true)) (lit "m1") = Some t
    /\ MeetingTranscript.meetingId t = lit "m1"
    /\ trim (MeetingTranscript.content t) = MeetingTranscript.content t
    /\ NoDup (MeetingTranscript.speakers t)
    /\ Forall (fun s => s <> [] /\ trim s = s) (MeetingTranscript.speakers t)
    /\ MeetingTranscript.language t = None
    /\ MeetingTranscript.confidence t = None.
Proof.
  eexists; split; [vm_compute; reflexivity|].
  apply (transcripts_well_formed (host := sample_host) (still_clock 0)
           sample_rawData true (lit "m1")).
  vm_compute; reflexivity.
Defined.




(** The documents of the second meeting of the sample cache, which has no
    notes: one document, with empty content. *)
Lemma documents_of_built_meeting_witness :
  let data := parseCacheData (host := sample_host) (still_clock 0)
                sample_rawData true in
  exists doc,
    documents_command data [(lit "meeting-id", lit "m2")]
    = Ok (Documents (Found
            {| DocumentsPayload.meetingId := lit "m2";
               DocumentsPayload.title := lit "Ada and Bo 1:1";
               DocumentsPayload.count := 1;
               DocumentsPayload.documents := [doc] |}))
    /\ MeetingDocument.content doc = [].
Proof.
  intros data.
  assert (Hne : lit "m2" <> []) by discriminate.
  destruct (documents_of_built_meeting (host := sample_host) (still_clock 0)
              sample_rawData true [(lit "meeting-id", lit "m2")]
              eq_refl Hne) as [H _].
  fold data in H.
  destruct (dict_get (documents data) (lit "m2")) as [doc|] eqn:Hd;
    [|vm_compute in Hd; discriminate].
  exists doc; rewrite H.
  vm_compute in Hd; injection Hd as <-.
  split; reflexivity.
Defined.


(** The frequency of the meetings of the sample cache from 2025 on: none. *)
Lemma date_range_edges_witness :
  let data := parseCacheData (host := sample_host) (still_clock 0)
                sample_rawData true in
  patterns_command (host := sample_host) data
    [(lit "pattern-type", lit "frequency"); (lit "start-date", lit "2025-01-01")]
  = Ok (Patterns (Frequency
          {| FrequencyAnalysis.meetingCount := 0;
             FrequencyAnalysis.byMonth := [];
             FrequencyAnalysis.averagePerMonth := num_of_Z 0 |})).
Proof.
  intros data.
  assert (Hne : lit "2025-01-01" <> []) by discriminate.
  destruct (date_range_edges (host := sample_host) data
              [(lit "pattern-type", lit "frequency");
               (lit "start-date", lit "2025-01-01")]
              (kind := lit "frequency") eq_refl
              (or_intror (or_introl eq_refl))) as (_ & H & _).
  cbv zeta in H; erewrite H; try reflexivity; [|exact Hne].
  vm_compute; reflexivity.
Defined.

(** A cache file that holds an empty array. *)
Lemma cache_file_shapes_witness :
  loadCache (host := host_with_cache (JArr [])) (still_clock 0)
    DEFAULT_CACHE_PATH true
  = Ok (emptyCache 0).
Proof.
  destruct (cache_file_shapes (host := host_with_cache (JArr []))
              (still_clock 0) DEFAULT_CACHE_PATH true
              (rawFile := []) (rawData := JArr [])
              eq_refl eq_refl eq_refl) as (_ & H & _).
  apply H; [discriminate | intros members; discriminate].
Defined.

(** Notes with a heading and a paragraph: the text of the paragraph is in
    the extracted string. *)
Lemma notes_keep_texts_witness :
  let paragraph :=
    [(lit "type", JStr (lit "paragraph"));
     (lit "content",
      JArr [JObj [(lit "type", JStr (lit "text"));
                  (lit "text", JStr (lit " next steps "))]])] in
  let heading :=
    [(lit "type", JStr (lit "heading"));
     (lit "content",
      JArr [JObj [(lit "type", JStr (lit "text"));
                  (lit "text", JStr (lit "Roadmap"))]])] in
  includes
    (extractStructuredNotes
       (JObj [(lit "content", JArr [JObj heading; JObj paragraph])]))
    (lit "next steps")
  = true.
Proof.
  intros paragraph heading.
  apply (notes_keep_texts
           [(lit "content", JArr [JObj heading; JObj paragraph])]
           (content := JArr [JObj heading; JObj paragraph])
           (text := lit " next steps ") eq_refl).
  apply noted_below
    with (entry := paragraph)
         (content := JArr [JObj [(lit "type", JStr (lit "text"));
                                 (lit "text", JStr (lit " next steps "))]]);
    [right; now left | reflexivity | reflexivity|].
  eapply noted_here; [now left | reflexivity].
Defined.

(** A panel whose text node lies in the content of a list item. *)
Lemma panels_keep_texts_witness :
  let item :=
    JObj [(lit "type", JStr (lit "listItem"));
          (lit "content",
           JArr [JObj [(lit "type", JStr (lit "text"));
                       (lit "text", JStr (lit " agreed "))]])] in
  includes (extractDocumentPanelContent (Some (JArr [item]))) (lit "agreed")
  = true.
Proof.
  intros item.
  apply (panels_keep_texts (panels := [item]) (text := lit " agreed ")).
  eapply walked_item; [now left|].
  eapply walked_content; [reflexivity|].
  eapply walked_item; [now left|].
  apply walked_text; reflexivity.
Defined.



(** A search of the sample cache printed with a time zone the host does not
    know: the heading and the first title are written, and the run
    fails. *)
Lemma rejected_time_zone_witness :
  let data := parseCacheData (host := sample_host) (still_clock 0)
                sample_rawData true in
  stdout_and_exit_code (printer := sample_printer)
    (Printed false (Some (lit "Mars/Olympus"))
       (SearchResults (lit "ada")
          (searchMeetings (host := sample_host) data (lit "ada")
             (num_of_Z 10))))
  = (lit "Found 2 meeting(s) matching 'ada':" ++ nl ++ nl
     ++ lit "- Ada and Bo 1:1 (m2)" ++ nl,
     1%Z).
Proof.
  intros data.
  destruct (searchMeetings (host := sample_host) data (lit "ada")
              (num_of_Z 10)) as [|r rest] eqn:E;
    [vm_compute in E; discriminate|].
  destruct (rejected_time_zone (printer := sample_printer)
              (Some (lit "Mars/Olympus")) (lit "ada") r rest)
    as (_ & H & _); [intros date; reflexivity|].
  rewrite H; vm_compute in E; injection E as <- <-.
  vm_compute; reflexivity.
Defined.

